(** * capacities-mcp: request normalisation and result assembly

    A shallow embedding of the TypeScript sources of the Capacities MCP
    server (date.ts, errors.ts, config.ts, capacities-client.ts,
    read-query-tools.ts, mutation-tools.ts) and the properties of its
    tool handlers.

    Conventions of the embedding.
    - A JavaScript string is a [string]: a sequence of code units below
      256.  [trim] and [toLowerCase] follow ECMAScript on that range.
    - A JavaScript number that holds an integer is a [Z].
    - [undefined] is [None]; a value that may also be [null] is a
      [nullable].
    - A [throw] is the [Throw] constructor of [result]; [try]/[catch] is a
      match on it.
    - The remote service is an oracle from the requests issued so far and
      the current request to the outcome of [fetch]; every handler returns
      the list of requests it issued next to its result. *)

From Stdlib Require Import ZArith String Ascii List Bool Lia.
From Stdlib Require Import DecimalString.
From stdpp Require Import base gmap sets strings.

Import ListNotations.
Local Open Scope string_scope.
Local Open Scope Z_scope.

(** ** JavaScript strings *)

Module JsString.

Definition code_unit (c : ascii) : Z := Z.of_N (N_of_ascii c).

Definition of_code (z : Z) : ascii := ascii_of_N (Z.to_N z).

Definition between (lo hi : Z) (c : ascii) : bool :=
  (lo <=? code_unit c) && (code_unit c <=? hi).

(** WhiteSpace and LineTerminator code points below 256: TAB, LF, VT, FF,
    CR, SP and NBSP. *)
Definition is_space (c : ascii) : bool :=
  between 9 13 c || (code_unit c =? 32) || (code_unit c =? 160).

Fixpoint trimStart (s : string) : string :=
  match s with
  | EmptyString => EmptyString
  | String c s' => if is_space c then trimStart s' else s
  end.

Fixpoint trimEnd (s : string) : string :=
  match s with
  | EmptyString => EmptyString
  | String c s' =>
      match trimEnd s' with
      | EmptyString => if is_space c then EmptyString else String c EmptyString
      | r => String c r
      end
  end.

Definition trim (s : string) : string := trimEnd (trimStart s).

(** Simple lower-case mapping of one code unit: A-Z and the Latin-1
    capitals (all of 0xC0-0xDE but the multiplication sign 0xD7). *)
Definition lower_char (c : ascii) : ascii :=
  if between 65 90 c || (between 192 222 c && negb (code_unit c =? 215))
  then of_code (code_unit c + 32) else c.

(** Simple upper-case mapping used by the Canonicalize operation of
    case-insensitive regular expressions.  The code units 0xB5, 0xDF and
    0xFF have no upper-case form below 256 and stay as they are. *)
Definition upper_char (c : ascii) : ascii :=
  if between 97 122 c || (between 224 254 c && negb (code_unit c =? 247))
  then of_code (code_unit c - 32) else c.

Fixpoint toLowerCase (s : string) : string :=
  match s with
  | EmptyString => EmptyString
  | String c s' => String (lower_char c) (toLowerCase s')
  end.

(** A string is truthy when it is not empty. *)
Definition truthy (s : string) : bool :=
  match s with EmptyString => false | _ => true end.

(** [a > b] on strings: code-unit-wise lexicographic order. *)
Definition gtb (a b : string) : bool := String.ltb b a.

(** [`${n}`] for an integer-valued number. *)
Definition of_number (n : Z) : string := NilZero.string_of_int (Z.to_int n).

(** [s.padStart(n, c)] for a one-character filler. *)
Fixpoint repeat_char (c : ascii) (n : nat) : string :=
  match n with O => EmptyString | S n' => String c (repeat_char c n') end.

Definition padStart (n : nat) (c : ascii) (s : string) : string :=
  repeat_char c (n - String.length s) +:+ s.

(** [s.includes(t)]. *)
Fixpoint includes (s t : string) : bool :=
  String.prefix t s ||
  match s with
  | EmptyString => false
  | String _ s' => includes s' t
  end.

Definition is_digit (c : ascii) : bool := between 48 57 c.

Fixpoint no_space (s : string) : bool :=
  match s with
  | EmptyString => true
  | String c s' => negb (is_space c) && no_space s'
  end.

(** [Number(s)] for a non-empty string of decimal digits. *)
Definition digit_step (acc : Z) (c : ascii) : Z := 10 * acc + (code_unit c - 48).

Definition Number_of_digits (s : string) : Z :=
  fold_left digit_step (list_ascii_of_string s) 0.

(** [parts.join(sep)]. *)
Fixpoint join (sep : string) (parts : list string) : string :=
  match parts with
  | [] => EmptyString
  | [p] => p
  | p :: rest => p +:+ sep +:+ join sep rest
  end.

End JsString.

(** ** Regular-expression literals

    Both literals of the sources are anchored sequences of character
    classes with fixed repetition counts, so matching never backtracks. *)

Module Regex.
Import JsString.

(** A class is a list of inclusive code-unit ranges. *)
Definition class := list (Z * Z).

Inductive item :=
| Rep (cls : class) (n : nat)        (* [cls]{n} *)
| Group (cls : class) (n : nat).     (* ([cls]{n}), a capture group *)

Definition members (cls : class) : list ascii :=
  flat_map (fun r => map (fun k => of_code (fst r + Z.of_nat k))
                         (seq 0 (Z.to_nat (snd r - fst r + 1)))) cls.

Definition in_class (cls : class) (c : ascii) : bool :=
  existsb (fun r => between (fst r) (snd r) c) cls.

(** With the [i] flag a code unit matches a class when some member has
    the same canonical (upper-case) form. *)
Definition class_match (ignore_case : bool) (cls : class) (c : ascii) : bool :=
  if ignore_case
  then existsb (fun m => Ascii.eqb (upper_char m) (upper_char c)) (members cls)
  else in_class cls c.

Fixpoint take (ic : bool) (cls : class) (n : nat) (s : string)
  : option (string * string) :=
  match n with
  | O => Some (EmptyString, s)
  | S n' =>
      match s with
      | EmptyString => None
      | String c s' =>
          if class_match ic cls c then
            match take ic cls n' s' with
            | Some (m, r) => Some (String c m, r)
            | None => None
            end
          else None
      end
  end.

(** [/^...$/.exec(s)]: the captured groups, in order. *)
Fixpoint exec (ic : bool) (p : list item) (s : string) : option (list string) :=
  match p with
  | [] => match s with EmptyString => Some [] | _ => None end
  | Rep cls n :: p' =>
      match take ic cls n s with
      | Some (_, r) => exec ic p' r
      | None => None
      end
  | Group cls n :: p' =>
      match take ic cls n s with
      | Some (m, r) => option_map (cons m) (exec ic p' r)
      | None => None
      end
  end.

Definition test (ic : bool) (p : list item) (s : string) : bool :=
  match exec ic p s with Some _ => true | None => false end.

Definition digit : class := [(48, 57)].
Definition hyphen : class := [(45, 45)].
Definition hex : class := [(48, 57); (97, 102)].

End Regex.

(** ** The Date object

    Time values are milliseconds since the epoch; [None] is the time value
    NaN of an Invalid Date.  The day and year arithmetic is that of the
    ECMAScript specification.  Local time follows the rules of the host's
    time zone, given as the function LocalTZA of the specification. *)

Module JsDate.

Definition msPerDay : Z := 86400000.

Definition Day (t : Z) : Z := t / msPerDay.

Definition TimeWithinDay (t : Z) : Z := t mod msPerDay.

Definition DayFromYear (y : Z) : Z :=
  365 * (y - 1970) + (y - 1969) / 4 - (y - 1901) / 100 + (y - 1601) / 400.

Definition InLeapYear (y : Z) : bool :=
  ((y mod 4 =? 0) && negb (y mod 100 =? 0)) || (y mod 400 =? 0).

Definition leap_day (y : Z) : Z := if InLeapYear y then 1 else 0.

(** The largest year whose first day is not after day [d]: an estimate
    from the mean length of a year, corrected by at most one. *)
Definition YearFromDay (d : Z) : Z :=
  let e := 1970 + (400 * d) / 146097 in
  if d <? DayFromYear e then e - 1
  else if DayFromYear (e + 1) <=? d then e + 1
  else e.

Definition YearFromTime (t : Z) : Z := YearFromDay (Day t).

Definition DayWithinYear (t : Z) : Z := Day t - DayFromYear (YearFromTime t).

(** Number of days of the year before month [m] (0-based). *)
Definition month_start (m l : Z) : Z :=
  match m with
  | 0 => 0
  | 1 => 31
  | 2 => 59 + l
  | 3 => 90 + l
  | 4 => 120 + l
  | 5 => 151 + l
  | 6 => 181 + l
  | 7 => 212 + l
  | 8 => 243 + l
  | 9 => 273 + l
  | 10 => 304 + l
  | _ => 334 + l
  end.

Definition month_of_day (d l : Z) : Z :=
  if d <? 31 then 0
  else if d <? 59 + l then 1
  else if d <? 90 + l then 2
  else if d <? 120 + l then 3
  else if d <? 151 + l then 4
  else if d <? 181 + l then 5
  else if d <? 212 + l then 6
  else if d <? 243 + l then 7
  else if d <? 273 + l then 8
  else if d <? 304 + l then 9
  else if d <? 334 + l then 10
  else 11.

Definition MonthFromTime (t : Z) : Z :=
  month_of_day (DayWithinYear t) (leap_day (YearFromTime t)).

Definition DateFromTime (t : Z) : Z :=
  DayWithinYear t
  - month_start (MonthFromTime t) (leap_day (YearFromTime t)) + 1.

Definition MakeDay (year month date : Z) : Z :=
  let ym := year + month / 12 in
  let mn := month mod 12 in
  DayFromYear ym + month_start mn (leap_day ym) + date - 1.

Definition MakeDate (day time : Z) : Z := day * msPerDay + time.

Definition TimeClip (t : Z) : option Z :=
  if Z.abs t <=? 8640000000000000 then Some t else None.

(** A Date object, by its time value. *)
Definition Date : Type := option Z.

(** [Date.UTC(year, month, date)]: years 0 to 99 mean 1900 to 1999. *)
Definition utc_year (year : Z) : Z :=
  if (0 <=? year) && (year <=? 99) then 1900 + year else year.

Definition UTC (year month date : Z) : Date :=
  TimeClip (MakeDate (MakeDay (utc_year year) month date) 0).

Definition getUTCFullYear (d : Date) : option Z := option_map YearFromTime d.
Definition getUTCMonth (d : Date) : option Z := option_map MonthFromTime d.
Definition getUTCDate (d : Date) : option Z := option_map DateFromTime d.

(** Local time.  [tza t isUTC] is LocalTZA(t, isUTC) for the time zone of
    the host: the offset of local time from UTC, in milliseconds, that is
    in effect at the UTC time [t] when [isUTC] is true, and the offset by
    which the host reads the local time [t] when it is false.  A local
    time that a transition of the zone skips or repeats is read as the
    host reads it. *)
Section Local.
Variable tza : Z -> bool -> Z.

Definition LocalTime (t : Z) : Z := t + tza t true.

(** The abstract operation UTC(t) of the specification. *)
Definition UTCTime (t : Z) : Z := t - tza t false.

Definition getFullYear (d : Date) : option Z :=
  option_map (fun t => YearFromTime (LocalTime t)) d.
Definition getMonth (d : Date) : option Z :=
  option_map (fun t => MonthFromTime (LocalTime t)) d.
Definition getDate (d : Date) : option Z :=
  option_map (fun t => DateFromTime (LocalTime t)) d.

(** [d.setDate(dt)]: the new time value of [d]. *)
Definition setDate (d : Date) (dt : option Z) : Date :=
  match d, dt with
  | Some t, Some n =>
      let lt := LocalTime t in
      TimeClip (UTCTime (MakeDate (MakeDay (YearFromTime lt) (MonthFromTime lt) n)
                                  (TimeWithinDay lt)))
  | _, _ => None
  end.
End Local.

(** A zone whose offset never changes. *)
Definition fixed_offset (offset : Z) : Z -> bool -> Z := fun _ _ => offset.

(** [String(n)] of a number that is an integer or NaN. *)
Definition show (n : option Z) : string :=
  match n with Some z => JsString.of_number z | None => "NaN" end.

(** [a !== b] for a number [a] that may be NaN. *)
Definition differs (a : option Z) (b : Z) : bool :=
  match a with Some x => negb (x =? b) | None => true end.

(** A date of the proleptic Gregorian calendar, month and day from 1. *)
Definition days_in_month (y m : Z) : Z :=
  if m =? 2 then 28 + leap_day y
  else if (m =? 4) || (m =? 6) || (m =? 9) || (m =? 11) then 30
  else 31.

Definition real_calendar_date (y m d : Z) : Prop :=
  1 <= m <= 12 /\ 1 <= d <= days_in_month y m.

End JsDate.

(** ** errors.ts *)

Inductive CapacitiesErrorCode :=
| config_error
| validation_error
| network_error
| api_error
| rate_limit
| unsupported.

Definition code_name (c : CapacitiesErrorCode) : string :=
  match c with
  | config_error => "config_error"
  | validation_error => "validation_error"
  | network_error => "network_error"
  | api_error => "api_error"
  | rate_limit => "rate_limit"
  | unsupported => "unsupported"
  end.

Record CapacitiesError := mkCapacitiesError {
  message : string;
  code : CapacitiesErrorCode;
  status : option Z;
  actionableMessage : string
}.

(** What a [throw] can carry: a CapacitiesError, another Error with its
    message, or a value that is no Error at all. *)
Inductive thrown :=
| ThrownCapacities (e : CapacitiesError)
| ThrownError (msg : string)
| ThrownOther.

Inductive result (A : Type) :=
| Ok (a : A)
| Throw (t : thrown).
Arguments Ok {A} a.
Arguments Throw {A} t.

#[global] Instance result_ret : MRet result := @Ok.

#[global] Instance result_bind : MBind result :=
  fun A B k r =>
    match r with
    | Ok a => k a
    | Throw t => Throw t
    end.

Definition throw {A} (e : CapacitiesError) : result A := Throw (ThrownCapacities e).

Definition createConfigError (msg : string) : CapacitiesError :=
  {| message := msg;
     code := config_error;
     status := None;
     actionableMessage :=
       "Set required environment variables and restart the server." |}.

Definition createValidationError (msg : string) : CapacitiesError :=
  {| message := msg;
     code := validation_error;
     status := None;
     actionableMessage := "Fix input values and retry." |}.

Definition createUnsupportedError (msg : string) : CapacitiesError :=
  {| message := msg;
     code := unsupported;
     status := None;
     actionableMessage :=
       "Use a supported Capacities API endpoint documented in https://api.capacities.io/docs." |}.

Definition createNetworkError (msg : string) : CapacitiesError :=
  {| message := msg;
     code := network_error;
     status := None;
     actionableMessage :=
       "Check network connectivity and retry. If this persists, verify api.capacities.io reachability." |}.

Definition createApiError (msg : string) (st : option Z) (action : option string)
  : CapacitiesError :=
  {| message := msg;
     code := api_error;
     status := st;
     actionableMessage :=
       match action with
       | Some a => a
       | None => "Retry the request. If it persists, verify the upstream API response."
       end |}.

(** A [Response] of the fetch API whose body could be read, by the members
    the sources read. *)
Record Response := mkResponse {
  resp_status : Z;
  resp_header : string -> option string;   (* headers.get(name) *)
  resp_text : string                        (* await response.text() *)
}.

Definition resp_ok (r : Response) : bool :=
  (200 <=? resp_status r) && (resp_status r <=? 299).

Definition createHttpError (response : Response) : CapacitiesError :=
  let responseBody := JsString.trim (resp_text response) in
  let st := resp_status response in
  let statusPrefix :=
    "Capacities API request failed with status " +:+ JsString.of_number st +:+ "." in
  let responseHint :=
    if JsString.truthy responseBody then " Response: " +:+ responseBody
    else EmptyString in
  if st =? 401 then
    {| message := statusPrefix +:+ " Unauthorized." +:+ responseHint;
       code := api_error;
       status := Some st;
       actionableMessage :=
         "Verify CAPACITIES_API_TOKEN is valid for your Capacities account." |}
  else if st =? 404 then
    {| message := statusPrefix +:+ " Not found." +:+ responseHint;
       code := api_error;
       status := Some st;
       actionableMessage :=
         "Verify endpoint and identifiers (for example space ID) and retry." |}
  else if st =? 429 then
    let retryAfter := resp_header response "retry-after" in
    let reset := resp_header response "ratelimit-reset" in
    let retryHint :=
      match retryAfter with
      | Some (String c ra) => " Retry after " +:+ String c ra +:+ " seconds."
      | _ =>
          match reset with
          | Some (String c rs) =>
              " Retry when rate limit resets (" +:+ String c rs +:+ ")."
          | _ => " Retry after a short delay."
          end
      end in
    {| message := statusPrefix +:+ " Rate limit exceeded." +:+ retryHint +:+ responseHint;
       code := rate_limit;
       status := Some st;
       actionableMessage :=
         "Back off and retry with lower request frequency. Respect RateLimit headers when present." |}
  else if (st =? 503) || (st =? 555) || (500 <=? st) then
    {| message := statusPrefix +:+ " Server error." +:+ responseHint;
       code := api_error;
       status := Some st;
       actionableMessage :=
         "Retry with exponential backoff. If repeated, treat as temporary upstream outage." |}
  else if 400 <=? st then
    {| message := statusPrefix +:+ responseHint;
       code := api_error;
       status := Some st;
       actionableMessage :=
         "Check request parameters and payload shape against Capacities API docs, then retry." |}
  else
    {| message := statusPrefix +:+ responseHint;
       code := api_error;
       status := Some st;
       actionableMessage := "Retry the request." |}.

Definition normalizeCapacitiesError (error : thrown) : CapacitiesError :=
  match error with
  | ThrownCapacities e => e
  | ThrownError msg =>
      createNetworkError ("Network request to Capacities API failed: " +:+ msg)
  | ThrownOther =>
      createNetworkError "Network request to Capacities API failed with an unknown error."
  end.

(** ** date.ts *)

(** The text [s] between two double-quote characters. *)
Definition quoted (s : string) : string :=
  String (ascii_of_N 34) s +:+ String (ascii_of_N 34) EmptyString.

(** No code unit of [s] is [c]. *)
Definition lacks (c : ascii) (s : string) : bool :=
  forallb (fun x => negb (Ascii.eqb x c)) (list_ascii_of_string s).

Definition ABSOLUTE_DATE_PATTERN : list Regex.item :=
  [Regex.Group Regex.digit 4; Regex.Rep Regex.hyphen 1;
   Regex.Group Regex.digit 2; Regex.Rep Regex.hyphen 1;
   Regex.Group Regex.digit 2].

(** The test of [normalizeDateInput] on the three parsed components: the
    date built from them has the same year, month and day. *)
Definition round_trips (year month day : Z) : bool :=
  let parsed := JsDate.UTC year (month - 1) day in
  negb (JsDate.differs (JsDate.getUTCFullYear parsed) year
        || JsDate.differs (option_map (Z.add 1) (JsDate.getUTCMonth parsed)) month
        || JsDate.differs (JsDate.getUTCDate parsed) day).

(** The components an absolute date string names. *)
Definition parse_iso (s : string) : option (Z * Z * Z) :=
  match Regex.exec false ABSOLUTE_DATE_PATTERN s with
  | Some [m1; m2; m3] =>
      Some (JsString.Number_of_digits m1,
            JsString.Number_of_digits m2,
            JsString.Number_of_digits m3)
  | _ => None
  end.

(** [n] prints as exactly [k] decimal digits that read back as [n]. *)
Definition prints_as_digits (k : nat) (s : string) (n : Z) : bool :=
  (String.length s =? k)%nat
  && forallb JsString.is_digit (list_ascii_of_string s)
  && (JsString.Number_of_digits s =? n).

(** Time values a Date can hold. *)
Definition in_time_range (t : Z) : Prop :=
  - 8640000000000000 <= t <= 8640000000000000.

Section DateTs.
Variable tza : Z -> bool -> Z.

Definition toIsoLocalDate (date : JsDate.Date) : string :=
  let year := JsDate.getFullYear tza date in
  let month :=
    JsString.padStart 2 "0"
      (JsDate.show (option_map (Z.add 1) (JsDate.getMonth tza date))) in
  let day := JsString.padStart 2 "0" (JsDate.show (JsDate.getDate tza date)) in
  JsDate.show year +:+ "-" +:+ month +:+ "-" +:+ day.

Definition normalizeDateInput (input : string) (now : JsDate.Date) : result string :=
  let normalizedInput := JsString.trim input in
  let lower := JsString.toLowerCase normalizedInput in
  if String.eqb lower "yesterday" then
    let date := now in
    let date := JsDate.setDate tza date
                  (option_map (fun d => d - 1) (JsDate.getDate tza date)) in
    Ok (toIsoLocalDate date)
  else
    match Regex.exec false ABSOLUTE_DATE_PATTERN normalizedInput with
    | Some [m1; m2; m3] =>
        let year := JsString.Number_of_digits m1 in
        let month := JsString.Number_of_digits m2 in
        let day := JsString.Number_of_digits m3 in
        let parsed := JsDate.UTC year (month - 1) day in
        if JsDate.differs (JsDate.getUTCFullYear parsed) year
           || JsDate.differs (option_map (Z.add 1) (JsDate.getUTCMonth parsed)) month
           || JsDate.differs (JsDate.getUTCDate parsed) day
        then
          throw (createValidationError
                   ("Invalid date " +:+ quoted input +:+
                    ". Use a real calendar date in YYYY-MM-DD format."))
        else Ok normalizedInput
    | _ =>
        throw (createValidationError
                 ("Invalid date " +:+ quoted input +:+
                  ". Expected YYYY-MM-DD or relative value " +:+
                  quoted "yesterday" +:+ "."))
    end.
End DateTs.


(** ** config.ts *)

Definition CAPACITIES_API_BASE_URL : string := "https://api.capacities.io".
Definition CAPACITIES_API_TOKEN_ENV : string := "CAPACITIES_API_TOKEN".
Definition CAPACITIES_SPACE_ID_ENV : string := "CAPACITIES_SPACE_ID".

(** [/^[0-9a-f]{8}-[0-9a-f]{4}-[1-5][0-9a-f]{3}-[89ab][0-9a-f]{3}-[0-9a-f]{12}$/i] *)
Definition UUID_PATTERN : list Regex.item :=
  [Regex.Rep Regex.hex 8; Regex.Rep Regex.hyphen 1;
   Regex.Rep Regex.hex 4; Regex.Rep Regex.hyphen 1;
   Regex.Rep [(49, 53)] 1; Regex.Rep Regex.hex 3; Regex.Rep Regex.hyphen 1;
   Regex.Rep [(56, 57); (97, 98)] 1; Regex.Rep Regex.hex 3; Regex.Rep Regex.hyphen 1;
   Regex.Rep Regex.hex 12].

Definition EnvSource : Type := string -> option string.

Record CapacitiesConfig := mkConfig {
  baseUrl : string;
  apiToken : string;
  defaultSpaceId : option string
}.

Definition isUuid (value : string) : bool := Regex.test true UUID_PATTERN value.

Definition getOptionalTrimmedEnv (env : EnvSource) (name : string) : option string :=
  match env name with
  | None => None
  | Some raw =>
      let trimmed := JsString.trim raw in
      if (0 <? String.length trimmed)%nat then Some trimmed else None
  end.

Definition getRequiredTrimmedEnv (env : EnvSource) (name : string) : result string :=
  match getOptionalTrimmedEnv env name with
  | Some (String c v) => Ok (String c v)
  | _ => throw (createConfigError
                  (name +:+ " is required and must be a non-empty string."))
  end.

Definition loadCapacitiesConfig (env : EnvSource) : result CapacitiesConfig :=
  apiToken ← getRequiredTrimmedEnv env CAPACITIES_API_TOKEN_ENV;
  let defaultSpaceIdRaw := getOptionalTrimmedEnv env CAPACITIES_SPACE_ID_ENV in
  match defaultSpaceIdRaw with
  | Some raw =>
      if negb (isUuid raw) then
        throw (createValidationError
                 (CAPACITIES_SPACE_ID_ENV +:+ " must be a UUID when provided. Received: "
                  +:+ quoted raw +:+ "."))
      else Ok {| baseUrl := CAPACITIES_API_BASE_URL;
                 apiToken := apiToken;
                 defaultSpaceId := defaultSpaceIdRaw |}
  | None => Ok {| baseUrl := CAPACITIES_API_BASE_URL;
                  apiToken := apiToken;
                  defaultSpaceId := defaultSpaceIdRaw |}
  end.

(** [explicitSpaceId?.trim() || config.defaultSpaceId] *)
Definition spaceIdCandidate (explicitSpaceId : option string) (config : CapacitiesConfig)
  : option string :=
  match explicitSpaceId with
  | Some e =>
      if JsString.truthy (JsString.trim e) then Some (JsString.trim e)
      else defaultSpaceId config
  | None => defaultSpaceId config
  end.

Definition resolveSpaceId (explicitSpaceId : option string) (config : CapacitiesConfig)
  : result string :=
  match spaceIdCandidate explicitSpaceId config with
  | Some (String c rest) =>
      let candidate := String c rest in
      if negb (isUuid candidate) then
        throw (createValidationError
                 ("Space ID must be a UUID. Received: " +:+ quoted candidate +:+ "."))
      else Ok candidate
  | _ =>
      throw (createConfigError
               ("Missing space ID. Provide a space ID in the request or set "
                +:+ CAPACITIES_SPACE_ID_ENV +:+ "."))
  end.

(** The canonical UUID shape in the words of the specification: five
    groups of 8, 4, 4, 4 and 12 hexadecimal digits of either case, joined
    by hyphens; the first digit of the third group (the version) is 1 to
    5 and the first digit of the fourth (the variant) is 8, 9, a or b. *)
Definition is_hex_digit (c : ascii) : bool :=
  JsString.is_digit c || JsString.between 97 102 c || JsString.between 65 70 c.

Definition hex_group (n : nat) (g : string) : Prop :=
  String.length g = n /\ forallb is_hex_digit (list_ascii_of_string g) = true.

Definition version_nibble (c : ascii) : bool := JsString.between 49 53 c.

Definition variant_nibble (c : ascii) : bool :=
  existsb (Ascii.eqb c) ["8"; "9"; "a"; "b"; "A"; "B"]%char.

Definition canonical_uuid_shape (s : string) : Prop :=
  exists g1 g2 v g3 w g4 g5,
    s = g1 +:+ "-" +:+ g2 +:+ "-" +:+ String v g3 +:+ "-" +:+ String w g4 +:+ "-" +:+ g5 /\
    hex_group 8 g1 /\ hex_group 4 g2 /\
    version_nibble v = true /\ hex_group 3 g3 /\
    variant_nibble w = true /\ hex_group 3 g4 /\
    hex_group 12 g5.

(** The candidate that wins, in the words of the specification: the
    trimmed explicit value when it is not empty, else the default. *)
Definition winning_candidate (explicitSpaceId : option string) (config : CapacitiesConfig)
  : string :=
  let explicit := match explicitSpaceId with
                  | Some e => JsString.trim e
                  | None => EmptyString
                  end in
  if JsString.truthy explicit then explicit
  else match defaultSpaceId config with
       | Some d => d
       | None => EmptyString
       end.

(** ** capacities-client.ts *)

(** JavaScript values that reach a structured payload.  An object is the
    list of its properties in insertion order. *)
#[warnings="-register-all"] Inductive json :=
| JUndefined
| JNull
| JBool (b : bool)
| JNum (n : Z)
| JStr (s : string)
| JArr (items : list json)
| JObj (props : list (string * json)).

Fixpoint assoc {A} (key : string) (props : list (string * A)) : option A :=
  match props with
  | [] => None
  | (k, v) :: rest => if String.eqb k key then Some v else assoc key rest
  end.

Definition json_opt (o : option string) : json :=
  match o with Some s => JStr s | None => JUndefined end.

Record CapacitiesSpace := mkSpace {
  space_id : string;
  space_title : string;
  space_icon : option string
}.

(** [CapacitiesStructureInfo extends Record<string, unknown>]: the two
    declared properties and whatever else the service sent. *)
Record CapacitiesStructureInfo := mkStructure {
  structure_id : string;
  structure_title : string;
  structure_extra : list (string * json)
}.

Record CapacitiesLookupResult := mkLookupResult {
  result_id : string;
  result_structureId : string;
  result_title : string
}.

Record CapacitiesLookupResponse := { results : list CapacitiesLookupResult }.
Record CapacitiesSpacesResponse := { spaces : list CapacitiesSpace }.
Record CapacitiesSpaceInfoResponse := { structures : list CapacitiesStructureInfo }.

Inductive http_method := GET | POST.

Definition method_name (m : http_method) : string :=
  match m with GET => "GET" | POST => "POST" end.

Record request := mkRequest {
  req_method : http_method;
  req_path : string;
  req_query : list (string * string);
  req_body : option (list (string * json))
}.

(** How [fetch] settles: it rejects; it resolves with a response whose
    body can be read; or it resolves with a response of status [st] whose
    [text()] rejects with [t]. *)
Inductive fetch_outcome :=
| Rejected (t : thrown)
| Resolved (r : Response)
| BodyRejected (st : Z) (t : thrown).

(** The host of one tool invocation: its clock and time zone, the remote
    service behind [fetch], [JSON.stringify], [JSON.parse] at each declared
    response type (taken at its declared type, as the cast in the client
    does), and which of two concurrent requests settles first. *)
Record Host := mkHost {
  tza : Z -> bool -> Z;
  now : JsDate.Date;
  fetchImpl : list request -> request -> fetch_outcome;
  stringify : json -> string;
  parse_spaces : string -> option CapacitiesSpacesResponse;
  parse_space_info : string -> option CapacitiesSpaceInfoResponse;
  parse_lookup : string -> option CapacitiesLookupResponse;
  first_settles_first : bool
}.

(** An asynchronous computation: from the requests issued so far to the
    requests issued when it settles, and how it settles. *)
Definition io (A : Type) : Type := list request -> list request * result A.

#[global] Instance io_ret : MRet io := fun A a log => (log, Ok a).

#[global] Instance io_bind : MBind io :=
  fun A B k m log =>
    match m log with
    | (log', Ok a) => k a log'
    | (log', Throw t) => (log', Throw t)
    end.

Definition lift {A} (r : result A) : io A := fun log => (log, r).

Definition catch {A} (m : io A) (handler : thrown -> io A) : io A :=
  fun log =>
    match m log with
    | (log', Ok a) => (log', Ok a)
    | (log', Throw t) => handler t log'
    end.

(** [Promise.all([a, b])]: both are started, in order; it rejects with the
    rejection that comes first. *)
Definition all2 {A B} (a_first : bool) (a : io A) (b : io B) : io (A * B) :=
  fun log =>
    let '(log1, ra) := a log in
    let '(log2, rb) := b log1 in
    (log2,
     match ra, rb with
     | Ok x, Ok y => Ok (x, y)
     | Throw t, Ok _ => Throw t
     | Ok _, Throw t => Throw t
     | Throw ta, Throw tb => Throw (if a_first then ta else tb)
     end).

Section Client.
Variable host : Host.
Variable config : CapacitiesConfig.

(** The body of [requestJson] inside its [try]: what [fetch] and the
    checks of the response give. *)
Definition requestJson_try {T} (method : http_method) (path : string)
           (outcome : fetch_outcome) (parse : string -> option T) : result T :=
  match outcome with
  | Rejected t => Throw t
  | Resolved response =>
      if negb (resp_ok response) then throw (createHttpError response)
      else
        let rawBody := resp_text response in
        if negb (JsString.truthy (JsString.trim rawBody)) then
          throw (createApiError
                   ("Capacities API returned an empty response body for "
                    +:+ method_name method +:+ " " +:+ path +:+ ".")
                   (Some (resp_status response))
                   (Some "Check endpoint behavior in Capacities docs. Use only endpoints with documented response bodies."))
        else
          match parse rawBody with
          | Some v => Ok v
          | None =>
              throw (createApiError
                       ("Capacities API returned invalid JSON for "
                        +:+ method_name method +:+ " " +:+ path +:+ ".")
                       (Some (resp_status response)) None)
          end
  | BodyRejected st t =>
      (* the first [await response.text()] rejects: the one of
         [createHttpError] when the status is not ok, the one of
         [requestJson] when it is *)
      if negb ((200 <=? st) && (st <=? 299)) then Throw t else Throw t
  end.

(** One request is issued; whatever is thrown is caught and classified. *)
Definition requestJson {T} (method : http_method) (path : string)
           (query : list (string * string)) (body : option (list (string * json)))
           (parse : string -> option T) : io T :=
  fun log =>
    let req := mkRequest method path query body in
    ((log ++ [req])%list,
     match requestJson_try method path (fetchImpl host log req) parse with
     | Ok v => Ok v
     | Throw error => Throw (ThrownCapacities (normalizeCapacitiesError error))
     end).

Definition getSpaces : io CapacitiesSpacesResponse :=
  requestJson GET "/spaces" [] None (parse_spaces host).

Definition getSpaceInfo (spaceId : option string) : io CapacitiesSpaceInfoResponse :=
  resolvedSpaceId ← lift (resolveSpaceId spaceId config);
  requestJson GET "/space-info" [("spaceid", resolvedSpaceId)] None
              (parse_space_info host).

Definition lookup (searchTerm : string) (spaceId : option string)
  : io CapacitiesLookupResponse :=
  let trimmedSearchTerm := JsString.trim searchTerm in
  if negb (JsString.truthy trimmedSearchTerm) then
    lift (throw (createValidationError "lookup searchTerm must be a non-empty string."))
  else
    resolvedSpaceId ← lift (resolveSpaceId spaceId config);
    requestJson POST "/lookup" []
                (Some [("searchTerm", JStr trimmedSearchTerm);
                       ("spaceId", JStr resolvedSpaceId)])
                (parse_lookup host).
End Client.

(** ** Tool results (read-query-tools.ts and mutation-tools.ts) *)

Definition nl : string := String (ascii_of_N 10) EmptyString.

Record text_content := mkText {
  tc_type : string;
  tc_text : string
}.

Record tool_result := mkResult {
  content : list text_content;
  structuredContent : list (string * json);
  isError : option bool
}.

Definition toTextContent (text : string) : list text_content :=
  [mkText "text" text].

Definition trimToUndefined (value : option string) : option string :=
  match value with
  | Some (String c v) =>
      let trimmed := JsString.trim (String c v) in
      if (0 <? String.length trimmed)%nat then Some trimmed else None
  | _ => None
  end.

Section Results.
Variable host : Host.

Definition unsupportedResult (toolName msg : string)
           (details : list (string * json)) : tool_result :=
  let unsupportedError := createUnsupportedError msg in
  let markdown :=
    JsString.join nl
      ["## " +:+ toolName;
       EmptyString;
       "- Supported: **no**";
       "- Error code: `" +:+ code_name (code unsupportedError) +:+ "`";
       "- Message: " +:+ message unsupportedError;
       "- Action: " +:+ actionableMessage unsupportedError;
       EmptyString;
       "### Details";
       "```json";
       stringify host (JObj details);
       "```"] in
  {| content := toTextContent markdown;
     structuredContent :=
       [("tool", JStr toolName);
        ("supported", JBool false);
        ("error", JObj [("code", JStr (code_name (code unsupportedError)));
                        ("message", JStr (message unsupportedError));
                        ("actionableMessage",
                         JStr (actionableMessage unsupportedError))]);
        ("details", JObj details)];
     isError := None |}.

Definition errorResult (toolName : string) (error : thrown) : tool_result :=
  let normalizedError := normalizeCapacitiesError error in
  let statusLine :=
    match status normalizedError with
    | Some st => "- Status: " +:+ JsString.of_number st
    | None => EmptyString
    end in
  let markdown :=
    JsString.join nl
      (List.filter (fun line => (0 <? String.length line)%nat)
         ["## " +:+ toolName +:+ " error";
          EmptyString;
          "- Code: `" +:+ code_name (code normalizedError) +:+ "`";
          "- Message: " +:+ message normalizedError;
          statusLine;
          "- Action: " +:+ actionableMessage normalizedError]) in
  {| content := toTextContent markdown;
     structuredContent :=
       [("tool", JStr toolName);
        ("ok", JBool false);
        ("error", JObj [("code", JStr (code_name (code normalizedError)));
                        ("message", JStr (message normalizedError));
                        ("status", match status normalizedError with
                                   | Some st => JNum st
                                   | None => JNull
                                   end);
                        ("actionableMessage",
                         JStr (actionableMessage normalizedError))])];
     isError := Some true |}.
End Results.

(** ** read-query-tools.ts *)

Definition DEFAULT_LIMIT : Z := 20.

Definition AVAILABLE_ENDPOINTS : json :=
  JArr [JStr "/spaces"; JStr "/space-info"; JStr "/lookup";
        JStr "/save-weblink"; JStr "/save-to-daily-note"].

Record SearchEntitiesInput := mkSearchInput {
  si_spaceId : option string;
  si_text : option string;
  si_type : option string;
  si_date : option string;
  si_dateFrom : option string;
  si_dateTo : option string;
  si_limit : option Z
}.

Record SearchEntitiesFilters := mkSearchFilters {
  sf_spaceId : option string;
  sf_text : option string;
  sf_type : option string;
  sf_date : option string;
  sf_dateFrom : option string;
  sf_dateTo : option string;
  sf_limit : Z
}.

Inductive task_status := status_open | status_completed | status_all.

Definition status_name (s : task_status) : string :=
  match s with
  | status_open => "open"
  | status_completed => "completed"
  | status_all => "all"
  end.

Record ListTasksInput := mkListInput {
  li_spaceId : option string;
  li_status : option task_status;
  li_date : option string;
  li_dateFrom : option string;
  li_dateTo : option string
}.

Record ListTasksFilters := mkListFilters {
  lf_spaceId : option string;
  lf_status : option task_status;
  lf_date : option string;
  lf_dateFrom : option string;
  lf_dateTo : option string
}.

Record GetEntityInput := mkEntityInput {
  ei_entityId : string;
  ei_structureId : string;
  ei_spaceId : option string
}.

Definition json_of_search_filters (f : SearchEntitiesFilters) : json :=
  JObj [("spaceId", json_opt (sf_spaceId f));
        ("text", json_opt (sf_text f));
        ("type", json_opt (sf_type f));
        ("date", json_opt (sf_date f));
        ("dateFrom", json_opt (sf_dateFrom f));
        ("dateTo", json_opt (sf_dateTo f));
        ("limit", JNum (sf_limit f))].

Definition json_of_list_filters (f : ListTasksFilters) : json :=
  JObj [("spaceId", json_opt (lf_spaceId f));
        ("status", json_opt (option_map status_name (lf_status f)));
        ("date", json_opt (lf_date f));
        ("dateFrom", json_opt (lf_dateFrom f));
        ("dateTo", json_opt (lf_dateTo f))].

Definition json_of_structure (s : CapacitiesStructureInfo) : json :=
  JObj (("id", JStr (structure_id s)) :: ("title", JStr (structure_title s))
        :: structure_extra s).

Definition json_of_lookup_result (r : CapacitiesLookupResult) : json :=
  JObj [("id", JStr (result_id r));
        ("structureId", JStr (result_structureId r));
        ("title", JStr (result_title r))].

(** A string is truthy when it is there and not empty. *)
Definition present (o : option string) : bool :=
  match o with Some s => JsString.truthy s | None => false end.

Definition validateDateInputs (date dateFrom dateTo : option string) : result unit :=
  if present date && (present dateFrom || present dateTo) then
    throw (createValidationError "Use either date or dateFrom/dateTo, not both.")
  else if (present dateFrom && negb (present dateTo))
          || (negb (present dateFrom) && present dateTo) then
    throw (createValidationError "dateFrom and dateTo must be provided together.")
  else
    match dateFrom, dateTo with
    | Some from, Some to =>
        if present dateFrom && present dateTo && JsString.gtb from to then
          throw (createValidationError
                   "dateFrom must be earlier than or equal to dateTo.")
        else Ok tt
    | _, _ => Ok tt
    end.

Definition getOptionalStringField (record : CapacitiesStructureInfo) (key : string)
  : option string :=
  match assoc key (("id", JStr (structure_id record))
                   :: ("title", JStr (structure_title record))
                   :: structure_extra record) with
  | Some (JStr s) => Some s
  | _ => None
  end.

Definition resolveStructureIdsByType (typeFilter : string)
           (structures : list CapacitiesStructureInfo) : gset string :=
  let normalizedType := JsString.toLowerCase typeFilter in
  fold_left
    (fun (structureIds : gset string) structure =>
       let titleMatches :=
         String.eqb (JsString.toLowerCase (structure_title structure)) normalizedType in
       let idMatches :=
         String.eqb (JsString.toLowerCase (structure_id structure)) normalizedType in
       let pluralName := getOptionalStringField structure "pluralName" in
       let pluralMatches :=
         match pluralName with
         | Some p => String.eqb (JsString.toLowerCase p) normalizedType
         | None => false
         end in
       if titleMatches || idMatches || pluralMatches
       then {[ structure_id structure ]} ∪ structureIds
       else structureIds)
    structures ∅.

Definition matchesTypeFilter (result : CapacitiesLookupResult) (typeFilter : string)
           (allowedStructureIds : gset string) : bool :=
  if (0 <? size allowedStructureIds)%nat then
    bool_decide (result_structureId result ∈ allowedStructureIds)
  else
    String.eqb (JsString.toLowerCase (result_structureId result))
               (JsString.toLowerCase typeFilter).

(** [items.slice(0, n)] *)
Definition slice0 {A} (items : list A) (n : Z) : list A :=
  if n <? 0
  then firstn (Z.to_nat (Z.max (Z.of_nat (List.length items) + n) 0)) items
  else firstn (Z.to_nat n) items.

Definition length_number {A} (items : list A) : Z := Z.of_nat (List.length items).

Definition renderSpaceInfoMarkdown (spaceId : string) (spaceTitle : option string)
           (spacesCount : Z) (structures : list CapacitiesStructureInfo) : string :=
  let structureLines :=
    match structures with
    | [] => "- No structures returned by Capacities API."
    | _ =>
        JsString.join nl
          (map (fun structure =>
                  "- `" +:+ structure_id structure +:+ "` - "
                  +:+ structure_title structure)
               structures)
    end in
  JsString.join nl
    ["## Space Info";
     EmptyString;
     "- Space ID: `" +:+ spaceId +:+ "`";
     "- Space title: " +:+ match spaceTitle with
                           | Some t => t
                           | None => "_Unknown in /spaces response_"
                           end;
     "- Accessible spaces in token scope: " +:+ JsString.of_number spacesCount;
     "- Structures returned: " +:+ JsString.of_number (length_number structures);
     EmptyString;
     "### Structures";
     structureLines].

Definition renderDateFilter (filters : SearchEntitiesFilters) : string :=
  match sf_date filters, sf_dateFrom filters, sf_dateTo filters with
  | Some (String c d), _, _ => "`" +:+ String c d +:+ "`"
  | _, Some (String c f), Some (String c' t) =>
      "`" +:+ String c f +:+ "` to `" +:+ String c' t +:+ "`"
  | _, _, _ => "_Not provided_"
  end.

Definition backticked_or_missing (o : option string) : string :=
  match o with
  | Some (String c s) => "`" +:+ String c s +:+ "`"
  | _ => "_Not provided_"
  end.

Definition renderSearchEntitiesMarkdown (filters : SearchEntitiesFilters)
           (results : list CapacitiesLookupResult) (totalBeforeLimit : Z)
           (notes : list string) : string :=
  let resultsLines :=
    match results with
    | [] => "- No matching entities."
    | _ =>
        JsString.join nl
          (map (fun result =>
                  "- **" +:+ result_title result +:+ "**  " +:+ nl
                  +:+ "  ID: `" +:+ result_id result +:+ "`  " +:+ nl
                  +:+ "  Structure: `" +:+ result_structureId result +:+ "`")
               results)
    end in
  let notesLines :=
    match notes with
    | [] => "- None."
    | _ => JsString.join nl (map (fun note => "- " +:+ note) notes)
    end in
  JsString.join nl
    ["## Search Entities";
     EmptyString;
     "- Text query: " +:+ backticked_or_missing (sf_text filters);
     "- Type filter: " +:+ backticked_or_missing (sf_type filters);
     "- Date filter: " +:+ renderDateFilter filters;
     "- Matches before limit: " +:+ JsString.of_number totalBeforeLimit;
     "- Returned after limit (" +:+ JsString.of_number (sf_limit filters) +:+ "): "
     +:+ JsString.of_number (length_number results);
     EmptyString;
     "### Results";
     resultsLines;
     EmptyString;
     "### Notes";
     notesLines].

Section ReadQueryTools.
Variable host : Host.
Variable config : CapacitiesConfig.

(** [value ? normalizeDateInput(value) : undefined], at the host's clock. *)
Definition normalizeDateField (value : option string) : result (option string) :=
  match value with
  | Some (String c v) =>
      d ← normalizeDateInput (tza host) (String c v) (now host); Ok (Some d)
  | _ => Ok None
  end.

Definition normalizeSearchEntitiesFilters (input : SearchEntitiesInput)
  : result SearchEntitiesFilters :=
  date ← normalizeDateField (si_date input);
  dateFrom ← normalizeDateField (si_dateFrom input);
  dateTo ← normalizeDateField (si_dateTo input);
  _ ← validateDateInputs date dateFrom dateTo;
  Ok {| sf_spaceId := trimToUndefined (si_spaceId input);
        sf_text := trimToUndefined (si_text input);
        sf_type := trimToUndefined (si_type input);
        sf_date := date;
        sf_dateFrom := dateFrom;
        sf_dateTo := dateTo;
        sf_limit := match si_limit input with
                    | Some l => l
                    | None => DEFAULT_LIMIT
                    end |}.

Definition normalizeListTasksFilters (input : ListTasksInput)
  : result ListTasksFilters :=
  date ← normalizeDateField (li_date input);
  dateFrom ← normalizeDateField (li_dateFrom input);
  dateTo ← normalizeDateField (li_dateTo input);
  _ ← validateDateInputs date dateFrom dateTo;
  Ok {| lf_spaceId := trimToUndefined (li_spaceId input);
        lf_status := Some match li_status input with
                          | Some s => s
                          | None => status_all
                          end;
        lf_date := date;
        lf_dateFrom := dateFrom;
        lf_dateTo := dateTo |}.

Definition get_space_info (spaceId : option string) : io tool_result :=
  catch
    (resolvedSpaceId ← lift (resolveSpaceId spaceId config);
     responses ← all2 (first_settles_first host)
                      (getSpaces host)
                      (getSpaceInfo host config (Some resolvedSpaceId));
     let '(spacesResponse, spaceInfoResponse) := responses in
     let selectedSpace :=
       find (fun space => String.eqb (space_id space) resolvedSpaceId)
            (spaces spacesResponse) in
     let markdown :=
       renderSpaceInfoMarkdown resolvedSpaceId
         (option_map space_title selectedSpace)
         (length_number (spaces spacesResponse))
         (structures spaceInfoResponse) in
     mret {| content := toTextContent markdown;
             structuredContent :=
               [("tool", JStr "get_space_info");
                ("spaceId", JStr resolvedSpaceId);
                ("spaceTitle", match selectedSpace with
                               | Some space => JStr (space_title space)
                               | None => JNull
                               end);
                ("spacesCount", JNum (length_number (spaces spacesResponse)));
                ("structures",
                 JArr (map json_of_structure (structures spaceInfoResponse)))];
             isError := None |})
    (fun error => mret (errorResult "get_space_info" error)).

Definition search_entities (input : SearchEntitiesInput) : io tool_result :=
  catch
    (filters ← lift (normalizeSearchEntitiesFilters input);
     resolvedSpaceId ← lift (resolveSpaceId (sf_spaceId filters) config);
     match sf_text filters with
     | Some (String c t) =>
         let text := String c t in
         lookupResponse ← lookup host config text (Some resolvedSpaceId);
         let notes : list string := [] in
         let filteredResults := results lookupResponse in
         typed ←
           match sf_type filters with
           | Some (String c' ty) =>
               let typeFilter := String c' ty in
               spaceInfoResponse ← getSpaceInfo host config (Some resolvedSpaceId);
               let allowedStructureIds :=
                 resolveStructureIdsByType typeFilter
                                           (structures spaceInfoResponse) in
               let filteredResults :=
                 List.filter (fun result =>
                           matchesTypeFilter result typeFilter allowedStructureIds)
                        filteredResults in
               mret (filteredResults,
                     match filteredResults with
                     | [] =>
                         (notes ++
                          ["No results matched type filter `" +:+ typeFilter
                           +:+ "` using structure metadata from `/space-info`."])%list
                     | _ => notes
                     end)
           | _ => mret (filteredResults, notes)
           end;
         let '(filteredResults, notes) := typed in
         let notes :=
           if present (sf_date filters) || present (sf_dateFrom filters)
              || present (sf_dateTo filters)
           then (notes ++
                 ["Date filters are accepted for compatibility but not applied because /lookup does not return entity date fields."])%list
           else notes in
         let limitedResults := slice0 filteredResults (sf_limit filters) in
         let markdown :=
           renderSearchEntitiesMarkdown filters limitedResults
                                        (length_number filteredResults) notes in
         mret {| content := toTextContent markdown;
                 structuredContent :=
                   [("tool", JStr "search_entities");
                    ("query", json_of_search_filters filters);
                    ("totalResultsBeforeLimit", JNum (length_number filteredResults));
                    ("returnedResults", JNum (length_number limitedResults));
                    ("unsupportedNotes", JArr (map JStr notes));
                    ("results", JArr (map json_of_lookup_result limitedResults))];
                 isError := None |}
     | _ =>
         mret (unsupportedResult host "search_entities"
                 "Capacities /lookup requires a non-empty text query. Date-only or type-only search is not supported by the public API."
                 [("requestedFilters", json_of_search_filters filters);
                  ("supported",
                   JObj [("text", JBool true);
                         ("type", JStr "best-effort (via structureId/title mapping)");
                         ("date", JBool false);
                         ("dateRange", JBool false)])])
     end)
    (fun error => mret (errorResult "search_entities" error)).

Definition get_entity_by_id (input : GetEntityInput) : io tool_result :=
  mret (unsupportedResult host "get_entity_by_id"
          "Capacities public API does not provide a documented endpoint to fetch an entity by ID and structure."
          [("requestedEntity",
            JObj [("entityId", JStr (ei_entityId input));
                  ("structureId", JStr (ei_structureId input));
                  ("spaceId",
                   match ei_spaceId input with
                   | Some s => JStr s
                   | None =>
                       match defaultSpaceId config with
                       | Some d => JStr d
                       | None => JNull
                       end
                   end)]);
           ("availableEndpoints", AVAILABLE_ENDPOINTS)]).

Definition list_tasks (input : ListTasksInput) : io tool_result :=
  catch
    (filters ← lift (normalizeListTasksFilters input);
     mret (unsupportedResult host "list_tasks"
             "Capacities public API does not provide a documented endpoint for listing tasks or filtering by task status/date."
             [("requestedFilters", json_of_list_filters filters);
              ("availableEndpoints", AVAILABLE_ENDPOINTS)]))
    (fun error => mret (errorResult "list_tasks" error)).
End ReadQueryTools.

(** ** mutation-tools.ts *)

(** A value of type [T | null | undefined]. *)
Inductive nullable (A : Type) :=
| Undefined
| Null
| Value (a : A).
Arguments Undefined {A}.
Arguments Null {A}.
Arguments Value {A} a.

Definition is_undefined {A} (v : nullable A) : bool :=
  match v with Undefined => true | _ => false end.

Definition json_nullable (v : nullable string) : json :=
  match v with
  | Undefined => JUndefined
  | Null => JNull
  | Value s => JStr s
  end.

Inductive update_status := update_open | update_completed.

Definition update_status_name (s : update_status) : string :=
  match s with
  | update_open => "open"
  | update_completed => "completed"
  end.

Record CreateTaskRaw := mkCreateRaw {
  cr_spaceId : option string;
  cr_title : string;
  cr_description : option string;
  cr_dueDate : option string
}.

Record CreateTaskInput := mkCreate {
  ct_spaceId : option string;
  ct_title : string;
  ct_description : option string;
  ct_dueDate : option string
}.

Record UpdateTaskRaw := mkUpdateRaw {
  ur_taskId : string;
  ur_spaceId : option string;
  ur_title : option string;
  ur_description : nullable string;
  ur_dueDate : nullable string;
  ur_status : option update_status
}.

Record UpdateTaskInput := mkUpdate {
  ut_taskId : string;
  ut_spaceId : option string;
  ut_title : option string;
  ut_description : nullable string;
  ut_dueDate : nullable string;
  ut_status : option update_status
}.

Record CompleteTaskRaw := mkCompleteRaw {
  kr_taskId : string;
  kr_spaceId : option string;
  kr_completed : option bool
}.

Record CompleteTaskInput := mkComplete {
  kt_taskId : string;
  kt_spaceId : option string;
  kt_completed : bool
}.

Definition json_of_create (p : CreateTaskInput) : json :=
  JObj [("spaceId", json_opt (ct_spaceId p));
        ("title", JStr (ct_title p));
        ("description", json_opt (ct_description p));
        ("dueDate", json_opt (ct_dueDate p))].

Definition json_of_update (p : UpdateTaskInput) : json :=
  JObj [("taskId", JStr (ut_taskId p));
        ("spaceId", json_opt (ut_spaceId p));
        ("title", json_opt (ut_title p));
        ("description", json_nullable (ut_description p));
        ("dueDate", json_nullable (ut_dueDate p));
        ("status", json_opt (option_map update_status_name (ut_status p)))].

Definition json_of_complete (p : CompleteTaskInput) : json :=
  JObj [("taskId", JStr (kt_taskId p));
        ("spaceId", json_opt (kt_spaceId p));
        ("completed", JBool (kt_completed p))].

Section MutationTools.
Variable host : Host.
Variable config : CapacitiesConfig.

Definition normalizeNullableText (value : nullable string) (fieldName : string)
  : result (nullable string) :=
  match value with
  | Undefined => Ok Undefined
  | Null => Ok Null
  | Value v =>
      match trimToUndefined (Some v) with
      | Some (String c t) => Ok (Value (String c t))
      | _ => throw (createValidationError
                      (fieldName +:+ " must be a non-empty string when provided."))
      end
  end.

Definition normalizeOptionalDate (value : option string) : result (option string) :=
  match value with
  | None => Ok None
  | Some v =>
      match trimToUndefined (Some v) with
      | Some (String c t) =>
          d ← normalizeDateInput (tza host) (String c t) (now host); Ok (Some d)
      | _ => throw (createValidationError
                      "dueDate must be a non-empty date string when provided.")
      end
  end.

Definition normalizeNullableDate (value : nullable string) : result (nullable string) :=
  match value with
  | Undefined => Ok Undefined
  | Null => Ok Null
  | Value v =>
      match trimToUndefined (Some v) with
      | Some (String c t) =>
          d ← normalizeDateInput (tza host) (String c t) (now host); Ok (Value d)
      | _ => throw (createValidationError
                      "dueDate must be a non-empty date string when provided.")
      end
  end.

Definition normalizeCreateTaskInput (input : CreateTaskRaw) : result CreateTaskInput :=
  match trimToUndefined (Some (cr_title input)) with
  | Some (String c t) =>
      let title := String c t in
      spaceId ← resolveSpaceId (cr_spaceId input) config;
      let description := trimToUndefined (cr_description input) in
      dueDate ← normalizeOptionalDate (cr_dueDate input);
      Ok {| ct_spaceId := Some spaceId;
            ct_title := title;
            ct_description := description;
            ct_dueDate := dueDate |}
  | _ => throw (createValidationError "title must be a non-empty string.")
  end.

Definition normalizeUpdateTaskInput (input : UpdateTaskRaw) : result UpdateTaskInput :=
  match trimToUndefined (Some (ur_taskId input)) with
  | Some (String c t) =>
      let taskId := String c t in
      let title :=
        match ur_title input with
        | None => None
        | Some v => trimToUndefined (Some v)
        end in
      if match ur_title input with Some _ => true | None => false end
         && negb (present title)
      then throw (createValidationError
                    "title must be a non-empty string when provided.")
      else
        description ← normalizeNullableText (ur_description input) "description";
        dueDate ← normalizeNullableDate (ur_dueDate input);
        let status := ur_status input in
        if match title with None => true | Some _ => false end
           && is_undefined description
           && is_undefined dueDate
           && match status with None => true | Some _ => false end
        then throw (createValidationError
                      "Provide at least one update field: title, description, dueDate, or status.")
        else
          spaceId ← resolveSpaceId (ur_spaceId input) config;
          Ok {| ut_taskId := taskId;
                ut_spaceId := Some spaceId;
                ut_title := title;
                ut_description := description;
                ut_dueDate := dueDate;
                ut_status := status |}
  | _ => throw (createValidationError "taskId must be a non-empty string.")
  end.

Definition normalizeCompleteTaskInput (input : CompleteTaskRaw)
  : result CompleteTaskInput :=
  match trimToUndefined (Some (kr_taskId input)) with
  | Some (String c t) =>
      let taskId := String c t in
      spaceId ← resolveSpaceId (kr_spaceId input) config;
      Ok {| kt_taskId := taskId;
            kt_spaceId := Some spaceId;
            kt_completed := match kr_completed input with
                            | Some b => b
                            | None => true
                            end |}
  | _ => throw (createValidationError "taskId must be a non-empty string.")
  end.

Definition create_task (input : CreateTaskRaw) : io tool_result :=
  catch
    (payload ← lift (normalizeCreateTaskInput input);
     mret (unsupportedResult host "create_task"
             "Capacities public API does not provide a documented endpoint for creating tasks."
             [("requestedTask", json_of_create payload);
              ("availableEndpoints", AVAILABLE_ENDPOINTS)]))
    (fun error => mret (errorResult "create_task" error)).

Definition update_task (input : UpdateTaskRaw) : io tool_result :=
  catch
    (payload ← lift (normalizeUpdateTaskInput input);
     mret (unsupportedResult host "update_task"
             "Capacities public API does not provide a documented endpoint for updating task fields or status."
             [("requestedUpdate", json_of_update payload);
              ("availableEndpoints", AVAILABLE_ENDPOINTS)]))
    (fun error => mret (errorResult "update_task" error)).

Definition complete_task (input : CompleteTaskRaw) : io tool_result :=
  catch
    (payload ← lift (normalizeCompleteTaskInput input);
     mret (unsupportedResult host "complete_task"
             "Capacities public API does not provide a documented endpoint for completing or uncompleting tasks."
             [("requestedAction", json_of_complete payload);
              ("availableEndpoints", AVAILABLE_ENDPOINTS)]))
    (fun error => mret (errorResult "complete_task" error)).
End MutationTools.

(** ** The registered tools *)

Inductive tool_call :=
| call_get_space_info (spaceId : option string)
| call_search_entities (input : SearchEntitiesInput)
| call_get_entity_by_id (input : GetEntityInput)
| call_list_tasks (input : ListTasksInput)
| call_create_task (input : CreateTaskRaw)
| call_update_task (input : UpdateTaskRaw)
| call_complete_task (input : CompleteTaskRaw).

Definition tool_name (c : tool_call) : string :=
  match c with
  | call_get_space_info _ => "get_space_info"
  | call_search_entities _ => "search_entities"
  | call_get_entity_by_id _ => "get_entity_by_id"
  | call_list_tasks _ => "list_tasks"
  | call_create_task _ => "create_task"
  | call_update_task _ => "update_task"
  | call_complete_task _ => "complete_task"
  end.

Definition handler (host : Host) (config : CapacitiesConfig) (c : tool_call)
  : io tool_result :=
  match c with
  | call_get_space_info spaceId => get_space_info host config spaceId
  | call_search_entities input => search_entities host config input
  | call_get_entity_by_id input => get_entity_by_id host config input
  | call_list_tasks input => list_tasks host input
  | call_create_task input => create_task host config input
  | call_update_task input => update_task host config input
  | call_complete_task input => complete_task host config input
  end.

(** One invocation: the requests it issued and what it returned, or the
    value it threw past the handler. *)
Definition invoke (host : Host) (config : CapacitiesConfig) (c : tool_call)
  : list request * result tool_result :=
  handler host config c [].

(** ** The three structured shapes of a tool result

    In the words of the specification: a success payload, an
    explicit-unsupported payload carrying [supported: false], or an error
    payload; each next to one rendered text. *)

Definition unsupported_shape (r : tool_result) : Prop :=
  assoc "supported" (structuredContent r) = Some (JBool false) /\
  assoc "ok" (structuredContent r) = None /\
  isError r = None /\
  (exists msg action,
     assoc "error" (structuredContent r)
     = Some (JObj [("code", JStr "unsupported");
                   ("message", JStr msg);
                   ("actionableMessage", JStr action)])) /\
  (exists details, assoc "details" (structuredContent r) = Some (JObj details)).

Definition error_shape (r : tool_result) : Prop :=
  assoc "ok" (structuredContent r) = Some (JBool false) /\
  assoc "supported" (structuredContent r) = None /\
  isError r = Some true /\
  (exists c msg st action,
     assoc "error" (structuredContent r)
     = Some (JObj [("code", JStr (code_name c));
                   ("message", JStr msg);
                   ("status", st);
                   ("actionableMessage", JStr action)]) /\
     (st = JNull \/ exists n, st = JNum n)).

Definition success_shape (r : tool_result) : Prop :=
  assoc "supported" (structuredContent r) = None /\
  assoc "ok" (structuredContent r) = None /\
  assoc "error" (structuredContent r) = None /\
  isError r = None.

Definition exactly_one (a b c : Prop) : Prop :=
  (a /\ ~ b /\ ~ c) \/ (~ a /\ b /\ ~ c) \/ (~ a /\ ~ b /\ c).

Definition rendered_summary (r : tool_result) : Prop :=
  exists text, content r = [mkText "text" text] /\ String.prefix "## " text = true.

(** The error code an error payload carries. *)
Definition error_code_of (r : tool_result) : option string :=
  match assoc "error" (structuredContent r) with
  | Some (JObj props) =>
      match assoc "code" props with
      | Some (JStr c) => Some c
      | _ => None
      end
  | _ => None
  end.

(** ** Sample values *)

Definition sample_space : string := "11111111-1111-4111-8111-111111111111".

Definition sample_config : CapacitiesConfig :=
  mkConfig CAPACITIES_API_BASE_URL "token" (Some sample_space).

Definition bare_config : CapacitiesConfig :=
  mkConfig CAPACITIES_API_BASE_URL "token" None.

Definition retry_after_5 : Response :=
  mkResponse 429
    (fun name => if String.eqb name "retry-after" then Some "5" else None)
    EmptyString.

Definition retry_after_and_reset : Response :=
  mkResponse 429
    (fun name => if String.eqb name "retry-after" then Some "5"
                 else if String.eqb name "ratelimit-reset" then Some "1700000000"
                 else None)
    EmptyString.

(** Pacific/Apia at the end of 2011: ten hours behind UTC until
    2011-12-30T10:00Z, which is midnight there, and fourteen hours ahead
    from then on, so that its calendar has no 30 December 2011.  A local
    time of that day is read with the offset from before the change. *)
Definition apia_2011 : Z -> bool -> Z :=
  fun t isUTC =>
    if isUTC
    then if t <? 1325239200000 then -36000000 else 50400000
    else if t <? 1325289600000 then -36000000 else 50400000.

(** A host on 2026-02-19 (UTC) whose service answers every request with
    status 200 and three lookup results of three structures. *)
Definition sample_host : Host :=
  mkHost (JsDate.fixed_offset 0) (JsDate.UTC 2026 1 19)
    (fun _ _ => Resolved (mkResponse 200 (fun _ => None) "{}"))
    (fun _ => "{}")
    (fun _ => Some {| spaces := [mkSpace sample_space "Home" None] |})
    (fun _ => Some {| structures :=
                        [mkStructure "RootPage" "Page" [("pluralName", JStr "Pages")];
                         mkStructure "DailyNote" "Daily Note" []] |})
    (fun _ => Some {| results :=
                        [mkLookupResult "e1" "RootPage" "A";
                         mkLookupResult "e2" "DailyNote" "B";
                         mkLookupResult "e3" "weird" "C"] |})
    true.

(** What the specification asks of every result of the tool [name]. *)
Definition well_formed (name : string) (r : tool_result) : Prop :=
  exactly_one (success_shape r) (unsupported_shape r) (error_shape r) /\
  rendered_summary r /\
  assoc "tool" (structuredContent r) = Some (JStr name).

(** A text filter that is absent or trims to the empty string. *)
Definition no_text (text : option string) : Prop :=
  text = None \/ exists t, text = Some t /\ JsString.trim t = EmptyString.

(** The date filters the specification refuses, on their normalised
    values: a single date next to either end of a range, one end of a
    range alone, or a range whose start is after its end in the
    lexicographic order of strings. *)
Definition date_conflict (date dateFrom dateTo : option string) : Prop :=
  (date <> None /\ (dateFrom <> None \/ dateTo <> None)) \/
  (dateFrom <> None /\ dateTo = None) \/
  (dateFrom = None /\ dateTo <> None) \/
  (exists from to, dateFrom = Some from /\ dateTo = Some to /\
                   JsString.gtb from to = true).

Definition text_required_message : string :=
  "Capacities /lookup requires a non-empty text query. Date-only or type-only search is not supported by the public API.".

Definition honored_dimensions : json :=
  JObj [("text", JBool true);
        ("type", JStr "best-effort (via structureId/title mapping)");
        ("date", JBool false);
        ("dateRange", JBool false)].

(** A thrown validation_error, and what the resolution of a space
    identifier can throw. *)
Definition validation_failure (t : thrown) : Prop :=
  exists e, t = ThrownCapacities e /\ code e = validation_error.

Definition space_failure (t : thrown) : Prop :=
  exists e, t = ThrownCapacities e /\
            (code e = config_error \/ code e = validation_error).

(** The entity a get_entity_by_id result echoes. *)
Definition requested_entity (r : tool_result) : option json :=
  match assoc "details" (structuredContent r) with
  | Some (JObj details) => assoc "requestedEntity" details
  | _ => None
  end.

(** The error code the specification expects when no valid space
    identifier resolves. *)
Definition space_error_code (winner : string) : string :=
  match winner with
  | EmptyString => "config_error"
  | _ => "validation_error"
  end.

Definition update_unsupported_message : string :=
  "Capacities public API does not provide a documented endpoint for updating task fields or status.".

(** The fields of an update_task input pass their own checks, with the
    normalised description and due date they give. *)
Definition update_fields_valid (host : Host) (input : UpdateTaskRaw)
           (description dueDate : nullable string) : Prop :=
  JsString.trim (ur_taskId input) <> EmptyString /\
  (forall v, ur_title input = Some v -> JsString.trim v <> EmptyString) /\
  normalizeNullableText (ur_description input) "description" = Ok description /\
  normalizeNullableDate host (ur_dueDate input) = Ok dueDate.

(** At least one of title, description, dueDate and status is supplied;
    null is a supplied description or due date. *)
Definition some_update_field (input : UpdateTaskRaw) : Prop :=
  ur_title input <> None \/ ur_description input <> Undefined \/
  ur_dueDate input <> Undefined \/ ur_status input <> None.

(** A structure matches a type filter, in the words of the specification:
    the filter equals its id, its title or its optional plural name, case
    apart. *)
Definition type_matches (typeFilter : string) (s : CapacitiesStructureInfo) : Prop :=
  JsString.toLowerCase (structure_id s) = JsString.toLowerCase typeFilter \/
  JsString.toLowerCase (structure_title s) = JsString.toLowerCase typeFilter \/
  (exists p, assoc "pluralName" (structure_extra s) = Some (JStr p) /\
             JsString.toLowerCase p = JsString.toLowerCase typeFilter).

(** The two notes of search_entities. *)
Definition type_note (typeFilter : string) : string :=
  "No results matched type filter `" +:+ typeFilter
  +:+ "` using structure metadata from `/space-info`.".

Definition date_note : string :=
  "Date filters are accepted for compatibility but not applied because /lookup does not return entity date fields.".

(** The test of one structure inside [resolveStructureIdsByType]. *)
Definition matches_type (typeFilter : string) (s : CapacitiesStructureInfo) : bool :=
  String.eqb (JsString.toLowerCase (structure_title s)) (JsString.toLowerCase typeFilter)
  || String.eqb (JsString.toLowerCase (structure_id s)) (JsString.toLowerCase typeFilter)
  || match getOptionalStringField s "pluralName" with
     | Some p => String.eqb (JsString.toLowerCase p) (JsString.toLowerCase typeFilter)
     | None => false
     end.

(** ** capacities-client.ts: the two save operations

    A payload is the JavaScript object the caller passes: its properties in
    their order.  [{ ...payload, spaceId: v }] keeps that order and sets
    spaceId where it is, or adds it last. *)

Fixpoint set_prop (key : string) (v : json) (props : list (string * json))
  : list (string * json) :=
  match props with
  | [] => [(key, v)]
  | (k, x) :: rest =>
      if String.eqb k key then (k, v) :: rest else (k, x) :: set_prop key v rest
  end.

(** [payload.spaceId], of type [string | undefined]. *)
Definition payload_spaceId (payload : list (string * json)) : option string :=
  match assoc "spaceId" payload with
  | Some (JStr s) => Some s
  | _ => None
  end.

Section SaveOperations.
Variable host : Host.
Variable config : CapacitiesConfig.
(** [JSON.parse] at the type [Record<string, unknown>]. *)
Variable parse_record : string -> option (list (string * json)).

Definition saveWeblink (payload : list (string * json)) : io (list (string * json)) :=
  resolvedSpaceId ← lift (resolveSpaceId (payload_spaceId payload) config);
  requestJson host POST "/save-weblink" []
              (Some (set_prop "spaceId" (JStr resolvedSpaceId) payload))
              parse_record.

Definition saveToDailyNote (payload : list (string * json))
  : io (list (string * json)) :=
  resolvedSpaceId ← lift (resolveSpaceId (payload_spaceId payload) config);
  requestJson host POST "/save-to-daily-note" []
              (Some (set_prop "spaceId" (JStr resolvedSpaceId) payload))
              parse_record.
End SaveOperations.

(** The request of each operation that is scoped to a space. *)
Definition space_info_request (space : string) : request :=
  mkRequest GET "/space-info" [("spaceid", space)] None.

Definition lookup_request (term space : string) : request :=
  mkRequest POST "/lookup" []
            (Some [("searchTerm", JStr term); ("spaceId", JStr space)]).

Definition spaces_request : request := mkRequest GET "/spaces" [] None.

(** The text of a result. *)
Definition result_text (r : tool_result) : string :=
  match content r with
  | [t] => tc_text t
  | _ => EmptyString
  end.

(** A number a structured payload carries under [key]. *)
Definition payload_number (key : string) (r : tool_result) : option Z :=
  match assoc key (structuredContent r) with
  | Some (JNum n) => Some n
  | _ => None
  end.

(** The items a structured payload carries under [key]. *)
Definition payload_items (key : string) (r : tool_result) : option (list json) :=
  match assoc key (structuredContent r) with
  | Some (JArr items) => Some items
  | _ => None
  end.

(** The day number of a calendar date, month and day from 1. *)
Definition day_number (y m d : Z) : Z := JsDate.MakeDay y (m - 1) d.

Definition empty_response (st : Z) : Response :=
  mkResponse st (fun _ => None) "   ".

Definition sample_env (token space : option string) : EnvSource :=
  fun name =>
    if String.eqb name CAPACITIES_API_TOKEN_ENV then token
    else if String.eqb name CAPACITIES_SPACE_ID_ENV then space
    else None.

(** The two ends of every message of [createHttpError]. *)
Definition status_prefix (st : Z) : string :=
  "Capacities API request failed with status " +:+ JsString.of_number st +:+ ".".

Definition response_hint (response : Response) : string :=
  if JsString.truthy (JsString.trim (resp_text response))
  then " Response: " +:+ JsString.trim (resp_text response) else EmptyString.

(** What [requestJson] throws for a response: its HTTP error, or an
    api_error that carries the status. *)
Definition response_failure (response : Response) (e : CapacitiesError) : Prop :=
  status e = Some (resp_status response) /\
  (code e = api_error \/ code e = rate_limit).

(** The trimmed value of an environment variable, empty when it is not
    set. *)
Definition env_value (env : EnvSource) (name : string) : string :=
  match env name with
  | Some raw => JsString.trim raw
  | None => EmptyString
  end.

(** The success result of search_entities, from the normalised filters,
    the results kept and the notes made before the date note. *)
Definition search_success (filters : SearchEntitiesFilters)
           (kept : list CapacitiesLookupResult) (notes : list string) : tool_result :=
  let notes :=
    if present (sf_date filters) || present (sf_dateFrom filters)
       || present (sf_dateTo filters)
    then (notes ++ [date_note])%list else notes in
  let limited := slice0 kept (sf_limit filters) in
  {| content :=
       toTextContent
         (renderSearchEntitiesMarkdown filters limited (length_number kept) notes);
     structuredContent :=
       [("tool", JStr "search_entities");
        ("query", json_of_search_filters filters);
        ("totalResultsBeforeLimit", JNum (length_number kept));
        ("returnedResults", JNum (length_number limited));
        ("unsupportedNotes", JArr (map JStr notes));
        ("results", JArr (map json_of_lookup_result limited))];
     isError := None |}.

(** The success result of get_space_info. *)
Definition space_info_success (space : string) (sp : CapacitiesSpacesResponse)
           (si : CapacitiesSpaceInfoResponse) : tool_result :=
  let selectedSpace :=
    find (fun s => String.eqb (space_id s) space) (spaces sp) in
  {| content :=
       toTextContent
         (renderSpaceInfoMarkdown space (option_map space_title selectedSpace)
                                  (length_number (spaces sp)) (structures si));
     structuredContent :=
       [("tool", JStr "get_space_info");
        ("spaceId", JStr space);
        ("spaceTitle", match selectedSpace with
                       | Some s => JStr (space_title s)
                       | None => JNull
                       end);
        ("spacesCount", JNum (length_number (spaces sp)));
        ("structures", JArr (map json_of_structure (structures si)))];
     isError := None |}.

(** The limit of a search_entities input. *)
Definition limit_of (input : SearchEntitiesInput) : Z :=
  match si_limit input with
  | Some l => l
  | None => DEFAULT_LIMIT
  end.

(** A host whose network is down: every fetch rejects with an Error. *)
Definition offline_host : Host :=
  mkHost (JsDate.fixed_offset 0) (JsDate.UTC 2026 1 19)
    (fun _ _ => Rejected (ThrownError "getaddrinfo ENOTFOUND api.capacities.io"))
    (fun _ => "{}")
    (fun _ => None) (fun _ => None) (fun _ => None)
    true.

Definition note_search (type date : option string) (limit : option Z)
  : SearchEntitiesInput :=
  mkSearchInput None (Some "note") type date None None limit.

Definition list_unsupported_message : string :=
  "Capacities public API does not provide a documented endpoint for listing tasks or filtering by task status/date.".

Definition create_unsupported_message : string :=
  "Capacities public API does not provide a documented endpoint for creating tasks.".

Definition complete_unsupported_message : string :=
  "Capacities public API does not provide a documented endpoint for completing or uncompleting tasks.".

(** The status a list_tasks call asks for. *)
Definition status_of (input : ListTasksInput) : task_status :=
  match li_status input with
  | Some s => s
  | None => status_all
  end.

(** Year, then month, then day. *)
Definition lexicographic (a b : Z * Z * Z) : comparison :=
  let '(ya, ma, da) := a in
  let '(yb, mb, db) := b in
  match ya ?= yb with
  | Eq => match ma ?= mb with
          | Eq => da ?= db
          | c => c
          end
  | c => c
  end.

(** The tools that reach the remote service. *)
Definition is_remote_tool (c : tool_call) : bool :=
  match c with
  | call_get_space_info _ | call_search_entities _ => true
  | _ => false
  end.

(** The requests that only read: GET /spaces, GET /space-info and
    POST /lookup. *)
Definition read_request (r : request) : bool :=
  match req_method r with
  | GET => String.eqb (req_path r) "/spaces" || String.eqb (req_path r) "/space-info"
  | POST => String.eqb (req_path r) "/lookup"
  end.

(** The lines of the text of an error result. *)
Definition error_lines (toolName : string) (e : CapacitiesError) : list string :=
  (["## " +:+ toolName +:+ " error";
    "- Code: `" +:+ code_name (code e) +:+ "`";
    "- Message: " +:+ message e]
     ++ match status e with
        | Some st => ["- Status: " +:+ JsString.of_number st]
        | None => []
        end
     ++ ["- Action: " +:+ actionableMessage e])%list.


(** ** The three shapes, complete

    A result is complete when its structured payload holds every member
    of its shape, in the order of the shape and nothing else, and its
    text is the summary of the same values. *)

(** The success payload of get_space_info: the space, its title or null,
    the number of spaces and the structures. *)
Definition space_info_result (r : tool_result) : Prop :=
  exists spaceId spaceTitle spacesCount structs,
    structuredContent r
    = [("tool", JStr "get_space_info");
       ("spaceId", JStr spaceId);
       ("spaceTitle", match spaceTitle with Some t => JStr t | None => JNull end);
       ("spacesCount", JNum spacesCount);
       ("structures", JArr (map json_of_structure structs))] /\
    0 <= spacesCount /\
    isError r = None /\
    content r
    = [mkText "text" (renderSpaceInfoMarkdown spaceId spaceTitle spacesCount structs)].

(** The success payload of search_entities: the query, the two counts,
    the notes and the results, as many as the second count says. *)
Definition search_result (r : tool_result) : Prop :=
  exists filters found total notes,
    structuredContent r
    = [("tool", JStr "search_entities");
       ("query", json_of_search_filters filters);
       ("totalResultsBeforeLimit", JNum total);
       ("returnedResults", JNum (length_number found));
       ("unsupportedNotes", JArr (map JStr notes));
       ("results", JArr (map json_of_lookup_result found))] /\
    length_number found <= total /\
    isError r = None /\
    content r
    = [mkText "text" (renderSearchEntitiesMarkdown filters found total notes)].

(** Only get_space_info and search_entities have a success payload. *)
Definition complete_success (name : string) (r : tool_result) : Prop :=
  (name = "get_space_info" /\ space_info_result r) \/
  (name = "search_entities" /\ search_result r).

Definition complete_unsupported (host : Host) (name : string) (r : tool_result)
  : Prop :=
  exists msg action details,
    structuredContent r
    = [("tool", JStr name);
       ("supported", JBool false);
       ("error", JObj [("code", JStr "unsupported");
                       ("message", JStr msg);
                       ("actionableMessage", JStr action)]);
       ("details", JObj details)] /\
    isError r = None /\
    content r
    = [mkText "text"
         (JsString.join nl
            ["## " +:+ name;
             EmptyString;
             "- Supported: **no**";
             "- Error code: `unsupported`";
             "- Message: " +:+ msg;
             "- Action: " +:+ action;
             EmptyString;
             "### Details";
             "```json";
             stringify host (JObj details);
             "```"])].

Definition complete_error (name : string) (r : tool_result) : Prop :=
  exists e : CapacitiesError,
    structuredContent r
    = [("tool", JStr name);
       ("ok", JBool false);
       ("error", JObj [("code", JStr (code_name (code e)));
                       ("message", JStr (message e));
                       ("status", match status e with
                                  | Some st => JNum st
                                  | None => JNull
                                  end);
                       ("actionableMessage", JStr (actionableMessage e))])] /\
    isError r = Some true /\
    content r = [mkText "text" (JsString.join nl (error_lines name e))].

(** Exactly one shape is there, and all of it. *)
Definition complete (host : Host) (name : string) (r : tool_result) : Prop :=
  exactly_one (complete_success name r)
              (complete_unsupported host name r)
              (complete_error name r).

(** What the specification asks of every result of the tool [name], in
    full. *)
Definition complete_result (host : Host) (name : string) (r : tool_result) : Prop :=
  well_formed name r /\ complete host name r.

(** * Properties *)

(** ** Calendar arithmetic *)

Section Calendar.
Import JsDate.

Lemma DayFromYear_next y :
  DayFromYear (y + 1) = DayFromYear y + 365 + leap_day y.
Proof.
  unfold DayFromYear, leap_day, InLeapYear.
  destruct (y mod 4 =? 0) eqn:E4; destruct (y mod 100 =? 0) eqn:E100;
    destruct (y mod 400 =? 0) eqn:E400; simpl;
    rewrite ?Z.eqb_eq, ?Z.eqb_neq in *;
    Z.div_mod_to_equations; lia.
Qed.

Lemma DayFromYear_mono a b : a <= b -> DayFromYear a <= DayFromYear b.
Proof. unfold DayFromYear. intros. Z.div_mod_to_equations. lia. Qed.

Lemma DayFromYear_lt a b : a < b -> DayFromYear a < DayFromYear b.
Proof. unfold DayFromYear. intros. Z.div_mod_to_equations. lia. Qed.

Lemma YearFromDay_spec d :
  DayFromYear (YearFromDay d) <= d < DayFromYear (YearFromDay d + 1).
Proof.
  unfold YearFromDay.
  set (e := 1970 + 400 * d / 146097).
  assert (He : DayFromYear (e - 1) <= d < DayFromYear (e + 2)).
  { subst e. unfold DayFromYear. Z.div_mod_to_equations. lia. }
  destruct (d <? DayFromYear e) eqn:E1.
  - apply Z.ltb_lt in E1. replace (e - 1 + 1) with e by lia. lia.
  - apply Z.ltb_ge in E1.
    destruct (DayFromYear (e + 1) <=? d) eqn:E2.
    + apply Z.leb_le in E2. replace (e + 1 + 1) with (e + 2) by lia. lia.
    + apply Z.leb_gt in E2. lia.
Qed.

Lemma YearFromDay_unique y d :
  DayFromYear y <= d < DayFromYear (y + 1) -> YearFromDay d = y.
Proof.
  intros H. pose proof (YearFromDay_spec d) as S.
  destruct (Z.lt_trichotomy (YearFromDay d) y) as [L | [E | G]]; [|exact E|].
  - assert (DayFromYear (YearFromDay d + 1) <= DayFromYear y)
      by (apply DayFromYear_mono; lia). lia.
  - assert (DayFromYear (y + 1) <= DayFromYear (YearFromDay d))
      by (apply DayFromYear_mono; lia). lia.
Qed.
End Calendar.

Section Civil.
Import JsDate.

Lemma leap_day_cases y : leap_day y = 0 \/ leap_day y = 1.
Proof. unfold leap_day. destruct (InLeapYear y); auto. Qed.

Lemma day_within_year d :
  0 <= d - DayFromYear (YearFromDay d) < 365 + leap_day (YearFromDay d).
Proof.
  pose proof (YearFromDay_spec d) as S.
  rewrite DayFromYear_next in S. lia.
Qed.

Lemma month_cases m : 0 <= m <= 11 ->
  m = 0 \/ m = 1 \/ m = 2 \/ m = 3 \/ m = 4 \/ m = 5 \/
  m = 6 \/ m = 7 \/ m = 8 \/ m = 9 \/ m = 10 \/ m = 11.
Proof. lia. Qed.

Ltac each_month H :=
  apply month_cases in H;
  repeat (destruct H as [H | H]; [subst | ]); [ .. | subst].

(** Every day of a year falls on a real date of that year. *)
Lemma month_of_day_real y w l :
  l = leap_day y -> 0 <= w < 365 + l ->
  real_calendar_date y (month_of_day w l + 1)
                     (w - month_start (month_of_day w l) l + 1).
Proof.
  intros -> Hw. unfold real_calendar_date, days_in_month, month_of_day.
  destruct (leap_day_cases y) as [L | L]; rewrite L in *;
    repeat (match goal with
            | |- context [?a <? ?b] =>
                let E := fresh "E" in
                destruct (a <? b) eqn:E;
                [apply Z.ltb_lt in E | apply Z.ltb_ge in E]
            end; try (simpl; lia)).
Qed.

Lemma month_start_nonneg m l : 0 <= m <= 11 -> 0 <= l -> 0 <= month_start m l.
Proof. intros H Hl. each_month H; simpl; lia. Qed.

(** A real date is the day its components name, and that day is in the
    year and the month of the date. *)
Lemma MakeDay_real y m d :
  real_calendar_date y m d ->
  let n := MakeDay y (m - 1) d in
  YearFromDay n = y /\
  month_of_day (n - DayFromYear y) (leap_day y) = m - 1 /\
  n - DayFromYear y - month_start (m - 1) (leap_day y) + 1 = d.
Proof.
  intros [Hm Hd] n. subst n. unfold MakeDay.
  assert (H : 0 <= m - 1 <= 11) by lia.
  replace ((m - 1) / 12) with 0 by (Z.div_mod_to_equations; lia).
  replace ((m - 1) mod 12) with (m - 1) by (Z.div_mod_to_equations; lia).
  rewrite Z.add_0_r.
  unfold days_in_month in Hd.
  destruct (leap_day_cases y) as [L | L]; rewrite L in *;
    (split; [apply YearFromDay_unique; rewrite DayFromYear_next, L | split; [|lia]]);
    assert (Hm' : 0 <= m - 1 <= 11) by lia;
    each_month Hm';
    match goal with
    | E : m - 1 = ?k |- _ =>
        assert (m = k + 1) by lia; subst m; simpl in *;
        unfold month_of_day; simpl;
        repeat (match goal with
                | |- context [?a <? ?b] =>
                    let E := fresh "E" in
                    destruct (a <? b) eqn:E;
                    [apply Z.ltb_lt in E | apply Z.ltb_ge in E]
                end; try lia)
    | _ => idtac
    end; try lia.
Qed.
End Civil.


Section RoundTrip.
Import JsDate.

Lemma Day_MakeDate n : Day (MakeDate n 0) = n.
Proof. unfold Day, MakeDate, msPerDay. rewrite Z.add_0_r. apply Z.div_mul. lia. Qed.

Lemma UTC_Some y m d t :
  UTC y m d = Some t -> t = MakeDate (MakeDay (utc_year y) m d) 0.
Proof.
  unfold UTC, TimeClip.
  destruct (Z.abs _ <=? _); congruence.
Qed.

Lemma differs_false a b : differs a b = false -> a = Some b.
Proof.
  destruct a as [x|]; cbn [differs]; [|discriminate].
  intros H. apply negb_false_iff, Z.eqb_eq in H. congruence.
Qed.

(** What the test of the components means: the day they name. *)
Lemma round_trips_Some y m d :
  round_trips y m d = true ->
  exists n, n = MakeDay (utc_year y) (m - 1) d /\
            YearFromDay n = y /\
            month_of_day (n - DayFromYear y) (leap_day y) = m - 1 /\
            n - DayFromYear y - month_start (m - 1) (leap_day y) + 1 = d.
Proof.
  unfold round_trips. intros H.
  apply negb_true_iff in H. apply orb_false_iff in H as [H H3].
  apply orb_false_iff in H as [H1 H2].
  apply differs_false in H1, H2, H3.
  destruct (UTC y (m - 1) d) as [t|] eqn:U; [|discriminate].
  apply UTC_Some in U.
  cbn [getUTCFullYear getUTCMonth getUTCDate option_map] in H1, H2, H3.
  injection H1 as H1. injection H2 as H2. injection H3 as H3.
  unfold DateFromTime, MonthFromTime, DayWithinYear, YearFromTime in *.
  subst t. rewrite Day_MakeDate in *.
  exists (MakeDay (utc_year y) (m - 1) d).
  rewrite H1 in *. split; [reflexivity|]. split; [reflexivity|].
  split; [lia|].
  replace (m - 1) with
    (month_of_day (MakeDay (utc_year y) (m - 1) d - DayFromYear y) (leap_day y))
    at 2 by lia.
  exact H3.
Qed.

Lemma round_trips_real y m d :
  round_trips y m d = true -> real_calendar_date y m d.
Proof.
  intros H. destruct (round_trips_Some _ _ _ H) as (n & _ & Hy & Hm & Hd).
  pose proof (day_within_year n) as W. rewrite Hy in W.
  pose proof (month_of_day_real y (n - DayFromYear y) _ eq_refl W) as R.
  rewrite Hm in R. replace (m - 1 + 1) with m in R by lia.
  rewrite Hd in R. exact R.
Qed.

Lemma TimeClip_in_range t :
  - 8640000000000000 <= t <= 8640000000000000 -> TimeClip t = Some t.
Proof.
  intros H. unfold TimeClip.
  destruct (Z.abs t <=? 8640000000000000) eqn:E; [reflexivity|].
  apply Z.leb_gt in E. lia.
Qed.

Lemma DayFromYear_100 : DayFromYear 100 = -683003.
Proof. reflexivity. Qed.

Lemma DayFromYear_10000 : DayFromYear 10000 = 2932897.
Proof. reflexivity. Qed.

Lemma utc_year_late y : 100 <= y -> utc_year y = y.
Proof.
  intros H. unfold utc_year.
  destruct (0 <=? y); [|reflexivity].
  destruct (y <=? 99) eqn:E; [|reflexivity].
  apply Z.leb_le in E. lia.
Qed.

Lemma utc_year_early y : 0 <= y <= 99 -> utc_year y = 1900 + y.
Proof.
  intros H. unfold utc_year.
  destruct (0 <=? y) eqn:E1; [|apply Z.leb_gt in E1; lia].
  destruct (y <=? 99) eqn:E2; [reflexivity|apply Z.leb_gt in E2; lia].
Qed.

Lemma real_round_trips y m d :
  100 <= y <= 9999 -> real_calendar_date y m d -> round_trips y m d = true.
Proof.
  intros Hy R. pose proof (MakeDay_real y m d R) as (E1 & E2 & E3).
  unfold round_trips, UTC. rewrite utc_year_late by lia.
  assert (B : DayFromYear y <= MakeDay y (m - 1) d < DayFromYear (y + 1)).
  { pose proof (YearFromDay_spec (MakeDay y (m - 1) d)) as S.
    rewrite E1 in S. exact S. }
  assert (B1 : DayFromYear 100 <= DayFromYear y) by (apply DayFromYear_mono; lia).
  assert (B2 : DayFromYear (y + 1) <= DayFromYear 10000)
    by (apply DayFromYear_mono; lia).
  rewrite DayFromYear_100 in B1. rewrite DayFromYear_10000 in B2.
  rewrite TimeClip_in_range by (unfold MakeDate, msPerDay; lia).
  cbn [getUTCFullYear getUTCMonth getUTCDate option_map].
  unfold DateFromTime, MonthFromTime, DayWithinYear, YearFromTime.
  rewrite Day_MakeDate, E1, E2.
  cbn [differs].
  rewrite Z.eqb_refl.
  replace (1 + (m - 1) =? m) with true by (symmetry; apply Z.eqb_eq; lia).
  replace (_ =? d) with true by (symmetry; apply Z.eqb_eq; lia).
  reflexivity.
Qed.

(** [Date.UTC] reads a year from 0 to 99 as a year of the twentieth
    century, so no date of those years passes the test. *)
Lemma round_trips_first_century y m d :
  0 <= y <= 99 -> round_trips y m d = false.
Proof.
  intros Hy. destruct (round_trips y m d) eqn:E; [|reflexivity].
  exfalso.
  pose proof (round_trips_real _ _ _ E) as [Rm Rd].
  destruct (round_trips_Some _ _ _ E) as (n & Hn & Hyr & _ & _).
  rewrite utc_year_early in Hn by lia.
  unfold MakeDay in Hn.
  assert (Hm : 0 <= m - 1 <= 11) by lia.
  replace ((m - 1) / 12) with 0 in Hn by (Z.div_mod_to_equations; lia).
  replace ((m - 1) mod 12) with (m - 1) in Hn by (Z.div_mod_to_equations; lia).
  rewrite Z.add_0_r in Hn.
  pose proof (month_start_nonneg (m - 1) (leap_day (1900 + y)) Hm) as P.
  assert (DayFromYear (y + 1) <= DayFromYear (1900 + y))
    by (apply DayFromYear_mono; lia).
  pose proof (YearFromDay_spec n) as S. rewrite Hyr in S.
  destruct (leap_day_cases (1900 + y)); lia.
Qed.
End RoundTrip.

(** ** Strings *)

Section Strings.
Import JsString.

Lemma ascii_all (P : ascii -> bool) :
  forallb P (map (fun n => ascii_of_nat n) (seq 0 256)) = true ->
  forall c, P c = true.
Proof.
  intros H c. rewrite forallb_forall in H. apply H.
  apply in_map_iff. exists (nat_of_ascii c). split.
  - apply ascii_nat_embedding.
  - apply in_seq. pose proof (nat_ascii_bounded c). lia.
Qed.

Lemma digit_not_space c : is_digit c = true -> is_space c = false.
Proof.
  revert c.
  assert (H : forall c, implb (is_digit c) (negb (is_space c)) = true)
    by (apply ascii_all; vm_compute; reflexivity).
  intros c Hc. specialize (H c). rewrite Hc in H. simpl in H.
  apply negb_true_iff in H. exact H.
Qed.

Lemma digit_lower c : is_digit c = true -> lower_char c = c.
Proof.
  revert c.
  assert (H : forall c, implb (is_digit c) (Ascii.eqb (lower_char c) c) = true)
    by (apply ascii_all; vm_compute; reflexivity).
  intros c Hc. specialize (H c). rewrite Hc in H. simpl in H.
  apply Ascii.eqb_eq in H. exact H.
Qed.

Lemma digit_not_y c : is_digit c = true -> Ascii.eqb c "y" = false.
Proof.
  revert c.
  assert (H : forall c, implb (is_digit c) (negb (Ascii.eqb c "y")) = true)
    by (apply ascii_all; vm_compute; reflexivity).
  intros c Hc. specialize (H c). rewrite Hc in H. simpl in H.
  apply negb_true_iff in H. exact H.
Qed.

Lemma trimEnd_cons c s :
  is_space c = false -> trimEnd (String c s) = String c (trimEnd s).
Proof.
  intros H. cbn [trimEnd]. rewrite H. destruct (trimEnd s); reflexivity.
Qed.

Lemma trimEnd_idem s : trimEnd (trimEnd s) = trimEnd s.
Proof.
  induction s as [|c s IH]; [reflexivity|].
  cbn [trimEnd]. destruct (trimEnd s) as [|c' r] eqn:E.
  - destruct (is_space c) eqn:Ec; [reflexivity|].
    cbn [trimEnd]. rewrite Ec. reflexivity.
  - cbn [trimEnd]. cbn [trimEnd] in IH.
    destruct (trimEnd r) as [|c2 r2] eqn:Er.
    + destruct (is_space c') eqn:Ec'; [discriminate|]. exact (f_equal _ IH).
    + rewrite IH. reflexivity.
Qed.

Lemma trimStart_head s :
  trimStart s = EmptyString \/
  exists c r, trimStart s = String c r /\ is_space c = false.
Proof.
  induction s as [|c s IH]; [left; reflexivity|].
  cbn [trimStart]. destruct (is_space c) eqn:E; [exact IH|].
  right. exists c, s. split; [reflexivity | exact E].
Qed.

Lemma trim_idem s : trim (trim s) = trim s.
Proof.
  unfold trim. destruct (trimStart_head s) as [E | (c & r & E & Hc)]; rewrite E.
  - reflexivity.
  - rewrite (trimEnd_cons c r Hc). cbn [trimStart]. rewrite Hc.
    rewrite <- (trimEnd_cons c r Hc). apply trimEnd_idem.
Qed.

Lemma trimEnd_no_space s : no_space s = true -> trimEnd s = s.
Proof.
  induction s as [|c s IH]; [reflexivity|].
  cbn [no_space]. intros H. apply andb_true_iff in H as [Hc Hs].
  apply negb_true_iff in Hc. rewrite (trimEnd_cons c s Hc), (IH Hs). reflexivity.
Qed.

Lemma trim_no_space s : no_space s = true -> trim s = s.
Proof.
  intros H. unfold trim. destruct s as [|c s]; [reflexivity|].
  cbn [trimStart]. pose proof H as H'. cbn [no_space] in H'.
  apply andb_true_iff in H' as [Hc _]. apply negb_true_iff in Hc.
  rewrite Hc. apply trimEnd_no_space; exact H.
Qed.

Lemma prefix_app t s : String.prefix t (t +:+ s) = true.
Proof.
  induction t as [|c t IH]; [destruct s; reflexivity|].
  simpl. destruct (ascii_dec c c); [exact IH | contradiction].
Qed.

Lemma prefix_app_l t s a :
  String.prefix t s = true -> String.prefix t (s +:+ a) = true.
Proof.
  revert s. induction t as [|d t IH]; intros s H.
  - destruct (s +:+ a); reflexivity.
  - destruct s as [|c s]; [discriminate|].
    simpl in H. simpl. destruct (ascii_dec d c); [|discriminate].
    apply IH. exact H.
Qed.

Lemma includes_prefix s t : String.prefix t s = true -> includes s t = true.
Proof. intros H. destruct s; cbn [includes]; rewrite H; reflexivity. Qed.

Lemma includes_app_r a s t : includes s t = true -> includes (a +:+ s) t = true.
Proof.
  intros H. induction a as [|c a IH]; [exact H|].
  simpl. rewrite IH. apply orb_true_r.
Qed.

Lemma includes_app_l s a t : includes s t = true -> includes (s +:+ a) t = true.
Proof.
  induction s as [|c s IH]; intros H.
  - apply includes_prefix. apply (prefix_app_l t EmptyString a).
    cbn [includes] in H. rewrite orb_false_r in H. exact H.
  - cbn [includes] in H. apply orb_true_iff in H as [H | H].
    + apply includes_prefix, prefix_app_l, H.
    + simpl. rewrite (IH H). apply orb_true_r.
Qed.
End Strings.

(** ** Printing and reading decimal components *)

Section Digits.
Import JsString.

Lemma Z_range_all (P : Z -> bool) lo n :
  forallb P (map (fun k => lo + Z.of_nat k) (seq 0 (Z.to_nat n))) = true ->
  forall z, lo <= z < lo + n -> P z = true.
Proof.
  intros H z Hz. rewrite forallb_forall in H. apply H.
  apply in_map_iff. exists (Z.to_nat (z - lo)). split; [lia|].
  apply in_seq. lia.
Qed.

Lemma year_prints y :
  1000 <= y <= 9999 -> prints_as_digits 4 (of_number y) y = true.
Proof.
  intros H.
  apply (Z_range_all (fun y => prints_as_digits 4 (of_number y) y) 1000 9000);
    [vm_compute; reflexivity | lia].
Qed.

Lemma two_prints n :
  0 <= n <= 99 -> prints_as_digits 2 (padStart 2 "0" (of_number n)) n = true.
Proof.
  intros H.
  apply (Z_range_all
           (fun n => prints_as_digits 2 (padStart 2 "0" (of_number n)) n) 0 100);
    [vm_compute; reflexivity | lia].
Qed.

Lemma app_cons c s r : String c s +:+ r = String c (s +:+ r).
Proof. reflexivity. Qed.

Lemma app_empty_r s : s +:+ EmptyString = s.
Proof.
  induction s as [|c s IH]; [reflexivity|].
  rewrite app_cons, IH. reflexivity.
Qed.

Lemma class_digit c : Regex.class_match false Regex.digit c = is_digit c.
Proof.
  unfold Regex.class_match, Regex.in_class, Regex.digit, is_digit.
  cbn [existsb fst snd]. apply orb_false_r.
Qed.

Lemma take_digits n s :
  prints_as_digits n s (Number_of_digits s) = true ->
  forall r, Regex.take false Regex.digit n (s +:+ r) = Some (s, r).
Proof.
  unfold prints_as_digits. intros H r.
  apply andb_true_iff in H as [H _]. apply andb_true_iff in H as [Hl Hd].
  apply Nat.eqb_eq in Hl. revert n Hl Hd.
  induction s as [|c s IH]; intros n Hl Hd.
  - simpl in Hl. subst n. reflexivity.
  - simpl in Hl. subst n. cbn [list_ascii_of_string forallb] in Hd.
    apply andb_true_iff in Hd as [Hc Hd].
    rewrite app_cons. cbn [Regex.take]. rewrite class_digit, Hc.
    rewrite (IH _ eq_refl Hd). reflexivity.
Qed.

Lemma prints_number n s z :
  prints_as_digits n s z = true ->
  prints_as_digits n s (Number_of_digits s) = true /\ Number_of_digits s = z.
Proof.
  unfold prints_as_digits. intros H.
  apply andb_true_iff in H as [H Hz]. apply Z.eqb_eq in Hz.
  rewrite H, Z.eqb_refl. auto.
Qed.

Lemma prints_no_space n s z : prints_as_digits n s z = true -> no_space s = true.
Proof.
  unfold prints_as_digits. intros H.
  apply andb_true_iff in H as [H _]. apply andb_true_iff in H as [_ Hd].
  induction s as [|c s IH]; [reflexivity|].
  cbn [list_ascii_of_string forallb] in Hd. apply andb_true_iff in Hd as [Hc Hd].
  cbn [no_space]. rewrite (digit_not_space c Hc), (IH Hd). reflexivity.
Qed.

Lemma no_space_app a b : no_space a = true -> no_space b = true -> no_space (a +:+ b) = true.
Proof.
  intros Ha Hb. induction a as [|c a IH]; [exact Hb|].
  cbn [no_space] in Ha. apply andb_true_iff in Ha as [Hc Ha].
  rewrite app_cons. cbn [no_space]. rewrite Hc, (IH Ha). reflexivity.
Qed.

(** The pattern reads a printed date back into its components. *)
Lemma parse_iso_printed sy sm sd y m d :
  prints_as_digits 4 sy y = true ->
  prints_as_digits 2 sm m = true ->
  prints_as_digits 2 sd d = true ->
  parse_iso (sy +:+ "-" +:+ sm +:+ "-" +:+ sd) = Some (y, m, d).
Proof.
  intros Hy Hm Hd.
  apply prints_number in Hy as [Hy Ey], Hm as [Hm Em], Hd as [Hd Ed].
  assert (Hh : forall r, Regex.take false Regex.hyphen 1 (String "-" r)
                         = Some (String "-" EmptyString, r)) by reflexivity.
  unfold parse_iso, ABSOLUTE_DATE_PATTERN. cbn [Regex.exec].
  rewrite (take_digits 4 sy Hy). cbv beta iota.
  change ("-" +:+ sm +:+ "-" +:+ sd) with (String "-" (sm +:+ "-" +:+ sd)).
  rewrite Hh. cbv beta iota.
  rewrite (take_digits 2 sm Hm). cbv beta iota.
  change ("-" +:+ sd) with (String "-" sd).
  rewrite Hh. cbv beta iota.
  rewrite <- (app_empty_r sd) at 1.
  rewrite (take_digits 2 sd Hd).
  cbn [option_map]. rewrite Ey, Em, Ed. reflexivity.
Qed.
End Digits.

Section ReadBack.
Import JsString.

Lemma number_acc l acc :
  fold_left digit_step l acc
  = acc * 10 ^ Z.of_nat (List.length l) + fold_left digit_step l 0.
Proof.
  revert acc. induction l as [|c l IH]; intros acc.
  - cbn [fold_left List.length]. change (10 ^ Z.of_nat 0) with 1. lia.
  - cbn [fold_left List.length]. rewrite Nat2Z.inj_succ, Z.pow_succ_r by lia.
    rewrite (IH (digit_step acc c)), (IH (digit_step 0 c)).
    unfold digit_step. lia.
Qed.

Lemma digits_bound l :
  forallb is_digit l = true ->
  0 <= fold_left digit_step l 0 < 10 ^ Z.of_nat (List.length l).
Proof.
  induction l as [|c l IH]; intros H.
  - cbn [fold_left List.length]. change (10 ^ Z.of_nat 0) with 1. lia.
  - cbn [forallb] in H. apply andb_true_iff in H as [Hc Hl].
    specialize (IH Hl).
    cbn [fold_left List.length]. rewrite Nat2Z.inj_succ, Z.pow_succ_r by lia.
    rewrite number_acc.
    unfold is_digit, between in Hc. apply andb_true_iff in Hc as [H1 H2].
    apply Z.leb_le in H1, H2.
    assert (HP : 0 < 10 ^ Z.of_nat (List.length l)) by (apply Z.pow_pos_nonneg; lia).
    replace (digit_step 0 c) with (code_unit c - 48) by (unfold digit_step; lia).
    revert IH HP H1 H2.
    generalize (fold_left digit_step l 0), (10 ^ Z.of_nat (List.length l)), (code_unit c).
    intros X P k IH HP H1 H2. nia.
Qed.

Lemma take_inv n s m r :
  Regex.take false Regex.digit n s = Some (m, r) ->
  List.length (list_ascii_of_string m) = n /\
  forallb is_digit (list_ascii_of_string m) = true.
Proof.
  revert s m r. induction n as [|n IH]; intros s m r H.
  - cbn [Regex.take] in H. injection H as <- _. split; reflexivity.
  - cbn [Regex.take] in H. destruct s as [|c s]; [discriminate|].
    rewrite class_digit in H. destruct (is_digit c) eqn:Ec; [|discriminate].
    destruct (Regex.take false Regex.digit n s) as [[m' r']|] eqn:T; [|discriminate].
    injection H as <- _. destruct (IH _ _ _ T) as [Hl Hd].
    cbn [list_ascii_of_string List.length forallb]. rewrite Hl, Ec, Hd.
    split; reflexivity.
Qed.

Lemma take_bound n s m r :
  Regex.take false Regex.digit n s = Some (m, r) ->
  0 <= Number_of_digits m < 10 ^ Z.of_nat n.
Proof.
  intros H. destruct (take_inv _ _ _ _ H) as [Hl Hd].
  rewrite <- Hl. apply (digits_bound _ Hd).
Qed.

Lemma parse_iso_bounds s y m d :
  parse_iso s = Some (y, m, d) ->
  0 <= y <= 9999 /\ 0 <= m <= 99 /\ 0 <= d <= 99.
Proof.
  unfold parse_iso, ABSOLUTE_DATE_PATTERN. cbn [Regex.exec]. intros H.
  destruct (Regex.take false Regex.digit 4 s) as [[m1 r1]|] eqn:T1; [|discriminate].
  destruct (Regex.take false Regex.hyphen 1 r1) as [[h1 r2]|]; [|discriminate].
  destruct (Regex.take false Regex.digit 2 r2) as [[m2 r3]|] eqn:T2; [|discriminate].
  destruct (Regex.take false Regex.hyphen 1 r3) as [[h2 r4]|]; [|discriminate].
  destruct (Regex.take false Regex.digit 2 r4) as [[m3 r5]|] eqn:T3; [|discriminate].
  destruct r5; [|discriminate].
  cbn [option_map] in H. injection H as <- <- <-.
  apply take_bound in T1, T2, T3.
  change (10 ^ Z.of_nat 4) with 10000 in T1.
  change (10 ^ Z.of_nat 2) with 100 in T2, T3. lia.
Qed.

(** The two ways [normalizeDateInput] can leave its absolute branch. *)
Lemma exec_parse_iso s :
  match Regex.exec false ABSOLUTE_DATE_PATTERN s with
  | Some [m1; m2; m3] =>
      parse_iso s = Some (Number_of_digits m1, Number_of_digits m2, Number_of_digits m3)
  | _ => parse_iso s = None
  end.
Proof.
  unfold parse_iso.
  destruct (Regex.exec false ABSOLUTE_DATE_PATTERN s) as [[|m1 [|m2 [|m3 [|? ?]]]]|];
    reflexivity.
Qed.
End ReadBack.

(** ** date.ts: normalizeDateInput *)

Section NormalizeDate.
Import JsString JsDate.
Variable tza : Z -> bool -> Z.

Lemma month_of_day_range w l : 0 <= month_of_day w l <= 11.
Proof.
  unfold month_of_day.
  repeat (match goal with
          | |- context [?a <? ?b] => destruct (a <? b)
          end; try lia).
Qed.

Lemma split_time t : t = Day t * msPerDay + TimeWithinDay t.
Proof. clear tza. unfold Day, TimeWithinDay, msPerDay. Z.div_mod_to_equations. lia. Qed.

(** The local time that [setDate(getDate() - 1)] asks for is the local
    time of the Date less one day. *)
Lemma yesterday_local lt :
  MakeDate (MakeDay (YearFromTime lt) (MonthFromTime lt) (DateFromTime lt - 1))
           (TimeWithinDay lt)
  = lt - msPerDay.
Proof.
  clear tza.
  unfold DateFromTime, MonthFromTime, DayWithinYear, YearFromTime, MakeDay, MakeDate.
  set (y := YearFromDay (Day lt)).
  pose proof (month_of_day_range (Day lt - DayFromYear y) (leap_day y)) as Hm.
  set (mo := month_of_day (Day lt - DayFromYear y) (leap_day y)) in *.
  replace (mo / 12) with 0 by (Z.div_mod_to_equations; lia).
  replace (mo mod 12) with mo by (Z.div_mod_to_equations; lia).
  rewrite Z.add_0_r.
  pose proof (split_time lt) as S. lia.
Qed.

(** [setDate(getDate() - 1)] stores the time at which the host's zone
    reads that local time. *)
Lemma setDate_yesterday t :
  setDate tza (Some t) (option_map (fun d => d - 1) (getDate tza (Some t)))
  = TimeClip (UTCTime tza (LocalTime tza t - msPerDay)).
Proof.
  cbn [setDate getDate option_map]. rewrite yesterday_local. reflexivity.
Qed.

Lemma Day_yesterday lt :
  Day (lt - msPerDay) = Day lt - 1 /\
  TimeWithinDay (lt - msPerDay) = TimeWithinDay lt.
Proof. clear tza. unfold Day, TimeWithinDay, msPerDay. Z.div_mod_to_equations. lia. Qed.

Lemma TimeClip_out_of_range t : ~ in_time_range t -> TimeClip t = None.
Proof.
  unfold in_time_range, TimeClip. intros H.
  destruct (Z.abs t <=? 8640000000000000) eqn:E; [|reflexivity].
  apply Z.leb_le in E. lia.
Qed.

Lemma local_date_real t :
  real_calendar_date (YearFromTime t) (1 + MonthFromTime t) (DateFromTime t).
Proof.
  unfold DateFromTime, MonthFromTime, DayWithinYear, YearFromTime.
  rewrite Z.add_comm. apply month_of_day_real; [reflexivity|].
  apply day_within_year.
Qed.

Lemma days_in_month_max y m : days_in_month y m <= 31.
Proof.
  unfold days_in_month.
  destruct (leap_day_cases y) as [L | L]; rewrite L;
    destruct (m =? 2); destruct ((m =? 4) || (m =? 6) || (m =? 9) || (m =? 11)); lia.
Qed.

(** A Date of a four-digit year prints as YYYY-MM-DD, from its local
    year, month and day. *)
Lemma toIsoLocalDate_printed p :
  1000 <= YearFromTime (LocalTime tza p) <= 9999 ->
  exists sy sm sd,
    toIsoLocalDate tza (Some p) = sy +:+ "-" +:+ sm +:+ "-" +:+ sd /\
    prints_as_digits 4 sy (YearFromTime (LocalTime tza p)) = true /\
    prints_as_digits 2 sm (1 + MonthFromTime (LocalTime tza p)) = true /\
    prints_as_digits 2 sd (DateFromTime (LocalTime tza p)) = true.
Proof.
  intros Hy. pose proof (local_date_real (LocalTime tza p)) as [Rm Rd].
  pose proof (days_in_month_max (YearFromTime (LocalTime tza p))
                                (1 + MonthFromTime (LocalTime tza p))).
  unfold toIsoLocalDate. cbn [getFullYear getMonth getDate option_map show].
  do 3 eexists. split; [reflexivity|].
  split; [apply year_prints; lia|].
  split; apply two_prints; lia.
Qed.

Lemma printed_no_space sy sm sd y m d :
  prints_as_digits 4 sy y = true ->
  prints_as_digits 2 sm m = true ->
  prints_as_digits 2 sd d = true ->
  no_space (sy +:+ "-" +:+ sm +:+ "-" +:+ sd) = true.
Proof.
  intros Hy Hm Hd.
  apply prints_no_space in Hy, Hm, Hd.
  repeat (apply no_space_app; [assumption || reflexivity|]). exact Hd.
Qed.

Lemma printed_not_yesterday sy r y :
  prints_as_digits 4 sy y = true ->
  String.eqb (toLowerCase (sy +:+ r)) "yesterday" = false.
Proof.
  unfold prints_as_digits. intros H.
  apply andb_true_iff in H as [H _]. apply andb_true_iff in H as [Hl Hd].
  destruct sy as [|a sy]; [discriminate|].
  cbn [list_ascii_of_string forallb] in Hd. apply andb_true_iff in Hd as [Ha _].
  rewrite app_cons. cbn [toLowerCase]. rewrite (digit_lower a Ha).
  cbn [String.eqb]. rewrite (digit_not_y a Ha). reflexivity.
Qed.

(** The absolute branch, by the components of the trimmed input. *)
Lemma normalize_absolute input now y m d :
  String.eqb (toLowerCase (trim input)) "yesterday" = false ->
  parse_iso (trim input) = Some (y, m, d) ->
  normalizeDateInput tza input now =
    if round_trips y m d then Ok (trim input)
    else throw (createValidationError
                  ("Invalid date " +:+ quoted input +:+
                   ". Use a real calendar date in YYYY-MM-DD format.")).
Proof.
  intros Hn Hp. unfold normalizeDateInput. rewrite Hn.
  pose proof (exec_parse_iso (trim input)) as E.
  destruct (Regex.exec false ABSOLUTE_DATE_PATTERN (trim input))
    as [[|m1 [|m2 [|m3 [|? ?]]]]|]; try congruence.
  rewrite Hp in E. injection E as -> -> ->.
  unfold round_trips.
  destruct (differs _ _ || differs _ _ || differs _ _); reflexivity.
Qed.

Lemma normalize_no_match input now :
  String.eqb (toLowerCase (trim input)) "yesterday" = false ->
  parse_iso (trim input) = None ->
  normalizeDateInput tza input now =
    throw (createValidationError
             ("Invalid date " +:+ quoted input +:+
              ". Expected YYYY-MM-DD or relative value " +:+
              quoted "yesterday" +:+ ".")).
Proof.
  intros Hn Hp. unfold normalizeDateInput. rewrite Hn.
  pose proof (exec_parse_iso (trim input)) as E.
  destruct (Regex.exec false ABSOLUTE_DATE_PATTERN (trim input))
    as [[|m1 [|m2 [|m3 [|? ?]]]]|]; try congruence; reflexivity.
Qed.

Lemma normalize_yesterday input t :
  String.eqb (toLowerCase (trim input)) "yesterday" = true ->
  normalizeDateInput tza input (Some t)
  = Ok (toIsoLocalDate tza (TimeClip (UTCTime tza (LocalTime tza t - msPerDay)))).
Proof.
  intros Hy. unfold normalizeDateInput. rewrite Hy, setDate_yesterday. reflexivity.
Qed.

Lemma normalize_yesterday_invalid input :
  String.eqb (toLowerCase (trim input)) "yesterday" = true ->
  normalizeDateInput tza input None = Ok "NaN-NaN-NaN".
Proof. intros Hy. unfold normalizeDateInput. rewrite Hy. reflexivity. Qed.

(** A string the pattern reads as a real date from year 100 on is a fixed
    point, whatever the reference time. *)
Lemma normalize_fixed s now y m d :
  no_space s = true ->
  String.eqb (toLowerCase s) "yesterday" = false ->
  parse_iso s = Some (y, m, d) ->
  round_trips y m d = true ->
  normalizeDateInput tza s now = Ok s.
Proof.
  intros Hs Hn Hp Hr.
  pose proof (trim_no_space s Hs) as T.
  rewrite (normalize_absolute s now y m d); rewrite T; try assumption.
  rewrite Hr. reflexivity.
Qed.
End NormalizeDate.

Section NormalizeDateSpec.
Import JsString JsDate.

Lemma names_input prefix input rest :
  includes (prefix +:+ quoted input +:+ rest) (quoted input) = true.
Proof. apply includes_app_r, includes_prefix, prefix_app. Qed.

Lemma names_form prefix input rest form :
  includes rest form = true ->
  includes (prefix +:+ quoted input +:+ rest) form = true.
Proof. intros H. apply includes_app_r, includes_app_r, H. Qed.

(** *** Where the letter y cannot be *)

Lemma lacks_app c a b : lacks c (a +:+ b) = lacks c a && lacks c b.
Proof.
  unfold lacks. induction a as [|x a IH]; [reflexivity|].
  rewrite app_cons. cbn [list_ascii_of_string forallb]. rewrite IH.
  apply andb_assoc.
Qed.

Lemma lacks_includes s : lacks "y" s = true -> includes s "yesterday" = false.
Proof.
  unfold lacks. induction s as [|x s IH]; [reflexivity|].
  cbn [list_ascii_of_string forallb]. intros H.
  apply andb_true_iff in H as [Hx Hs]. apply negb_true_iff in Hx.
  cbn [includes String.prefix]. rewrite (IH Hs).
  destruct (ascii_dec "y" x) as [E | N]; [|reflexivity].
  subst x. discriminate.
Qed.

Lemma space_not_y c : is_space c = true -> negb (Ascii.eqb c "y") = true.
Proof.
  revert c.
  assert (H : forall c, implb (is_space c) (negb (Ascii.eqb c "y")) = true)
    by (apply ascii_all; vm_compute; reflexivity).
  intros c Hc. specialize (H c). rewrite Hc in H. exact H.
Qed.

Lemma hyphen_not_y c :
  Regex.class_match false Regex.hyphen c = true -> negb (Ascii.eqb c "y") = true.
Proof.
  revert c.
  assert (H : forall c, implb (Regex.class_match false Regex.hyphen c)
                              (negb (Ascii.eqb c "y")) = true)
    by (apply ascii_all; vm_compute; reflexivity).
  intros c Hc. specialize (H c). rewrite Hc in H. exact H.
Qed.

Lemma lacks_trimStart s : lacks "y" (trimStart s) = true -> lacks "y" s = true.
Proof.
  unfold lacks. induction s as [|c s IH]; [reflexivity|].
  cbn [trimStart]. destruct (is_space c) eqn:E; [|tauto].
  intros H. cbn [list_ascii_of_string forallb]. rewrite (space_not_y c E), (IH H).
  reflexivity.
Qed.

Lemma lacks_trimEnd s : lacks "y" (trimEnd s) = true -> lacks "y" s = true.
Proof.
  unfold lacks. induction s as [|c s IH]; [reflexivity|].
  cbn [trimEnd]. destruct (trimEnd s) as [|c' r] eqn:T.
  - destruct (is_space c) eqn:E.
    + intros _. cbn [list_ascii_of_string forallb].
      rewrite (space_not_y c E), (IH eq_refl). reflexivity.
    + cbn [list_ascii_of_string forallb]. intros H.
      apply andb_true_iff in H as [Hc _]. rewrite Hc, (IH eq_refl). reflexivity.
  - cbn [list_ascii_of_string forallb]. intros H.
    apply andb_true_iff in H as [Hc Hr]. rewrite Hc. apply IH.
    cbn [list_ascii_of_string forallb]. exact Hr.
Qed.

Lemma lacks_trim s : lacks "y" (trim s) = true -> lacks "y" s = true.
Proof. intros H. apply lacks_trimStart, lacks_trimEnd, H. Qed.

Lemma take_lacks cls n s m r :
  (forall c, Regex.class_match false cls c = true -> negb (Ascii.eqb c "y") = true) ->
  Regex.take false cls n s = Some (m, r) ->
  lacks "y" r = true -> lacks "y" s = true.
Proof.
  intros Hc. unfold lacks. revert s m r.
  induction n as [|n IH]; intros s m r H L.
  - cbn [Regex.take] in H. injection H as _ <-. exact L.
  - cbn [Regex.take] in H. destruct s as [|c s]; [discriminate|].
    destruct (Regex.class_match false cls c) eqn:Ec; [|discriminate].
    destruct (Regex.take false cls n s) as [[m' r']|] eqn:T; [|discriminate].
    injection H as _ <-. cbn [list_ascii_of_string forallb].
    rewrite (Hc c Ec), (IH _ _ _ T L). reflexivity.
Qed.

(** A string of the form YYYY-MM-DD has no letter y. *)
Lemma parse_iso_lacks s y m d : parse_iso s = Some (y, m, d) -> lacks "y" s = true.
Proof.
  unfold parse_iso, ABSOLUTE_DATE_PATTERN. cbn [Regex.exec]. intros H.
  assert (Hd : forall c, Regex.class_match false Regex.digit c = true ->
                         negb (Ascii.eqb c "y") = true).
  { intros c Hc. rewrite class_digit in Hc. rewrite (digit_not_y c Hc). reflexivity. }
  destruct (Regex.take false Regex.digit 4 s) as [[m1 r1]|] eqn:T1; [|discriminate].
  destruct (Regex.take false Regex.hyphen 1 r1) as [[h1 r2]|] eqn:T2; [|discriminate].
  destruct (Regex.take false Regex.digit 2 r2) as [[m2 r3]|] eqn:T3; [|discriminate].
  destruct (Regex.take false Regex.hyphen 1 r3) as [[h2 r4]|] eqn:T4; [|discriminate].
  destruct (Regex.take false Regex.digit 2 r4) as [[m3 r5]|] eqn:T5; [|discriminate].
  destruct r5; [|discriminate].
  apply (take_lacks _ _ _ _ _ Hd T1), (take_lacks _ _ _ _ _ hyphen_not_y T2),
    (take_lacks _ _ _ _ _ Hd T3), (take_lacks _ _ _ _ _ hyphen_not_y T4),
    (take_lacks _ _ _ _ _ Hd T5).
  reflexivity.
Qed.

(** The message for a YYYY-MM-DD string that is no real date does not
    mention the relative form. *)
Lemma names_no_relative_form input y m d :
  parse_iso (trim input) = Some (y, m, d) ->
  includes ("Invalid date " +:+ quoted input +:+
            ". Use a real calendar date in YYYY-MM-DD format.") "yesterday" = false.
Proof.
  intros P. apply lacks_includes.
  pose proof (lacks_trim _ (parse_iso_lacks _ _ _ _ P)) as L.
  unfold quoted. rewrite !lacks_app.
  change (lacks "y" (String (ascii_of_N 34) input)) with (lacks "y" input).
  rewrite L. reflexivity.
Qed.



(** [Date.UTC] moves the years 0000 to 0099 into the twentieth century,
    so their dates do not pass the test of the components. *)
Example first_century_date_refused :
  exists e,
    normalizeDateInput (fixed_offset 0) "0099-12-31" (UTC 2026 1 19) = throw e /\
    code e = validation_error.
Proof. eexists. split; [vm_compute; reflexivity | reflexivity]. Qed.

(** The year of the relative date is printed without padding. *)
Example yesterday_of_a_short_year :
  normalizeDateInput (fixed_offset 0) "yesterday" (UTC 999 2 1) = Ok "999-02-28".
Proof. vm_compute. reflexivity. Qed.

(** Where the zone skips a day the relative date is not the day before:
    at noon of 31 December 2011 in Apia, one day earlier is a local time
    that never was, the host reads it with the offset from before the
    change, and the date that comes back is 31 December again. *)
Example yesterday_across_a_skipped_day :
  toIsoLocalDate apia_2011 (Some 1325282400000) = "2011-12-31" /\
  normalizeDateInput apia_2011 "yesterday" (Some 1325282400000) = Ok "2011-12-31" /\
  LocalTime apia_2011 (UTCTime apia_2011 (LocalTime apia_2011 1325282400000 - msPerDay))
  <> LocalTime apia_2011 1325282400000 - msPerDay.
Proof. split; [|split]; vm_compute; [reflexivity | reflexivity | discriminate]. Qed.

End NormalizeDateSpec.

(** ** config.ts: the UUID pattern and resolveSpaceId *)

Section Uuid.
Import JsString.

Lemma ascii_same (f g : ascii -> bool) :
  forallb (fun c => Bool.eqb (f c) (g c)) (map (fun n => ascii_of_nat n) (seq 0 256))
  = true ->
  forall c, f c = g c.
Proof.
  intros H c. apply Bool.eqb_prop.
  exact (ascii_all (fun c => Bool.eqb (f c) (g c)) H c).
Qed.

Lemma class_hex c : Regex.class_match true Regex.hex c = is_hex_digit c.
Proof. revert c. apply ascii_same. vm_compute. reflexivity. Qed.

Lemma class_version c : Regex.class_match true [(49, 53)] c = version_nibble c.
Proof. revert c. apply ascii_same. vm_compute. reflexivity. Qed.

Lemma class_variant c :
  Regex.class_match true [(56, 57); (97, 98)] c = variant_nibble c.
Proof. revert c. apply ascii_same. vm_compute. reflexivity. Qed.

Lemma class_hyphen c : Regex.class_match true Regex.hyphen c = Ascii.eqb c "-".
Proof. revert c. apply ascii_same. vm_compute. reflexivity. Qed.

Lemma take_app ic cls m r :
  forallb (Regex.class_match ic cls) (list_ascii_of_string m) = true ->
  Regex.take ic cls (String.length m) (m +:+ r) = Some (m, r).
Proof.
  induction m as [|c m IH]; intros H; [reflexivity|].
  cbn [list_ascii_of_string forallb] in H. apply andb_true_iff in H as [Hc Hm].
  rewrite app_cons. cbn [String.length Regex.take]. rewrite Hc, (IH Hm). reflexivity.
Qed.

Lemma take_split ic cls n s m r :
  Regex.take ic cls n s = Some (m, r) ->
  s = m +:+ r /\ String.length m = n /\
  forallb (Regex.class_match ic cls) (list_ascii_of_string m) = true.
Proof.
  revert s m r. induction n as [|n IH]; intros s m r H.
  - cbn [Regex.take] in H. injection H as <- <-. repeat split.
  - cbn [Regex.take] in H. destruct s as [|c s]; [discriminate|].
    destruct (Regex.class_match ic cls c) eqn:Ec; [|discriminate].
    destruct (Regex.take ic cls n s) as [[m' r']|] eqn:T; [|discriminate].
    injection H as <- <-. destruct (IH _ _ _ T) as (-> & Hl & Hm).
    cbn [list_ascii_of_string forallb String.length]. rewrite Ec, Hm, Hl.
    repeat split.
Qed.

Lemma take_one ic cls s m r :
  Regex.take ic cls 1 s = Some (m, r) ->
  exists c, s = String c r /\ Regex.class_match ic cls c = true.
Proof.
  intros H. cbn [Regex.take] in H. destruct s as [|c s]; [discriminate|].
  destruct (Regex.class_match ic cls c) eqn:Ec; [|discriminate].
  injection H as <- <-. exists c. split; [reflexivity | exact Ec].
Qed.

Lemma forallb_same {A} (f g : A -> bool) l :
  (forall x, f x = g x) -> forallb f l = forallb g l.
Proof.
  intros H. induction l as [|x l IH]; [reflexivity|].
  cbn [forallb]. rewrite H, IH. reflexivity.
Qed.

Lemma take_hex_group n s m r :
  Regex.take true Regex.hex n s = Some (m, r) -> s = m +:+ r /\ hex_group n m.
Proof.
  intros H. apply take_split in H as (-> & Hl & Hm). split; [reflexivity|].
  split; [exact Hl|].
  rewrite (forallb_same _ (Regex.class_match true Regex.hex)); [exact Hm|].
  intros c. symmetry. apply class_hex.
Qed.

Lemma hex_group_take n g r :
  hex_group n g -> Regex.take true Regex.hex n (g +:+ r) = Some (g, r).
Proof.
  intros [<- Hg]. apply take_app.
  rewrite (forallb_same _ is_hex_digit); [exact Hg | apply class_hex].
Qed.

Lemma take_hyphen s m r :
  Regex.take true Regex.hyphen 1 s = Some (m, r) -> s = String "-" r.
Proof.
  intros H. apply take_one in H as (c & -> & Hc).
  rewrite class_hyphen in Hc. apply Ascii.eqb_eq in Hc. subst c. reflexivity.
Qed.

Lemma hyphen_take r :
  Regex.take true Regex.hyphen 1 (String "-" r) = Some (String "-" EmptyString, r).
Proof. reflexivity. Qed.

Lemma one_take ic cls c r :
  Regex.class_match ic cls c = true ->
  Regex.take ic cls 1 (String c r) = Some (String c EmptyString, r).
Proof. intros H. cbn [Regex.take]. rewrite H. reflexivity. Qed.

Lemma hyphen_app x : "-" +:+ x = String "-" x.
Proof. reflexivity. Qed.

Lemma isUuid_shape s : isUuid s = true -> canonical_uuid_shape s.
Proof.
  unfold isUuid, Regex.test, UUID_PATTERN. cbn [Regex.exec]. intros H.
  destruct (Regex.take true Regex.hex 8 s) as [[g1 r1]|] eqn:T1; [|discriminate].
  destruct (Regex.take true Regex.hyphen 1 r1) as [[h1 r2]|] eqn:T2; [|discriminate].
  destruct (Regex.take true Regex.hex 4 r2) as [[g2 r3]|] eqn:T3; [|discriminate].
  destruct (Regex.take true Regex.hyphen 1 r3) as [[h2 r4]|] eqn:T4; [|discriminate].
  destruct (Regex.take true [(49, 53)] 1 r4) as [[v1 r5]|] eqn:T5; [|discriminate].
  destruct (Regex.take true Regex.hex 3 r5) as [[g3 r6]|] eqn:T6; [|discriminate].
  destruct (Regex.take true Regex.hyphen 1 r6) as [[h3 r7]|] eqn:T7; [|discriminate].
  destruct (Regex.take true [(56, 57); (97, 98)] 1 r7) as [[w1 r8]|] eqn:T8;
    [|discriminate].
  destruct (Regex.take true Regex.hex 3 r8) as [[g4 r9]|] eqn:T9; [|discriminate].
  destruct (Regex.take true Regex.hyphen 1 r9) as [[h4 r10]|] eqn:T10; [|discriminate].
  destruct (Regex.take true Regex.hex 12 r10) as [[g5 r11]|] eqn:T11; [|discriminate].
  destruct r11; [|discriminate].
  apply take_hex_group in T1 as [-> G1], T3 as [-> G2], T6 as [-> G3],
      T9 as [-> G4], T11 as [-> G5].
  apply take_hyphen in T2 as ->, T4 as ->, T7 as ->, T10 as ->.
  apply take_one in T5 as (v & -> & Hv), T8 as (w & -> & Hw).
  rewrite class_version in Hv. rewrite class_variant in Hw.
  exists g1, g2, v, g3, w, g4, g5. rewrite app_empty_r.
  repeat split; assumption || apply G1 || apply G2 || apply G3 || apply G4 || apply G5.
Qed.

Lemma shape_isUuid s : canonical_uuid_shape s -> isUuid s = true.
Proof.
  intros (g1 & g2 & v & g3 & w & g4 & g5 & -> & G1 & G2 & Hv & G3 & Hw & G4 & G5).
  unfold isUuid, Regex.test, UUID_PATTERN. cbn [Regex.exec].
  rewrite (hex_group_take 8 g1 _ G1). cbv beta iota.
  rewrite !hyphen_app. rewrite hyphen_take. cbv beta iota.
  rewrite (hex_group_take 4 g2 _ G2). cbv beta iota.
  rewrite hyphen_take. cbv beta iota.
  rewrite app_cons, one_take by (rewrite class_version; exact Hv). cbv beta iota.
  rewrite (hex_group_take 3 g3 _ G3). cbv beta iota.
  rewrite hyphen_take. cbv beta iota.
  rewrite app_cons, one_take by (rewrite class_variant; exact Hw). cbv beta iota.
  rewrite (hex_group_take 3 g4 _ G4). cbv beta iota.
  rewrite hyphen_take. cbv beta iota.
  rewrite <- (app_empty_r g5) at 1.
  rewrite (hex_group_take 12 g5 _ G5). reflexivity.
Qed.

Lemma isUuid_iff s : isUuid s = true <-> canonical_uuid_shape s.
Proof. split; [apply isUuid_shape | apply shape_isUuid]. Qed.

Lemma resolveSpaceId_by_winner explicit config :
  resolveSpaceId explicit config =
    match winning_candidate explicit config with
    | String c rest =>
        if negb (isUuid (String c rest)) then
          throw (createValidationError
                   ("Space ID must be a UUID. Received: "
                    +:+ quoted (String c rest) +:+ "."))
        else Ok (String c rest)
    | EmptyString =>
        throw (createConfigError
                 ("Missing space ID. Provide a space ID in the request or set "
                  +:+ CAPACITIES_SPACE_ID_ENV +:+ "."))
    end.
Proof.
  unfold resolveSpaceId, spaceIdCandidate, winning_candidate.
  destruct explicit as [e|].
  - destruct (trim e) as [|c r]; cbn [truthy].
    + destruct (defaultSpaceId config) as [[|c r]|]; reflexivity.
    + reflexivity.
  - cbn [truthy]. destruct (defaultSpaceId config) as [[|c r]|]; reflexivity.
Qed.

(** C6.  The trimmed explicit value wins when it is not empty, else the
    configured default does.  With no winner the resolution fails with
    config_error; a winner of the canonical UUID shape is returned; any
    other winner fails with validation_error, whichever source it came
    from. *)
Theorem resolveSpaceId_spec (explicit : option string) (config : CapacitiesConfig) :
  let winner := winning_candidate explicit config in
  (winner = EmptyString ->
   exists e, resolveSpaceId explicit config = throw e /\ code e = config_error) /\
  (winner <> EmptyString -> canonical_uuid_shape winner ->
   resolveSpaceId explicit config = Ok winner) /\
  (winner <> EmptyString -> ~ canonical_uuid_shape winner ->
   exists e, resolveSpaceId explicit config = throw e /\ code e = validation_error).
Proof.
  cbv zeta. rewrite resolveSpaceId_by_winner.
  destruct (winning_candidate explicit config) as [|c r].
  - split; [|split]; try congruence.
    intros _. eexists. split; reflexivity.
  - split; [discriminate|]. split.
    + intros _ U. apply isUuid_iff in U. rewrite U. reflexivity.
    + intros _ U. destruct (isUuid (String c r)) eqn:E.
      * elim U. apply isUuid_iff, E.
      * eexists. split; reflexivity.
Qed.

Lemma resolveSpaceId_spec_witness :
  resolveSpaceId (Some "  11111111-1111-4111-8111-111111111111 ")
                 (mkConfig CAPACITIES_API_BASE_URL "token" None)
  = Ok "11111111-1111-4111-8111-111111111111" /\
  (exists e,
     resolveSpaceId None (mkConfig CAPACITIES_API_BASE_URL "token" None) = throw e /\
     code e = config_error) /\
  (exists e,
     resolveSpaceId None (mkConfig CAPACITIES_API_BASE_URL "token" (Some "home"))
     = throw e /\ code e = validation_error).
Proof.
  split; [|split].
  - apply (proj1 (proj2 (resolveSpaceId_spec
                           (Some "  11111111-1111-4111-8111-111111111111 ")
                           (mkConfig CAPACITIES_API_BASE_URL "token" None)))).
    + discriminate.
    + apply isUuid_iff. vm_compute. reflexivity.
  - apply (proj1 (resolveSpaceId_spec
                    None (mkConfig CAPACITIES_API_BASE_URL "token" None))).
    reflexivity.
  - apply (proj2 (proj2 (resolveSpaceId_spec
                           None (mkConfig CAPACITIES_API_BASE_URL "token" (Some "home"))))).
    + discriminate.
    + intros U. apply isUuid_iff in U. vm_compute in U. discriminate.
Defined.
End Uuid.

(** ** errors.ts: createHttpError on status 429 *)

Section RateLimit.
Import JsString.

(** C7, as the specification states it: with the headers retry-after: 5
    and ratelimit-reset: 1700000000, the guidance of the error, its
    actionableMessage, mentions neither value, and its message does not
    mention the reset time. *)
Lemma createHttpError_guidance_counterexample :
  code (createHttpError retry_after_and_reset) = rate_limit /\
  includes (actionableMessage (createHttpError retry_after_and_reset)) "5" = false /\
  includes (actionableMessage (createHttpError retry_after_and_reset)) "1700000000"
  = false /\
  includes (message (createHttpError retry_after_and_reset)) "1700000000" = false.
Proof. repeat split; vm_compute; reflexivity. Qed.

Lemma createHttpError_429 response :
  resp_status response = 429 ->
  createHttpError response =
    {| message :=
         ("Capacities API request failed with status 429."
          +:+ " Rate limit exceeded.")
         +:+ match resp_header response "retry-after" with
             | Some (String c ra) => " Retry after " +:+ String c ra +:+ " seconds."
             | _ =>
                 match resp_header response "ratelimit-reset" with
                 | Some (String c rs) =>
                     " Retry when rate limit resets (" +:+ String c rs +:+ ")."
                 | _ => " Retry after a short delay."
                 end
             end
         +:+ (if truthy (trim (resp_text response))
              then " Response: " +:+ trim (resp_text response) else EmptyString);
       code := rate_limit;
       status := Some 429;
       actionableMessage :=
         "Back off and retry with lower request frequency. Respect RateLimit headers when present." |}.
Proof.
  intros H. unfold createHttpError. rewrite H.
  change (429 =? 401) with false. change (429 =? 404) with false.
  change (429 =? 429) with true. cbv beta iota.
  reflexivity.
Qed.

(** C7 (amended).  A response with status 429 is classified as rate_limit
    with status 429.  Its message carries the retry hint: the seconds of
    a non-empty retry-after header; else the time of a non-empty
    ratelimit-reset header; else the advice to retry after a short
    delay.  Its actionableMessage is one fixed text, whatever the
    headers. *)
Theorem createHttpError_rate_limit (response : Response) :
  resp_status response = 429 ->
  let e := createHttpError response in
  code e = rate_limit /\
  status e = Some 429 /\
  actionableMessage e =
    "Back off and retry with lower request frequency. Respect RateLimit headers when present." /\
  (forall ra, resp_header response "retry-after" = Some ra -> ra <> EmptyString ->
     includes (message e) (" Retry after " +:+ ra +:+ " seconds.") = true) /\
  (forall rs,
     (resp_header response "retry-after" = None \/
      resp_header response "retry-after" = Some EmptyString) ->
     resp_header response "ratelimit-reset" = Some rs -> rs <> EmptyString ->
     includes (message e) (" Retry when rate limit resets (" +:+ rs +:+ ").") = true) /\
  ((resp_header response "retry-after" = None \/
    resp_header response "retry-after" = Some EmptyString) ->
   (resp_header response "ratelimit-reset" = None \/
    resp_header response "ratelimit-reset" = Some EmptyString) ->
   includes (message e) " Retry after a short delay." = true).
Proof.
  intros H. cbv zeta. rewrite (createHttpError_429 response H).
  cbn [code status actionableMessage message].
  split; [reflexivity|]. split; [reflexivity|]. split; [reflexivity|].
  split; [|split].
  - intros ra Hra Hne. rewrite Hra. destruct ra as [|c ra]; [congruence|].
    apply includes_app_r, includes_prefix, prefix_app.
  - intros rs Hra Hrs Hne. rewrite Hrs.
    destruct rs as [|c rs]; [congruence|].
    destruct Hra as [-> | ->]; apply includes_app_r, includes_prefix, prefix_app.
  - intros [-> | ->] [-> | ->]; apply includes_app_r, includes_prefix, prefix_app.
Qed.

Lemma createHttpError_rate_limit_witness :
  code (createHttpError retry_after_5) = rate_limit /\
  includes (message (createHttpError retry_after_5)) " Retry after 5 seconds." = true.
Proof.
  pose proof (createHttpError_rate_limit retry_after_5 eq_refl) as (Hc & _ & _ & Hm & _).
  split; [exact Hc|].
  apply (Hm "5" eq_refl). discriminate.
Defined.
End RateLimit.

(** ** Asynchronous computations *)

Section Io.
Context {A B : Type}.

Lemma bind_Ok (m : io A) (k : A -> io B) log l r :
  (m ≫= k) log = (l, Ok r) ->
  exists a l', m log = (l', Ok a) /\ k a l' = (l, Ok r).
Proof.
  unfold mbind, io_bind. destruct (m log) as [l' [a|t]]; intros H.
  - exists a, l'. split; [reflexivity | exact H].
  - discriminate.
Qed.

Lemma lift_Ok (x : result A) log l r :
  lift x log = (l, Ok r) -> x = Ok r /\ l = log.
Proof. unfold lift. intros H. injection H as <- ->. split; reflexivity. Qed.

Lemma mret_Ok (x : A) log l r :
  (mret x : io A) log = (l, Ok r) -> r = x /\ l = log.
Proof. unfold mret, io_ret. intros H. injection H as <- <-. split; reflexivity. Qed.

Lemma lift_bind (x : result A) (k : A -> io B) log :
  (lift x ≫= k) log = match x with
                       | Ok a => k a log
                       | Throw t => (log, Throw t)
                       end.
Proof. unfold mbind, io_bind, lift. destruct x; reflexivity. Qed.
End Io.

Lemma catch_cases (name : string) (body : io tool_result) log :
  catch body (fun error => mret (errorResult name error)) log =
    match body log with
    | (l, Ok r) => (l, Ok r)
    | (l, Throw t) => (l, Ok (errorResult name t))
    end.
Proof. unfold catch. destruct (body log) as [l [r|t]]; reflexivity. Qed.

(** ** The shapes of the two result builders *)

Section Shapes.
Import JsString.

Lemma app_assoc_string a b c : (a +:+ b) +:+ c = a +:+ b +:+ c.
Proof.
  induction a as [|x a IH]; [reflexivity|].
  rewrite !app_cons, IH. reflexivity.
Qed.

Lemma prefix_join_head t x rest :
  String.prefix t (join nl ((t +:+ x) :: rest)) = true.
Proof.
  destruct rest as [|y rest]; cbn [join].
  - apply prefix_app.
  - rewrite app_assoc_string. apply prefix_app.
Qed.

Lemma exactly_unsupported r : unsupported_shape r -> 
  exactly_one (success_shape r) (unsupported_shape r) (error_shape r).
Proof.
  intros U. right. left. split; [|split; [exact U|]].
  - intros (S & _). destruct U as (U & _). congruence.
  - intros (_ & E & _). destruct U as (U & _). congruence.
Qed.

Lemma exactly_error r : error_shape r ->
  exactly_one (success_shape r) (unsupported_shape r) (error_shape r).
Proof.
  intros E. right. right. split; [|split; [|exact E]].
  - intros (_ & S & _). destruct E as (E & _). congruence.
  - intros (_ & U & _). destruct E as (E & _). congruence.
Qed.

Lemma exactly_success r : success_shape r ->
  exactly_one (success_shape r) (unsupported_shape r) (error_shape r).
Proof.
  intros S. left. split; [exact S|split].
  - intros (U & _). destruct S as (S & _). congruence.
  - intros (E & _). destruct S as (_ & S & _). congruence.
Qed.

Lemma unsupportedResult_shape host name msg details :
  unsupported_shape (unsupportedResult host name msg details).
Proof.
  repeat split; try reflexivity.
  - do 2 eexists. reflexivity.
  - eexists. reflexivity.
Qed.

Lemma unsupportedResult_well_formed host name msg details :
  well_formed name (unsupportedResult host name msg details).
Proof.
  split; [apply exactly_unsupported, unsupportedResult_shape|].
  split; [|reflexivity].
  eexists. split; [reflexivity|]. apply prefix_join_head.
Qed.

Lemma errorResult_shape name t : error_shape (errorResult name t).
Proof.
  repeat split; try reflexivity.
  do 4 eexists. split; [reflexivity|].
  destruct (status (normalizeCapacitiesError t)); [right; eexists|left]; reflexivity.
Qed.

Lemma errorResult_well_formed name t : well_formed name (errorResult name t).
Proof.
  split; [apply exactly_error, errorResult_shape|].
  split; [|reflexivity].
  eexists. split; [reflexivity|].
  cbn [List.filter]. change (0 <? String.length ("## " +:+ name +:+ " error"))%nat with true.
  cbv iota. apply prefix_join_head.
Qed.

(** *** The complete shapes *)

Lemma firstn_length_number {A} (l : list A) n :
  0 <= n -> length_number (firstn (Z.to_nat n) l) = Z.min n (length_number l).
Proof. intros H. unfold length_number. rewrite length_firstn. lia. Qed.

Lemma slice0_length {A} (l : list A) n :
  length_number (slice0 l n) <= length_number l /\
  (0 <= n -> length_number (slice0 l n) = Z.min n (length_number l)) /\
  (n < 0 -> length_number (slice0 l n) = Z.max (length_number l + n) 0).
Proof.
  unfold slice0. destruct (n <? 0) eqn:E.
  - apply Z.ltb_lt in E. unfold length_number. rewrite length_firstn. lia.
  - apply Z.ltb_ge in E. unfold length_number. rewrite length_firstn. lia.
Qed.

Lemma filter_lines (a b c d e : string) :
  b <> EmptyString -> c <> EmptyString -> e <> EmptyString ->
  List.filter (fun line => (0 <? String.length line)%nat)
              [String "#" a; EmptyString; b; c; d; e]
  = ([String "#" a; b; c]
       ++ match d with EmptyString => [] | _ => [d] end ++ [e])%list.
Proof.
  intros Hb Hc He.
  destruct b as [|b0 b]; [congruence|]. destruct c as [|c0 c]; [congruence|].
  destruct e as [|e0 e]; [congruence|].
  destruct d as [|d0 d]; reflexivity.
Qed.

Lemma complete_success_shape name r : complete_success name r -> success_shape r.
Proof.
  intros [[_ (a & b & c & d & E & _ & I & _)] | [_ (a & b & c & d & E & _ & I & _)]];
    unfold success_shape; rewrite E, I; repeat split; reflexivity.
Qed.

Lemma complete_unsupported_shape host name r :
  complete_unsupported host name r -> unsupported_shape r.
Proof.
  intros (msg & action & details & E & I & _).
  unfold unsupported_shape. rewrite E, I.
  repeat split; try reflexivity.
  - do 2 eexists. reflexivity.
  - eexists. reflexivity.
Qed.

Lemma complete_error_shape name r : complete_error name r -> error_shape r.
Proof.
  intros (e & E & I & _). unfold error_shape. rewrite E, I.
  repeat split; try reflexivity.
  do 4 eexists. split; [reflexivity|].
  destruct (status e); [right; eexists|left]; reflexivity.
Qed.

Lemma only_success host name r :
  complete_success name r -> complete host name r.
Proof.
  intros S. left. split; [exact S|].
  pose proof (complete_success_shape _ _ S) as (S1 & S2 & _).
  split.
  - intros U. apply complete_unsupported_shape in U as (U & _). congruence.
  - intros E. apply complete_error_shape in E as (E & _). congruence.
Qed.

Lemma only_unsupported host name r :
  complete_unsupported host name r -> complete host name r.
Proof.
  intros U. right. left.
  pose proof (complete_unsupported_shape _ _ _ U) as (U1 & U2 & _).
  split; [|split; [exact U|]].
  - intros S. apply complete_success_shape in S as (S & _). congruence.
  - intros E. apply complete_error_shape in E as (E & _). congruence.
Qed.

Lemma only_error host name r : complete_error name r -> complete host name r.
Proof.
  intros E. right. right.
  pose proof (complete_error_shape _ _ E) as (E1 & E2 & _).
  split; [|split; [|exact E]].
  - intros S. apply complete_success_shape in S as (_ & S & _). congruence.
  - intros U. apply complete_unsupported_shape in U as (_ & U & _). congruence.
Qed.

Lemma unsupportedResult_complete host name msg details :
  complete_result host name (unsupportedResult host name msg details).
Proof.
  split; [apply unsupportedResult_well_formed|].
  apply only_unsupported. do 3 eexists. repeat split; reflexivity.
Qed.

Lemma errorResult_lines name t :
  content (errorResult name t)
  = [mkText "text" (join nl (error_lines name (normalizeCapacitiesError t)))].
Proof.
  unfold errorResult, toTextContent. cbv zeta. cbn [content].
  generalize (normalizeCapacitiesError t). intros e.
  change ("## " +:+ name +:+ " error")
    with (String "#" ("# " +:+ name +:+ " error")).
  rewrite filter_lines by (rewrite !app_cons; discriminate).
  unfold error_lines. destruct (status e) as [st|]; reflexivity.
Qed.

Lemma errorResult_complete host name t :
  complete_result host name (errorResult name t).
Proof.
  split; [apply errorResult_well_formed|].
  apply only_error. exists (normalizeCapacitiesError t).
  split; [reflexivity|]. split; [reflexivity|]. apply errorResult_lines.
Qed.

Lemma catch_complete host name (body : io tool_result) :
  (forall log l r, body log = (l, Ok r) -> complete_result host name r) ->
  forall log, exists l r,
    catch body (fun error => mret (errorResult name error)) log = (l, Ok r) /\
    complete_result host name r.
Proof.
  intros H log. rewrite catch_cases.
  destruct (body log) as [l [r|t]] eqn:E.
  - exists l, r. split; [reflexivity|]. eapply H, E.
  - exists l, (errorResult name t). split; [reflexivity|].
    apply errorResult_complete.
Qed.
End Shapes.

(** ** Every handler returns a complete result *)

Section Handlers.
Variable host : Host.
Variable config : CapacitiesConfig.

Ltac success_record :=
  split; [apply exactly_success; repeat split; reflexivity|];
  split; [eexists; split; reflexivity | reflexivity].

Lemma get_space_info_returns spaceId log :
  exists l r, get_space_info host config spaceId log = (l, Ok r) /\
              complete_result host "get_space_info" r.
Proof.
  apply catch_complete. clear log. intros log l r H.
  apply bind_Ok in H as (resolved & l1 & _ & H).
  apply bind_Ok in H as ([spacesResponse spaceInfoResponse] & l2 & _ & H).
  apply mret_Ok in H as [-> _]. split; [success_record|].
  apply only_success. left. split; [reflexivity|].
  exists resolved,
    (option_map space_title
       (find (fun space => String.eqb (space_id space) resolved)
             (spaces spacesResponse))),
    (length_number (spaces spacesResponse)), (structures spaceInfoResponse).
  cbn [structuredContent content isError].
  split; [destruct (find _ _); reflexivity|].
  split; [unfold length_number; lia|]. split; reflexivity.
Qed.

Lemma search_entities_returns input log :
  exists l r, search_entities host config input log = (l, Ok r) /\
              complete_result host "search_entities" r.
Proof.
  apply catch_complete. clear log. intros log l r H.
  apply bind_Ok in H as (filters & l1 & _ & H).
  apply bind_Ok in H as (resolved & l2 & _ & H).
  destruct (sf_text filters) as [[|c t]|].
  - apply mret_Ok in H as [-> _]. apply unsupportedResult_complete.
  - apply bind_Ok in H as (lookupResponse & l3 & _ & H).
    apply bind_Ok in H as ([filteredResults notes] & l4 & _ & H).
    apply mret_Ok in H as [-> _]. split; [success_record|].
    apply only_success. right. split; [reflexivity|].
    do 4 eexists. cbn [structuredContent content isError].
    split; [reflexivity|].
    split; [apply slice0_length|]. split; reflexivity.
  - apply mret_Ok in H as [-> _]. apply unsupportedResult_complete.
Qed.

Lemma get_entity_by_id_returns input log :
  exists l r, get_entity_by_id host config input log = (l, Ok r) /\
              complete_result host "get_entity_by_id" r.
Proof.
  do 2 eexists. split; [reflexivity|]. apply unsupportedResult_complete.
Qed.

Lemma list_tasks_returns input log :
  exists l r, list_tasks host input log = (l, Ok r) /\
              complete_result host "list_tasks" r.
Proof.
  apply catch_complete. clear log. intros log l r H.
  apply bind_Ok in H as (filters & l1 & _ & H).
  apply mret_Ok in H as [-> _]. apply unsupportedResult_complete.
Qed.

Lemma create_task_returns input log :
  exists l r, create_task host config input log = (l, Ok r) /\
              complete_result host "create_task" r.
Proof.
  apply catch_complete. clear log. intros log l r H.
  apply bind_Ok in H as (payload & l1 & _ & H).
  apply mret_Ok in H as [-> _]. apply unsupportedResult_complete.
Qed.

Lemma update_task_returns input log :
  exists l r, update_task host config input log = (l, Ok r) /\
              complete_result host "update_task" r.
Proof.
  apply catch_complete. clear log. intros log l r H.
  apply bind_Ok in H as (payload & l1 & _ & H).
  apply mret_Ok in H as [-> _]. apply unsupportedResult_complete.
Qed.

Lemma complete_task_returns input log :
  exists l r, complete_task host config input log = (l, Ok r) /\
              complete_result host "complete_task" r.
Proof.
  apply catch_complete. clear log. intros log l r H.
  apply bind_Ok in H as (payload & l1 & _ & H).
  apply mret_Ok in H as [-> _]. apply unsupportedResult_complete.
Qed.

(** Every invocation returns, and returns a complete result. *)
Lemma invoke_complete call :
  exists requests r,
    invoke host config call = (requests, Ok r) /\
    complete_result host (tool_name call) r.
Proof.
  unfold invoke. destruct call; cbn [handler tool_name].
  - apply get_space_info_returns.
  - apply search_entities_returns.
  - apply get_entity_by_id_returns.
  - apply list_tasks_returns.
  - apply create_task_returns.
  - apply update_task_returns.
  - apply complete_task_returns.
Qed.
End Handlers.


(** ** What the normalisers throw *)

Section Throws.
Import JsString.

Lemma normalizeDateInput_throws tza input now t :
  normalizeDateInput tza input now = Throw t -> validation_failure t.
Proof.
  unfold normalizeDateInput.
  destruct (String.eqb _ "yesterday"); [discriminate|].
  destruct (Regex.exec false ABSOLUTE_DATE_PATTERN (trim input))
    as [[|m1 [|m2 [|m3 [|? ?]]]]|];
    try (intros H; injection H as <-; eexists; split; reflexivity).
  destruct (_ || _ || _); [|discriminate].
  intros H; injection H as <-; eexists; split; reflexivity.
Qed.

Lemma append_not_empty a c b : a +:+ String c b <> EmptyString.
Proof. destruct a; discriminate. Qed.

Lemma normalizeDateInput_not_empty tza input now out :
  normalizeDateInput tza input now = Ok out -> out <> EmptyString.
Proof.
  destruct (String.eqb (toLowerCase (trim input)) "yesterday") eqn:Hy.
  - unfold normalizeDateInput. rewrite Hy. intros H. injection H as <-.
    unfold toIsoLocalDate. apply append_not_empty.
  - destruct (parse_iso (trim input)) as [[[y m] d]|] eqn:Hp.
    + rewrite (normalize_absolute tza input now y m d Hy Hp).
      destruct (round_trips y m d); [|discriminate].
      intros H. injection H as <-. intros E. rewrite E in Hp. discriminate.
    + rewrite (normalize_no_match tza input now Hy Hp). discriminate.
Qed.

Lemma resolveSpaceId_throws explicit config t :
  resolveSpaceId explicit config = Throw t -> space_failure t.
Proof.
  rewrite resolveSpaceId_by_winner.
  destruct (winning_candidate explicit config) as [|c r].
  - intros H. injection H as <-. eexists. split; [reflexivity|]. left. reflexivity.
  - destruct (negb _); [|discriminate].
    intros H. injection H as <-. eexists. split; [reflexivity|]. right. reflexivity.
Qed.

Lemma trimToUndefined_no_text text : no_text text -> trimToUndefined text = None.
Proof.
  intros [-> | (t & -> & Ht)]; [reflexivity|].
  unfold trimToUndefined. destruct t as [|c t]; [reflexivity|].
  cbv zeta. rewrite Ht. reflexivity.
Qed.

Variable host : Host.

Lemma normalizeDateField_throws value t :
  normalizeDateField host value = Throw t -> validation_failure t.
Proof.
  unfold normalizeDateField. destruct value as [[|c v]|]; try discriminate.
  destruct (normalizeDateInput _ _ _) as [d|t'] eqn:E; [discriminate|].
  intros H. injection H as <-. eapply normalizeDateInput_throws, E.
Qed.

Lemma normalizeDateField_present value d :
  normalizeDateField host value = Ok d ->
  present d = match d with Some _ => true | None => false end.
Proof.
  unfold normalizeDateField. destruct value as [[|c v]|];
    try (intros H; injection H as <-; reflexivity).
  destruct (normalizeDateInput _ _ _) as [x|t'] eqn:E; [|discriminate].
  intros H. injection H as <-. apply normalizeDateInput_not_empty in E.
  destruct x; [congruence | reflexivity].
Qed.

Lemma validateDateInputs_throws d f t x :
  validateDateInputs d f t = Throw x -> validation_failure x.
Proof.
  unfold validateDateInputs.
  destruct (present d && _); [intros H; injection H as <-; eexists; split; reflexivity|].
  destruct (_ || _); [intros H; injection H as <-; eexists; split; reflexivity|].
  destruct f as [from|]; [|discriminate]. destruct t as [to|]; [|discriminate].
  destruct (_ && _ && _); [|discriminate].
  intros H; injection H as <-; eexists; split; reflexivity.
Qed.

(** The filters of a call are refused exactly when they conflict. *)
Lemma validateDateInputs_conflict vd vf vt d f t :
  normalizeDateField host vd = Ok d ->
  normalizeDateField host vf = Ok f ->
  normalizeDateField host vt = Ok t ->
  date_conflict d f t ->
  exists x, validateDateInputs d f t = Throw x /\ validation_failure x.
Proof.
  intros Hd Hf Ht C.
  destruct (validateDateInputs d f t) as [[]|x] eqn:E.
  2:{ exists x. split; [reflexivity|]. eapply validateDateInputs_throws, E. }
  exfalso. unfold validateDateInputs in E.
  rewrite (normalizeDateField_present _ _ Hd), (normalizeDateField_present _ _ Hf),
    (normalizeDateField_present _ _ Ht) in E.
  destruct C as [[Cd C] | [[Cf Ct] | [[Cf Ct] | (from & to & -> & -> & G)]]].
  - destruct d; [|congruence]. destruct f, t; try discriminate. destruct C; congruence.
  - destruct f; [|congruence]. subst t. destruct d; discriminate.
  - destruct t; [|congruence]. subst f. destruct d; discriminate.
  - destruct d; [discriminate|]. cbn in E. rewrite G in E. discriminate.
Qed.

Lemma normalizeSearchEntitiesFilters_throws input t :
  normalizeSearchEntitiesFilters host input = Throw t -> validation_failure t.
Proof.
  unfold normalizeSearchEntitiesFilters.
  destruct (normalizeDateField host (si_date input)) as [d|x] eqn:E1;
    [|intros H; injection H as <-; eapply normalizeDateField_throws, E1].
  destruct (normalizeDateField host (si_dateFrom input)) as [f|x] eqn:E2;
    [|intros H; injection H as <-; eapply normalizeDateField_throws, E2].
  destruct (normalizeDateField host (si_dateTo input)) as [t'|x] eqn:E3;
    [|intros H; injection H as <-; eapply normalizeDateField_throws, E3].
  cbn [mbind result_bind].
  destruct (validateDateInputs d f t') as [[]|x] eqn:E4; [discriminate|].
  intros H; injection H as <-; eapply validateDateInputs_throws, E4.
Qed.

Lemma normalizeListTasksFilters_throws input t :
  normalizeListTasksFilters host input = Throw t -> validation_failure t.
Proof.
  unfold normalizeListTasksFilters.
  destruct (normalizeDateField host (li_date input)) as [d|x] eqn:E1;
    [|intros H; injection H as <-; eapply normalizeDateField_throws, E1].
  destruct (normalizeDateField host (li_dateFrom input)) as [f|x] eqn:E2;
    [|intros H; injection H as <-; eapply normalizeDateField_throws, E2].
  destruct (normalizeDateField host (li_dateTo input)) as [t'|x] eqn:E3;
    [|intros H; injection H as <-; eapply normalizeDateField_throws, E3].
  cbn [mbind result_bind].
  destruct (validateDateInputs d f t') as [[]|x] eqn:E4; [discriminate|].
  intros H; injection H as <-; eapply validateDateInputs_throws, E4.
Qed.
End Throws.

(** ** search_entities and list_tasks: validation before any request *)

Section SearchValidation.
Variable host : Host.
Variable config : CapacitiesConfig.

Lemma normalizeSearchEntitiesFilters_Ok input filters :
  normalizeSearchEntitiesFilters host input = Ok filters ->
  exists d f t,
    normalizeDateField host (si_date input) = Ok d /\
    normalizeDateField host (si_dateFrom input) = Ok f /\
    normalizeDateField host (si_dateTo input) = Ok t /\
    validateDateInputs d f t = Ok tt /\
    filters = {| sf_spaceId := trimToUndefined (si_spaceId input);
                 sf_text := trimToUndefined (si_text input);
                 sf_type := trimToUndefined (si_type input);
                 sf_date := d;
                 sf_dateFrom := f;
                 sf_dateTo := t;
                 sf_limit := match si_limit input with
                             | Some l => l
                             | None => DEFAULT_LIMIT
                             end |}.
Proof.
  unfold normalizeSearchEntitiesFilters.
  destruct (normalizeDateField host (si_date input)) as [d|x]; [|discriminate].
  destruct (normalizeDateField host (si_dateFrom input)) as [f|x]; [|discriminate].
  destruct (normalizeDateField host (si_dateTo input)) as [t|x]; [|discriminate].
  cbn [mbind result_bind].
  destruct (validateDateInputs d f t) as [[]|x] eqn:V; [|discriminate].
  intros H. injection H as <-. exists d, f, t. repeat split. exact V.
Qed.

Lemma search_entities_by_stage input :
  invoke host config (call_search_entities input) =
    match normalizeSearchEntitiesFilters host input with
    | Throw t => ([], Ok (errorResult "search_entities" t))
    | Ok filters =>
        match resolveSpaceId (sf_spaceId filters) config with
        | Throw t => ([], Ok (errorResult "search_entities" t))
        | Ok space =>
            match sf_text filters with
            | Some (String c t) => invoke host config (call_search_entities input)
            | _ =>
                ([], Ok (unsupportedResult host "search_entities"
                           text_required_message
                           [("requestedFilters", json_of_search_filters filters);
                            ("supported", honored_dimensions)]))
            end
        end
    end.
Proof.
  unfold invoke at 1. cbn [handler]. unfold search_entities at 1.
  rewrite catch_cases, lift_bind.
  destruct (normalizeSearchEntitiesFilters host input) as [filters|t] eqn:N;
    [|reflexivity].
  rewrite lift_bind.
  destruct (resolveSpaceId (sf_spaceId filters) config) as [space|t] eqn:R;
    [|reflexivity].
  destruct (sf_text filters) as [[|c t]|] eqn:T; try reflexivity.
  unfold invoke. cbn [handler]. unfold search_entities.
  rewrite catch_cases, lift_bind, N, lift_bind, R, T. reflexivity.
Qed.

(** C2 (amended).  A search_entities call whose text filter is absent or
    trims to empty issues no request.  When its date filters pass and a
    space identifier resolves it returns the explicit-unsupported shape
    with the requested filters and the filter dimensions that are and
    are not honored; when the date filters are refused it returns the
    error shape of a validation_error; when no valid space identifier
    resolves it returns the error shape of a config_error or
    validation_error. *)
Theorem search_entities_without_text (input : SearchEntitiesInput) :
  no_text (si_text input) ->
  exists r,
    invoke host config (call_search_entities input) = ([], Ok r) /\
    ((exists filters space,
        normalizeSearchEntitiesFilters host input = Ok filters /\
        resolveSpaceId (sf_spaceId filters) config = Ok space /\
        r = unsupportedResult host "search_entities" text_required_message
              [("requestedFilters", json_of_search_filters filters);
               ("supported", honored_dimensions)] /\
        unsupported_shape r) \/
     (exists t,
        normalizeSearchEntitiesFilters host input = Throw t /\
        validation_failure t /\
        r = errorResult "search_entities" t /\ error_shape r) \/
     (exists filters t,
        normalizeSearchEntitiesFilters host input = Ok filters /\
        resolveSpaceId (sf_spaceId filters) config = Throw t /\
        space_failure t /\
        r = errorResult "search_entities" t /\ error_shape r)).
Proof.
  intros Ht. apply trimToUndefined_no_text in Ht.
  rewrite search_entities_by_stage.
  destruct (normalizeSearchEntitiesFilters host input) as [filters|t] eqn:N.
  - destruct (resolveSpaceId (sf_spaceId filters) config) as [space|t] eqn:R.
    + destruct (normalizeSearchEntitiesFilters_Ok _ _ N) as (d & f & t & _ & _ & _ & _ & E).
      assert (T : sf_text filters = None) by (rewrite E; exact Ht).
      rewrite T. eexists. split; [reflexivity|]. left.
      exists filters, space.
      split; [reflexivity|]. split; [exact R|]. split; [reflexivity|].
      apply unsupportedResult_shape.
    + eexists. split; [reflexivity|]. right. right.
      exists filters, t. split; [reflexivity|]. split; [exact R|].
      split; [eapply resolveSpaceId_throws, R|].
      split; [reflexivity | apply errorResult_shape].
  - eexists. split; [reflexivity|]. right. left.
    exists t. split; [reflexivity|].
    split; [eapply normalizeSearchEntitiesFilters_throws, N|].
    split; [reflexivity | apply errorResult_shape].
Qed.
End SearchValidation.

(** C2, as the specification states it: a call without text, with a date
    that is no calendar date and a valid default space, returns the error
    shape of a validation_error, not the explicit-unsupported shape. *)
Lemma search_entities_without_text_counterexample :
  exists r,
    invoke sample_host sample_config
           (call_search_entities
              (mkSearchInput None None None (Some "2024-02-30") None None None))
    = ([], Ok r) /\
    error_code_of r = Some "validation_error" /\
    ~ unsupported_shape r.
Proof.
  eexists. split; [vm_compute; reflexivity|]. split; [reflexivity|].
  intros (U & _). discriminate.
Qed.

Lemma search_entities_without_text_witness :
  exists r,
    invoke sample_host sample_config
           (call_search_entities
              (mkSearchInput None (Some "   ") None (Some "yesterday") None None None))
    = ([], Ok r) /\
    unsupported_shape r.
Proof.
  destruct (search_entities_without_text
              sample_host sample_config
              (mkSearchInput None (Some "   ") None (Some "yesterday") None None None))
    as (r & Hr & [(filters & space & _ & _ & _ & U)
                 | [(t & N & _) | (filters & t & N & R & _)]]).
  - right. exists "   ". split; reflexivity.
  - exists r. split; [exact Hr | exact U].
  - vm_compute in N. discriminate.
  - vm_compute in N. injection N as <-. vm_compute in R. discriminate.
Defined.

Section DateConflicts.
Variable host : Host.
Variable config : CapacitiesConfig.

Lemma errorResult_code name e :
  error_code_of (errorResult name (ThrownCapacities e)) = Some (code_name (code e)).
Proof. reflexivity. Qed.

Lemma search_entities_conflict input d f t :
  normalizeDateField host (si_date input) = Ok d ->
  normalizeDateField host (si_dateFrom input) = Ok f ->
  normalizeDateField host (si_dateTo input) = Ok t ->
  date_conflict d f t ->
  exists e,
    invoke host config (call_search_entities input)
    = ([], Ok (errorResult "search_entities" (ThrownCapacities e))) /\
    code e = validation_error.
Proof.
  intros Hd Hf Ht C.
  destruct (validateDateInputs_conflict host _ _ _ _ _ _ Hd Hf Ht C)
    as (x & V & e & -> & Hc).
  exists e. split; [|exact Hc].
  rewrite search_entities_by_stage.
  unfold normalizeSearchEntitiesFilters. rewrite Hd, Hf, Ht.
  cbn [mbind result_bind]. rewrite V. reflexivity.
Qed.

Lemma list_tasks_conflict input d f t :
  normalizeDateField host (li_date input) = Ok d ->
  normalizeDateField host (li_dateFrom input) = Ok f ->
  normalizeDateField host (li_dateTo input) = Ok t ->
  date_conflict d f t ->
  exists e,
    invoke host config (call_list_tasks input)
    = ([], Ok (errorResult "list_tasks" (ThrownCapacities e))) /\
    code e = validation_error.
Proof.
  intros Hd Hf Ht C.
  destruct (validateDateInputs_conflict host _ _ _ _ _ _ Hd Hf Ht C)
    as (x & V & e & -> & Hc).
  exists e. split; [|exact Hc].
  unfold invoke. cbn [handler]. unfold list_tasks.
  rewrite catch_cases, lift_bind.
  unfold normalizeListTasksFilters. rewrite Hd, Hf, Ht.
  cbn [mbind result_bind]. rewrite V. reflexivity.
Qed.

(** C5.  When the normalised date filters of a search_entities or
    list_tasks call hold a single date next to either end of a range,
    or one end of a range alone, or a range whose start is
    lexicographically after its end, the handler returns the error shape
    of a validation_error and has issued no request. *)
Theorem conflicting_dates_rejected
        (date dateFrom dateTo : option string) (d f t : option string) :
  normalizeDateField host date = Ok d ->
  normalizeDateField host dateFrom = Ok f ->
  normalizeDateField host dateTo = Ok t ->
  date_conflict d f t ->
  (forall spaceId text type limit,
     exists r,
       invoke host config
              (call_search_entities
                 (mkSearchInput spaceId text type date dateFrom dateTo limit))
       = ([], Ok r) /\
       error_shape r /\ error_code_of r = Some "validation_error") /\
  (forall spaceId status,
     exists r,
       invoke host config
              (call_list_tasks (mkListInput spaceId status date dateFrom dateTo))
       = ([], Ok r) /\
       error_shape r /\ error_code_of r = Some "validation_error").
Proof.
  intros Hd Hf Ht C. split.
  - intros spaceId text type limit.
    destruct (search_entities_conflict
                (mkSearchInput spaceId text type date dateFrom dateTo limit)
                d f t Hd Hf Ht C) as (e & E & Hc).
    eexists. split; [exact E|]. split; [apply errorResult_shape|].
    rewrite errorResult_code, Hc. reflexivity.
  - intros spaceId status.
    destruct (list_tasks_conflict
                (mkListInput spaceId status date dateFrom dateTo)
                d f t Hd Hf Ht C) as (e & E & Hc).
    eexists. split; [exact E|]. split; [apply errorResult_shape|].
    rewrite errorResult_code, Hc. reflexivity.
Qed.
End DateConflicts.

Lemma conflicting_dates_rejected_witness :
  exists r,
    invoke sample_host sample_config
           (call_search_entities
              (mkSearchInput None (Some "note") None None
                             (Some "2026-02-19") (Some "yesterday") None))
    = ([], Ok r) /\
    error_shape r /\ error_code_of r = Some "validation_error".
Proof.
  apply (proj1 (conflicting_dates_rejected
                  sample_host sample_config
                  None (Some "2026-02-19") (Some "yesterday")
                  None (Some "2026-02-19") (Some "2026-02-18")
                  eq_refl eq_refl eq_refl
                  ltac:(right; right; right; do 2 eexists;
                        repeat split; reflexivity))).
Defined.

(** ** mutation-tools.ts *)

Section Mutations.
Import JsString.
Variable host : Host.
Variable config : CapacitiesConfig.

Lemma trimToUndefined_Some s :
  trim s <> EmptyString ->
  exists c r, trim s = String c r /\ trimToUndefined (Some s) = Some (String c r).
Proof.
  intros H. unfold trimToUndefined. destruct s as [|a s]; [elim H; reflexivity|].
  cbv zeta. destruct (trim (String a s)) as [|c r]; [congruence|].
  exists c, r. split; reflexivity.
Qed.

Lemma normalizeNullableText_defined value name v :
  normalizeNullableText value name = Ok v ->
  is_undefined v = is_undefined value.
Proof.
  unfold normalizeNullableText. destruct value as [| |x].
  - intros H. injection H as <-. reflexivity.
  - intros H. injection H as <-. reflexivity.
  - destruct (trimToUndefined (Some x)) as [[|c t]|]; try discriminate.
    intros H. injection H as <-. reflexivity.
Qed.

Lemma normalizeNullableDate_defined value v :
  normalizeNullableDate host value = Ok v ->
  is_undefined v = is_undefined value.
Proof.
  unfold normalizeNullableDate. destruct value as [| |x].
  - intros H. injection H as <-. reflexivity.
  - intros H. injection H as <-. reflexivity.
  - destruct (trimToUndefined (Some x)) as [[|c t]|]; try discriminate.
    destruct (normalizeDateInput _ _ _); [|discriminate].
    intros H. injection H as <-. reflexivity.
Qed.

Lemma normalizeUpdateTaskInput_valid input description dueDate :
  update_fields_valid host input description dueDate ->
  some_update_field input ->
  normalizeUpdateTaskInput host config input =
    spaceId ← resolveSpaceId (ur_spaceId input) config;
    Ok {| ut_taskId := trim (ur_taskId input);
          ut_spaceId := Some spaceId;
          ut_title := option_map trim (ur_title input);
          ut_description := description;
          ut_dueDate := dueDate;
          ut_status := ur_status input |}.
Proof.
  intros (Hid & Htitle & Hdesc & Hdue) Hsome.
  unfold normalizeUpdateTaskInput.
  destruct (trimToUndefined_Some _ Hid) as (c & r & E & ->). rewrite E.
  assert (T : match ur_title input with
              | Some v => trimToUndefined (Some v)
              | None => None
              end = option_map trim (ur_title input) /\
              (match ur_title input with Some _ => true | None => false end
               && negb (present (option_map trim (ur_title input))) = false)).
  { destruct (ur_title input) as [v|]; [|split; reflexivity].
    destruct (trimToUndefined_Some v (Htitle v eq_refl)) as (c' & r' & E' & ->).
    cbn [option_map]. rewrite E'. split; reflexivity. }
  destruct T as [-> ->].
  rewrite Hdesc, Hdue. cbn [mbind result_bind].
  rewrite (normalizeNullableText_defined _ _ _ Hdesc),
    (normalizeNullableDate_defined _ _ Hdue).
  replace (_ && _ && _ && _) with false; [reflexivity|].
  symmetry.
  destruct (ur_title input) eqn:E1; [reflexivity|].
  destruct (ur_description input) eqn:E2; try reflexivity.
  destruct (ur_dueDate input) eqn:E3; try reflexivity.
  destruct (ur_status input) eqn:E4; [reflexivity|].
  destruct Hsome as [H | [H | [H | H]]]; congruence.
Qed.

Lemma update_task_no_field input :
  trim (ur_taskId input) <> EmptyString ->
  ur_title input = None -> ur_description input = Undefined ->
  ur_dueDate input = Undefined -> ur_status input = None ->
  normalizeUpdateTaskInput host config input =
    throw (createValidationError
             "Provide at least one update field: title, description, dueDate, or status.").
Proof.
  intros Hid Ht Hd Hdue Hs. unfold normalizeUpdateTaskInput.
  destruct (trimToUndefined_Some _ Hid) as (c & r & E & ->).
  rewrite Ht, Hd, Hdue, Hs. reflexivity.
Qed.

Lemma update_task_by_payload input :
  invoke host config (call_update_task input) =
    match normalizeUpdateTaskInput host config input with
    | Ok payload =>
        ([], Ok (unsupportedResult host "update_task" update_unsupported_message
                   [("requestedUpdate", json_of_update payload);
                    ("availableEndpoints", AVAILABLE_ENDPOINTS)]))
    | Throw t => ([], Ok (errorResult "update_task" t))
    end.
Proof.
  unfold invoke. cbn [handler]. unfold update_task.
  rewrite catch_cases, lift_bind.
  destruct (normalizeUpdateTaskInput host config input); reflexivity.
Qed.

(** C8.  An update_task call with a non-empty taskId and none of title,
    description, dueDate and status fails with validation_error.  With
    at least one of them supplied (null counts for description and
    dueDate), once the supplied fields pass their own checks and the
    space identifier resolves, the call returns the explicit-unsupported
    shape with the normalised request. *)
Theorem update_task_needs_a_field (input : UpdateTaskRaw) :
  trim (ur_taskId input) <> EmptyString ->
  (ur_title input = None -> ur_description input = Undefined ->
   ur_dueDate input = Undefined -> ur_status input = None ->
   exists r,
     invoke host config (call_update_task input) = ([], Ok r) /\
     error_shape r /\ error_code_of r = Some "validation_error") /\
  (some_update_field input ->
   forall description dueDate space,
     update_fields_valid host input description dueDate ->
     resolveSpaceId (ur_spaceId input) config = Ok space ->
     exists r,
       invoke host config (call_update_task input) = ([], Ok r) /\
       unsupported_shape r /\
       r = unsupportedResult host "update_task" update_unsupported_message
             [("requestedUpdate",
               json_of_update {| ut_taskId := trim (ur_taskId input);
                                 ut_spaceId := Some space;
                                 ut_title := option_map trim (ur_title input);
                                 ut_description := description;
                                 ut_dueDate := dueDate;
                                 ut_status := ur_status input |});
              ("availableEndpoints", AVAILABLE_ENDPOINTS)]).
Proof.
  intros Hid. split.
  - intros Ht Hd Hdue Hs. rewrite update_task_by_payload.
    rewrite (update_task_no_field input Hid Ht Hd Hdue Hs).
    eexists. split; [reflexivity|]. split; [apply errorResult_shape | reflexivity].
  - intros Hsome description dueDate space Hv Hr.
    rewrite update_task_by_payload.
    rewrite (normalizeUpdateTaskInput_valid input description dueDate Hv Hsome), Hr.
    cbn [mbind result_bind].
    eexists. split; [reflexivity|]. split; [apply unsupportedResult_shape | reflexivity].
Qed.
End Mutations.

Lemma update_task_needs_a_field_witness :
  (exists r,
     invoke sample_host sample_config
            (call_update_task (mkUpdateRaw "t1" None None Undefined Undefined None))
     = ([], Ok r) /\
     error_shape r /\ error_code_of r = Some "validation_error") /\
  (exists r,
     invoke sample_host sample_config
            (call_update_task (mkUpdateRaw "t1" None None Null Undefined None))
     = ([], Ok r) /\
     unsupported_shape r).
Proof.
  pose proof (update_task_needs_a_field
                sample_host sample_config
                (mkUpdateRaw "t1" None None Undefined Undefined None)
                ltac:(discriminate)) as [A _].
  pose proof (update_task_needs_a_field
                sample_host sample_config
                (mkUpdateRaw "t1" None None Null Undefined None)
                ltac:(discriminate)) as [_ B].
  split.
  - apply A; reflexivity.
  - destruct (B ltac:(right; left; discriminate) Null Undefined sample_space)
      as (r & Hr & U & _).
    + repeat split; try reflexivity; try discriminate.
    + reflexivity.
    + exists r. split; [exact Hr | exact U].
Defined.

(** ** get_entity_by_id *)

(** C9, as the specification states it: with no spaceId in the input and a
    default space configured, the echoed entity carries the default space,
    a value the call did not receive. *)
Lemma get_entity_by_id_echo_counterexample :
  exists r entity,
    invoke sample_host sample_config
           (call_get_entity_by_id (mkEntityInput "e1" "RootPage" None))
    = ([], Ok r) /\
    requested_entity r = Some (JObj entity) /\
    ei_spaceId (mkEntityInput "e1" "RootPage" None) = None /\
    assoc "spaceId" entity = Some (JStr sample_space).
Proof. do 2 eexists. repeat split. Qed.

(** C9 (amended).  Whatever its input, get_entity_by_id issues no request
    and returns the explicit-unsupported shape, never the success or the
    error shape.  The payload echoes the entityId and the structureId it
    received, and as spaceId the one it received or, when none came, the
    configured default space, or null when there is none. *)
Theorem get_entity_by_id_unsupported
        (host : Host) (config : CapacitiesConfig) (input : GetEntityInput) :
  exists r,
    invoke host config (call_get_entity_by_id input) = ([], Ok r) /\
    unsupported_shape r /\ ~ success_shape r /\ ~ error_shape r /\
    requested_entity r =
      Some (JObj [("entityId", JStr (ei_entityId input));
                  ("structureId", JStr (ei_structureId input));
                  ("spaceId",
                   match ei_spaceId input, defaultSpaceId config with
                   | Some s, _ => JStr s
                   | None, Some d => JStr d
                   | None, None => JNull
                   end)]).
Proof.
  eexists. split; [reflexivity|].
  pose proof (exactly_unsupported _ (unsupportedResult_shape
                host "get_entity_by_id"
                "Capacities public API does not provide a documented endpoint to fetch an entity by ID and structure."
                [("requestedEntity",
                  JObj [("entityId", JStr (ei_entityId input));
                        ("structureId", JStr (ei_structureId input));
                        ("spaceId",
                         match ei_spaceId input with
                         | Some s => JStr s
                         | None =>
                             match defaultSpaceId config with
                             | Some d => JStr d
                             | None => JNull
                             end
                         end)]);
                 ("availableEndpoints", AVAILABLE_ENDPOINTS)]))
    as [(S & _) | [(NS & U & NE) | (_ & NU & _)]].
  - destruct S as (S & _). discriminate.
  - split; [exact U|]. split; [exact NS|]. split; [exact NE|].
    unfold requested_entity. cbn. destruct (ei_spaceId input); reflexivity.
  - elim NU. apply unsupportedResult_shape.
Qed.

(** ** The mutation tools need a space identifier *)

Section MutationsSpace.
Import JsString.
Variable host : Host.
Variable config : CapacitiesConfig.

Lemma resolveSpaceId_fails spaceId :
  let winner := winning_candidate spaceId config in
  winner = EmptyString \/ ~ canonical_uuid_shape winner ->
  exists e,
    resolveSpaceId spaceId config = throw e /\
    code_name (code e) = space_error_code winner.
Proof.
  cbv zeta. intros H. rewrite resolveSpaceId_by_winner.
  destruct (winning_candidate spaceId config) as [|c r] eqn:W.
  - eexists. split; reflexivity.
  - destruct H as [H | H]; [discriminate|].
    destruct (isUuid (String c r)) eqn:U.
    + elim H. apply isUuid_iff, U.
    + eexists. split; reflexivity.
Qed.

Lemma error_not_unsupported name t : ~ unsupported_shape (errorResult name t).
Proof. intros (U & _). discriminate. Qed.

Lemma create_task_fails_on_space input e :
  trim (cr_title input) <> EmptyString ->
  resolveSpaceId (cr_spaceId input) config = throw e ->
  invoke host config (call_create_task input)
  = ([], Ok (errorResult "create_task" (ThrownCapacities e))).
Proof.
  intros Ht Hr. unfold invoke. cbn [handler]. unfold create_task.
  rewrite catch_cases, lift_bind. unfold normalizeCreateTaskInput.
  destruct (trimToUndefined_Some _ Ht) as (c & r & _ & ->).
  rewrite Hr. reflexivity.
Qed.

Lemma complete_task_fails_on_space input e :
  trim (kr_taskId input) <> EmptyString ->
  resolveSpaceId (kr_spaceId input) config = throw e ->
  invoke host config (call_complete_task input)
  = ([], Ok (errorResult "complete_task" (ThrownCapacities e))).
Proof.
  intros Ht Hr. unfold invoke. cbn [handler]. unfold complete_task.
  rewrite catch_cases, lift_bind. unfold normalizeCompleteTaskInput.
  destruct (trimToUndefined_Some _ Ht) as (c & r & _ & ->).
  rewrite Hr. reflexivity.
Qed.

Lemma update_task_fails_on_space input description dueDate e :
  update_fields_valid host input description dueDate ->
  some_update_field input ->
  resolveSpaceId (ur_spaceId input) config = throw e ->
  invoke host config (call_update_task input)
  = ([], Ok (errorResult "update_task" (ThrownCapacities e))).
Proof.
  intros Hv Hs Hr. rewrite update_task_by_payload.
  rewrite (normalizeUpdateTaskInput_valid host config input description dueDate Hv Hs).
  rewrite Hr. reflexivity.
Qed.

(** C10.  When the space identifier of a create_task, update_task or
    complete_task call does not resolve (none in the input and no
    default, or a winning candidate that is no UUID) and the input is
    otherwise valid, the handler returns the error shape, with
    config_error in the first case and validation_error in the second,
    and not the explicit-unsupported shape. *)
Theorem mutation_tools_need_a_space (spaceId : option string) :
  let winner := winning_candidate spaceId config in
  winner = EmptyString \/ ~ canonical_uuid_shape winner ->
  (forall title description dueDate,
     trim title <> EmptyString ->
     exists r,
       invoke host config
              (call_create_task (mkCreateRaw spaceId title description dueDate))
       = ([], Ok r) /\
       error_shape r /\ ~ unsupported_shape r /\
       error_code_of r = Some (space_error_code winner)) /\
  (forall taskId title description dueDate status description' dueDate',
     update_fields_valid
       host (mkUpdateRaw taskId spaceId title description dueDate status)
       description' dueDate' ->
     some_update_field (mkUpdateRaw taskId spaceId title description dueDate status) ->
     exists r,
       invoke host config
              (call_update_task
                 (mkUpdateRaw taskId spaceId title description dueDate status))
       = ([], Ok r) /\
       error_shape r /\ ~ unsupported_shape r /\
       error_code_of r = Some (space_error_code winner)) /\
  (forall taskId completed,
     trim taskId <> EmptyString ->
     exists r,
       invoke host config (call_complete_task (mkCompleteRaw taskId spaceId completed))
       = ([], Ok r) /\
       error_shape r /\ ~ unsupported_shape r /\
       error_code_of r = Some (space_error_code winner)).
Proof.
  cbv zeta. intros H.
  destruct (resolveSpaceId_fails spaceId H) as (e & Hr & Hc).
  split; [|split].
  - intros title description dueDate Ht.
    eexists. split.
    { apply (create_task_fails_on_space
               (mkCreateRaw spaceId title description dueDate) e Ht Hr). }
    split; [apply errorResult_shape|]. split; [apply error_not_unsupported|].
    rewrite errorResult_code, Hc. reflexivity.
  - intros taskId title description dueDate status description' dueDate' Hv Hs.
    eexists. split.
    { apply (update_task_fails_on_space _ description' dueDate' e Hv Hs Hr). }
    split; [apply errorResult_shape|]. split; [apply error_not_unsupported|].
    rewrite errorResult_code, Hc. reflexivity.
  - intros taskId completed Ht.
    eexists. split.
    { apply (complete_task_fails_on_space
               (mkCompleteRaw taskId spaceId completed) e Ht Hr). }
    split; [apply errorResult_shape|]. split; [apply error_not_unsupported|].
    rewrite errorResult_code, Hc. reflexivity.
Qed.
End MutationsSpace.

Lemma mutation_tools_need_a_space_witness :
  (exists r,
     invoke sample_host bare_config
            (call_create_task (mkCreateRaw None "Buy milk" None None))
     = ([], Ok r) /\
     error_shape r /\ ~ unsupported_shape r /\
     error_code_of r = Some "config_error") /\
  (exists r,
     invoke sample_host bare_config
            (call_complete_task (mkCompleteRaw "t1" (Some "home") None))
     = ([], Ok r) /\
     error_shape r /\ ~ unsupported_shape r /\
     error_code_of r = Some "validation_error").
Proof.
  split.
  - apply (proj1 (mutation_tools_need_a_space
                    sample_host bare_config None ltac:(left; reflexivity))).
    discriminate.
  - apply (proj2 (proj2 (mutation_tools_need_a_space
                           sample_host bare_config (Some "home")
                           ltac:(right; intros U; apply isUuid_iff in U;
                                 vm_compute in U; discriminate)))).
    discriminate.
Defined.

(** ** search_entities: the type filter *)

Section TypeFilter.
Import JsString.

Lemma getOptionalStringField_pluralName s :
  getOptionalStringField s "pluralName" =
    match assoc "pluralName" (structure_extra s) with
    | Some (JStr p) => Some p
    | _ => None
    end.
Proof. reflexivity. Qed.

Lemma matches_type_iff ty s : matches_type ty s = true <-> type_matches ty s.
Proof.
  unfold matches_type, type_matches.
  rewrite getOptionalStringField_pluralName.
  rewrite !orb_true_iff, !String.eqb_eq. split.
  - intros [[H | H] | H]; [right; left; exact H | left; exact H |].
    right. right.
    destruct (assoc "pluralName" (structure_extra s)) as [[| | | |p| |]|];
      try discriminate.
    exists p. split; [reflexivity|]. apply String.eqb_eq, H.
  - intros [H | [H | (p & E & H)]]; [left; right; exact H | left; left; exact H |].
    right. rewrite E. apply String.eqb_eq, H.
Qed.

Lemma resolve_fold ty (l : list CapacitiesStructureInfo) (acc : gset string) x :
  x ∈ fold_left
        (fun (ids : gset string) s =>
           if matches_type ty s then {[ structure_id s ]} ∪ ids else ids)
        l acc
  <-> x ∈ acc \/ exists s, In s l /\ structure_id s = x /\ matches_type ty s = true.
Proof.
  revert acc. induction l as [|s l IH]; intros acc; cbn [fold_left].
  - split; [auto|]. intros [H | (s & [] & _)]. exact H.
  - rewrite IH. destruct (matches_type ty s) eqn:M.
    + rewrite elem_of_union, elem_of_singleton. split.
      * intros [[-> | H] | (s' & Hin & E & M')].
        -- right. exists s. split; [left; reflexivity|]. split; [reflexivity | exact M].
        -- left. exact H.
        -- right. exists s'. split; [right; exact Hin|]. split; assumption.
      * intros [H | (s' & [-> | Hin] & E & M')].
        -- left. right. exact H.
        -- left. left. symmetry. exact E.
        -- right. exists s'. split; [exact Hin|]. split; assumption.
    + split.
      * intros [H | (s' & Hin & E & M')]; [left; exact H|].
        right. exists s'. split; [right; exact Hin|]. split; assumption.
      * intros [H | (s' & [-> | Hin] & E & M')]; [left; exact H | congruence |].
        right. exists s'. split; [exact Hin|]. split; assumption.
Qed.

(** The allowed structure ids are the ids of the matching structures. *)
Lemma resolveStructureIdsByType_spec ty structures x :
  x ∈ resolveStructureIdsByType ty structures
  <-> exists s, In s structures /\ structure_id s = x /\ type_matches ty s.
Proof.
  unfold resolveStructureIdsByType. cbv zeta.
  change (x ∈ fold_left
                (fun (ids : gset string) s =>
                   if matches_type ty s then {[ structure_id s ]} ∪ ids else ids)
                structures ∅
          <-> exists s, In s structures /\ structure_id s = x /\ type_matches ty s).
  rewrite resolve_fold. split.
  - intros [H | (s & Hin & E & M)]; [set_solver|].
    exists s. split; [exact Hin|]. split; [exact E|]. apply matches_type_iff, M.
  - intros (s & Hin & E & M). right.
    exists s. split; [exact Hin|]. split; [exact E|]. apply matches_type_iff, M.
Qed.

(** A result is kept by membership when some structure matched, else by
    its own structure id against the raw filter. *)
Lemma matchesTypeFilter_spec r ty (allowed : gset string) :
  matchesTypeFilter r ty allowed = true <->
  (allowed <> ∅ /\ result_structureId r ∈ allowed) \/
  (allowed = ∅ /\
   toLowerCase (result_structureId r) = toLowerCase ty).
Proof.
  unfold matchesTypeFilter.
  destruct (0 <? size allowed)%nat eqn:E.
  - apply Nat.ltb_lt in E.
    assert (N : allowed <> ∅).
    { intros ->. rewrite size_empty in E. lia. }
    rewrite bool_decide_eq_true. split; [intros H; left; split; assumption|].
    intros [[_ H] | [H _]]; [exact H | contradiction].
  - apply Nat.ltb_ge in E.
    assert (Z0 : allowed = ∅).
    { apply leibniz_equiv, size_empty_iff. lia. }
    rewrite String.eqb_eq. split; [intros H; right; split; assumption|].
    intros [[H _] | [_ H]]; [contradiction | exact H].
Qed.
End TypeFilter.

Section TypeFilterHandler.
Import JsString.
Variable host : Host.
Variable config : CapacitiesConfig.

Lemma trimToUndefined_not_empty v s : trimToUndefined v = Some s -> s <> EmptyString.
Proof.
  unfold trimToUndefined. destruct v as [[|c v]|]; try discriminate.
  cbv zeta. destruct (trim (String c v)); [discriminate|].
  intros H. injection H as <-. discriminate.
Qed.

Lemma type_note_is_not_date_note ty : type_note ty <> date_note.
Proof. discriminate. Qed.

Lemma search_entities_typed input filters space text ty L S log1 log2 :
  normalizeSearchEntitiesFilters host input = Ok filters ->
  resolveSpaceId (sf_spaceId filters) config = Ok space ->
  sf_text filters = Some text ->
  sf_type filters = Some ty ->
  lookup host config text (Some space) [] = (log1, Ok L) ->
  getSpaceInfo host config (Some space) log1 = (log2, Ok S) ->
  let allowed := resolveStructureIdsByType ty (structures S) in
  let kept := List.filter (fun r => matchesTypeFilter r ty allowed) (results L) in
  let notes :=
    ((match kept with [] => [type_note ty] | _ => [] end)
     ++ (if present (sf_date filters) || present (sf_dateFrom filters)
            || present (sf_dateTo filters)
         then [date_note] else []))%list in
  let limited := slice0 kept (sf_limit filters) in
  invoke host config (call_search_entities input) =
    (log2,
     Ok {| content :=
             toTextContent
               (renderSearchEntitiesMarkdown filters limited (length_number kept) notes);
           structuredContent :=
             [("tool", JStr "search_entities");
              ("query", json_of_search_filters filters);
              ("totalResultsBeforeLimit", JNum (length_number kept));
              ("returnedResults", JNum (length_number limited));
              ("unsupportedNotes", JArr (map JStr notes));
              ("results", JArr (map json_of_lookup_result limited))];
           isError := None |}).
Proof.
  intros N R T Ty HL HS. cbv zeta.
  destruct (normalizeSearchEntitiesFilters_Ok host _ _ N) as (d & f & t & _ & _ & _ & _ & E).
  assert (Tne : text <> EmptyString).
  { apply (trimToUndefined_not_empty (si_text input)). rewrite <- T, E. reflexivity. }
  assert (Tyne : ty <> EmptyString).
  { apply (trimToUndefined_not_empty (si_type input)). rewrite <- Ty, E. reflexivity. }
  destruct text as [|c text]; [congruence|].
  destruct ty as [|c' ty]; [congruence|].
  unfold invoke. cbn [handler]. unfold search_entities.
  rewrite catch_cases, lift_bind, N, lift_bind, R, T.
  unfold mbind at 1. unfold io_bind at 1. rewrite HL.
  rewrite Ty.
  unfold mbind at 1. unfold io_bind at 1.
  unfold mbind at 1. unfold io_bind at 1. rewrite HS.
  unfold mret, io_ret.
  destruct (List.filter _ (results L)) as [|r0 kept];
    destruct (present (sf_date filters) || present (sf_dateFrom filters)
              || present (sf_dateTo filters)); reflexivity.
Qed.

(** C3 (amended).  For a search_entities call with text and a type
    filter whose lookup and structure metadata arrive: the allowed
    structure ids are the ids of the structures whose id, title or
    plural name equals the filter, case apart; a lookup result is kept
    iff its structure id is allowed, when some structure is allowed, and
    iff its structure id equals the raw filter, case apart, when none
    is; the payload is built from the kept results; and the note that no
    result matched the type filter is there iff no result was kept. *)
Theorem search_entities_type_filter
        (input : SearchEntitiesInput) (filters : SearchEntitiesFilters)
        (space text ty : string)
        (L : CapacitiesLookupResponse) (S : CapacitiesSpaceInfoResponse)
        (log1 log2 : list request) :
  normalizeSearchEntitiesFilters host input = Ok filters ->
  resolveSpaceId (sf_spaceId filters) config = Ok space ->
  sf_text filters = Some text ->
  sf_type filters = Some ty ->
  lookup host config text (Some space) [] = (log1, Ok L) ->
  getSpaceInfo host config (Some space) log1 = (log2, Ok S) ->
  let allowed := resolveStructureIdsByType ty (structures S) in
  let kept := List.filter (fun r => matchesTypeFilter r ty allowed) (results L) in
  (forall x, x ∈ allowed <->
             exists s, In s (structures S) /\ structure_id s = x /\ type_matches ty s) /\
  (forall r, In r kept <->
             In r (results L) /\
             ((allowed <> ∅ /\ result_structureId r ∈ allowed) \/
              (allowed = ∅ /\
               toLowerCase (result_structureId r) = toLowerCase ty))) /\
  exists res notes,
    invoke host config (call_search_entities input) = (log2, Ok res) /\
    success_shape res /\
    assoc "totalResultsBeforeLimit" (structuredContent res)
    = Some (JNum (length_number kept)) /\
    assoc "results" (structuredContent res)
    = Some (JArr (map json_of_lookup_result (slice0 kept (sf_limit filters)))) /\
    assoc "unsupportedNotes" (structuredContent res) = Some (JArr (map JStr notes)) /\
    (In (type_note ty) notes <-> kept = []).
Proof.
  intros N R T Ty HL HS allowed kept.
  split; [intros x; apply resolveStructureIdsByType_spec|].
  split.
  { intros r. unfold kept. rewrite filter_In, matchesTypeFilter_spec. reflexivity. }
  pose proof (search_entities_typed input filters space text ty L S log1 log2
                                    N R T Ty HL HS) as E.
  cbv zeta in E. fold allowed in E. fold kept in E.
  do 2 eexists. split; [exact E|].
  split; [repeat split|]. split; [reflexivity|]. split; [reflexivity|].
  split; [reflexivity|].
  destruct kept as [|r0 kept'].
  - split; [reflexivity|]. intros _. left. reflexivity.
  - split; [|discriminate]. cbn [app].
    destruct (_ || _ || _); [|intros []].
    intros [H | []]. symmetry in H. elim (type_note_is_not_date_note ty H).
Qed.
End TypeFilterHandler.

(** C3, as the specification states its last part: no structure matches
    the type WEIRD, one result is kept by its own structure id, and the
    payload carries no note. *)
Lemma search_entities_type_note_counterexample :
  resolveStructureIdsByType
    "WEIRD"
    [mkStructure "RootPage" "Page" [("pluralName", JStr "Pages")];
     mkStructure "DailyNote" "Daily Note" []] = ∅ /\
  exists requests r,
    invoke sample_host sample_config
           (call_search_entities
              (mkSearchInput None (Some "note") (Some "WEIRD") None None None None))
    = (requests, Ok r) /\
    assoc "totalResultsBeforeLimit" (structuredContent r) = Some (JNum 1) /\
    assoc "unsupportedNotes" (structuredContent r) = Some (JArr []).
Proof.
  split; [vm_compute; reflexivity|].
  do 2 eexists. split; [vm_compute; reflexivity|]. split; reflexivity.
Qed.

Lemma search_entities_type_filter_witness :
  exists res notes,
    invoke sample_host sample_config
           (call_search_entities
              (mkSearchInput None (Some "note") (Some "pages") None None None None))
    = ([mkRequest POST "/lookup" []
                  (Some [("searchTerm", JStr "note"); ("spaceId", JStr sample_space)]);
        mkRequest GET "/space-info" [("spaceid", sample_space)] None],
       Ok res) /\
    assoc "results" (structuredContent res)
    = Some (JArr [json_of_lookup_result (mkLookupResult "e1" "RootPage" "A")]) /\
    assoc "unsupportedNotes" (structuredContent res) = Some (JArr (map JStr notes)) /\
    ~ In (type_note "pages") notes.
Proof.
  destruct (search_entities_type_filter
              sample_host sample_config
              (mkSearchInput None (Some "note") (Some "pages") None None None None)
              (mkSearchFilters None (Some "note") (Some "pages") None None None 20)
              sample_space "note" "pages"
              {| results := [mkLookupResult "e1" "RootPage" "A";
                             mkLookupResult "e2" "DailyNote" "B";
                             mkLookupResult "e3" "weird" "C"] |}
              {| structures :=
                   [mkStructure "RootPage" "Page" [("pluralName", JStr "Pages")];
                    mkStructure "DailyNote" "Daily Note" []] |}
              [mkRequest POST "/lookup" []
                         (Some [("searchTerm", JStr "note");
                                ("spaceId", JStr sample_space)])]
              [mkRequest POST "/lookup" []
                         (Some [("searchTerm", JStr "note");
                                ("spaceId", JStr sample_space)]);
               mkRequest GET "/space-info" [("spaceid", sample_space)] None]
              eq_refl eq_refl eq_refl eq_refl eq_refl eq_refl)
    as (_ & _ & res & notes & E & _ & _ & Hres & Hnotes & Hnote).
  exists res, notes. split; [exact E|]. split; [exact Hres|]. split; [exact Hnotes|].
  intros H. apply Hnote in H. vm_compute in H. discriminate.
Defined.

(** * Further properties *)

(** ** errors.ts: createHttpError on every status *)

Section HttpErrors.
Import JsString.

Lemma prefix_self s : String.prefix s s = true.
Proof. rewrite <- (app_empty_r s) at 2. apply prefix_app. Qed.

Lemma includes_self s : includes s s = true.
Proof. apply includes_prefix, prefix_self. Qed.

(** Every branch builds its message the same way. *)
Lemma createHttpError_message response :
  exists middle,
    message (createHttpError response)
    = status_prefix (resp_status response) +:+ middle +:+ response_hint response.
Proof.
  unfold createHttpError. fold (response_hint response).
  fold (status_prefix (resp_status response)).
  generalize (status_prefix (resp_status response)) (response_hint response).
  intros P H.
  destruct (resp_status response =? 401); [exists " Unauthorized."; reflexivity|].
  destruct (resp_status response =? 404); [exists " Not found."; reflexivity|].
  destruct (resp_status response =? 429).
  { cbn [message]. eexists. rewrite <- (app_assoc_string " Rate limit exceeded.").
    reflexivity. }
  destruct (_ || _ || _); [exists " Server error."; reflexivity|].
  destruct (400 <=? _); exists EmptyString; reflexivity.
Qed.

Lemma createHttpError_code response :
  code (createHttpError response)
  = if resp_status response =? 429 then rate_limit else api_error.
Proof.
  unfold createHttpError.
  destruct (resp_status response =? 401) eqn:E1.
  { apply Z.eqb_eq in E1. rewrite E1. reflexivity. }
  destruct (resp_status response =? 404) eqn:E2.
  { apply Z.eqb_eq in E2. rewrite E2. reflexivity. }
  destruct (resp_status response =? 429); [reflexivity|].
  destruct (_ || _ || _); [reflexivity|].
  destruct (400 <=? _); reflexivity.
Qed.

Lemma createHttpError_status response :
  status (createHttpError response) = Some (resp_status response).
Proof.
  unfold createHttpError.
  repeat match goal with
         | |- context [if ?c then mkCapacitiesError _ _ _ _ else _] => destruct c
         end; reflexivity.
Qed.

(** X1.  Whatever the status, the error of a response carries that status, is
    a rate_limit for 429 and an api_error otherwise, and has a message
    that starts with the status sentence and, when the trimmed body is
    not empty, ends with that body. *)
Theorem createHttpError_classification (response : Response) :
  let e := createHttpError response in
  status e = Some (resp_status response) /\
  (code e = rate_limit <-> resp_status response = 429) /\
  (code e = rate_limit \/ code e = api_error) /\
  String.prefix (status_prefix (resp_status response)) (message e) = true /\
  exists before,
    message e = before +:+ response_hint response /\
    (trim (resp_text response) <> EmptyString ->
     response_hint response = " Response: " +:+ trim (resp_text response)).
Proof.
  cbv zeta. split; [apply createHttpError_status|].
  rewrite createHttpError_code.
  split.
  { destruct (resp_status response =? 429) eqn:E.
    - apply Z.eqb_eq in E. split; [intros _; exact E | reflexivity].
    - apply Z.eqb_neq in E. split; [discriminate | contradiction]. }
  split; [destruct (_ =? _); [left | right]; reflexivity|].
  destruct (createHttpError_message response) as (middle & ->).
  split; [apply prefix_app|].
  exists (status_prefix (resp_status response) +:+ middle).
  split; [rewrite app_assoc_string; reflexivity|].
  intros H. unfold response_hint.
  destruct (trim (resp_text response)); [congruence | reflexivity].
Qed.
End HttpErrors.
(** ** capacities-client.ts: requestJson *)

Section RequestJson.
Import JsString.
Variable host : Host.
Context {T : Type}.
Variables (method : http_method) (path : string) (query : list (string * string))
          (body : option (list (string * json))) (parse : string -> option T).

Lemma requestJson_log log :
  fst (requestJson host method path query body parse log)
  = (log ++ [mkRequest method path query body])%list.
Proof. reflexivity. Qed.

Lemma requestJson_result log :
  snd (requestJson host method path query body parse log)
  = match requestJson_try method path
            (fetchImpl host log (mkRequest method path query body)) parse with
    | Ok v => Ok v
    | Throw error => Throw (ThrownCapacities (normalizeCapacitiesError error))
    end.
Proof. reflexivity. Qed.

Lemma requestJson_try_Ok outcome v :
  requestJson_try method path outcome parse = Ok v <->
  exists response,
    outcome = Resolved response /\ resp_ok response = true /\
    trim (resp_text response) <> EmptyString /\
    parse (resp_text response) = Some v.
Proof.
  unfold requestJson_try. destruct outcome as [t|response|st t].
  - split; [discriminate|]. intros (r & H & _). discriminate.
  - destruct (resp_ok response) eqn:O; cbn [negb].
    + destruct (trim (resp_text response)) as [|c s] eqn:B; cbn [truthy negb].
      * split; [discriminate|]. intros (r & H & _ & N & _).
        injection H as <-. rewrite B in N. congruence.
      * destruct (parse (resp_text response)) as [w|] eqn:P.
        -- split.
           ++ intros H. injection H as <-. exists response.
              rewrite B. repeat split; try assumption. discriminate.
           ++ intros (r & H & _ & _ & P'). injection H as <-.
              rewrite P in P'. congruence.
        -- split; [discriminate|]. intros (r & H & _ & _ & P').
           injection H as <-. rewrite P in P'. discriminate.
    + split; [discriminate|]. intros (r & H & O' & _).
      injection H as <-. rewrite O in O'. discriminate.
  - destruct (negb _); (split; [discriminate|]); intros (r & H & _); discriminate.
Qed.

Lemma requestJson_try_unread st x :
  requestJson_try method path (BodyRejected st x) parse = Throw x.
Proof. unfold requestJson_try. destruct (negb _); reflexivity. Qed.

Lemma requestJson_try_Throw response t :
  requestJson_try method path (Resolved response) parse = Throw t ->
  exists e, t = ThrownCapacities e /\ response_failure response e.
Proof.
  unfold requestJson_try, response_failure.
  destruct (negb (resp_ok response)).
  { intros H. injection H as <-. eexists. split; [reflexivity|].
    rewrite createHttpError_status, createHttpError_code.
    split; [reflexivity|]. destruct (_ =? 429); [right | left]; reflexivity. }
  destruct (negb (truthy (trim (resp_text response)))).
  { intros H. injection H as <-. eexists. split; [reflexivity|].
    split; [reflexivity | left; reflexivity]. }
  destruct (parse (resp_text response)); [discriminate|].
  intros H. injection H as <-. eexists. split; [reflexivity|].
  split; [reflexivity | left; reflexivity].
Qed.

(** X2.  One call of requestJson issues exactly one request, the one it was
    asked for.  It returns a value exactly when fetch resolves with a 2xx
    status and a body that is read, is not blank and parses, and the value
    is that parse.  Whatever it throws is a classified error: the
    rejection of fetch, classified (network_error unless it was classified
    already); the rejection of reading the body of the response,
    classified the same way, whatever the status; or, for a response whose
    body was read, an api_error or rate_limit with the status of the
    response. *)
Theorem requestJson_contract (log : list request) :
  let req := mkRequest method path query body in
  let out := requestJson host method path query body parse log in
  fst out = (log ++ [req])%list /\
  (forall v,
     snd out = Ok v <->
     exists response,
       fetchImpl host log req = Resolved response /\ resp_ok response = true /\
       trim (resp_text response) <> EmptyString /\
       parse (resp_text response) = Some v) /\
  (forall t,
     snd out = Throw t ->
     exists e,
       t = ThrownCapacities e /\
       (forall x, fetchImpl host log req = Rejected x ->
                  e = normalizeCapacitiesError x) /\
       (forall response, fetchImpl host log req = Resolved response ->
                         response_failure response e) /\
       (forall st x, fetchImpl host log req = BodyRejected st x ->
                     e = normalizeCapacitiesError x)).
Proof.
  cbv zeta. split; [apply requestJson_log|]. rewrite requestJson_result.
  split.
  - intros v. rewrite <- requestJson_try_Ok.
    destruct (requestJson_try _ _ _ _); split; congruence.
  - intros t.
    destruct (fetchImpl host log (mkRequest method path query body))
      as [x|response|st x] eqn:F.
    + cbn [requestJson_try]. intros H. injection H as <-.
      eexists. split; [reflexivity|].
      split; [|split; discriminate].
      intros x' H. injection H as <-. reflexivity.
    + destruct (requestJson_try method path (Resolved response) parse)
        as [v|t'] eqn:R; [discriminate|].
      intros H. injection H as <-.
      destruct (requestJson_try_Throw _ _ R) as (e & -> & Hf).
      exists e. split; [reflexivity|]. split; [discriminate|].
      split; [|discriminate].
      intros r H. injection H as <-. exact Hf.
    + rewrite requestJson_try_unread. intros H. injection H as <-.
      eexists. split; [reflexivity|].
      split; [discriminate|]. split; [discriminate|].
      intros st' x' H. injection H as _ <-. reflexivity.
Qed.

(** X3.  A response with a 2xx status and a blank body is an api_error that
    carries the status and names the method and the path: it is never
    returned as a value. *)
Theorem requestJson_blank_body (log : list request) (response : Response) :
  fetchImpl host log (mkRequest method path query body) = Resolved response ->
  resp_ok response = true ->
  trim (resp_text response) = EmptyString ->
  exists e,
    snd (requestJson host method path query body parse log)
    = Throw (ThrownCapacities e) /\
    code e = api_error /\
    status e = Some (resp_status response) /\
    includes (message e) (method_name method +:+ " " +:+ path) = true.
Proof.
  intros F O B. rewrite requestJson_result, F.
  unfold requestJson_try. rewrite O, B. cbn [negb truthy].
  eexists. split; [reflexivity|]. split; [reflexivity|]. split; [reflexivity|].
  cbn [message createApiError normalizeCapacitiesError].
  apply includes_app_r.
  replace (method_name method +:+ " " +:+ path +:+ ".")
    with ((method_name method +:+ " " +:+ path) +:+ ".")
    by (rewrite app_assoc_string; reflexivity).
  apply includes_app_l, includes_self.
Qed.
End RequestJson.

Lemma requestJson_blank_body_witness :
  exists e,
    snd (requestJson
           (mkHost (JsDate.fixed_offset 0) None
                   (fun _ _ => Resolved (empty_response 200)) (fun _ => EmptyString)
                   (fun _ => None) (fun _ => None) (fun _ => None) true)
           GET "/spaces" [] None (fun _ => Some tt) [])
    = Throw (ThrownCapacities e) /\
    code e = api_error /\
    status e = Some 200 /\
    JsString.includes (message e) "GET /spaces" = true.
Proof.
  apply (requestJson_blank_body
           (mkHost (JsDate.fixed_offset 0) None
                   (fun _ _ => Resolved (empty_response 200)) (fun _ => EmptyString)
                   (fun _ => None) (fun _ => None) (fun _ => None) true)
           GET "/spaces" [] None (fun _ => Some tt) [] (empty_response 200));
    reflexivity.
Defined.

(** A response whose body cannot be read is a network_error without a
    status, whatever the status of the response was. *)
Example unreadable_body_is_a_network_error :
  forall st,
  exists e,
    snd (requestJson
           (mkHost (JsDate.fixed_offset 0) None
                   (fun _ _ => BodyRejected st (ThrownError "terminated"))
                   (fun _ => EmptyString)
                   (fun _ => None) (fun _ => None) (fun _ => None) true)
           GET "/spaces" [] None (fun _ => Some tt) [])
    = Throw (ThrownCapacities e) /\
    code e = network_error /\ status e = None.
Proof.
  intros st. eexists. split.
  - rewrite requestJson_result. cbn [fetchImpl].
    rewrite requestJson_try_unread. reflexivity.
  - split; reflexivity.
Qed.
(** ** config.ts and capacities-client.ts: the resolved space identifier *)

Section ResolvedSpace.
Import JsString.

Lemma hex_not_space c : is_hex_digit c = true -> is_space c = false.
Proof.
  revert c.
  assert (H : forall c, implb (is_hex_digit c) (negb (is_space c)) = true)
    by (apply ascii_all; vm_compute; reflexivity).
  intros c Hc. specialize (H c). rewrite Hc in H. apply negb_true_iff in H. exact H.
Qed.

Lemma version_not_space c : version_nibble c = true -> is_space c = false.
Proof.
  revert c.
  assert (H : forall c, implb (version_nibble c) (negb (is_space c)) = true)
    by (apply ascii_all; vm_compute; reflexivity).
  intros c Hc. specialize (H c). rewrite Hc in H. apply negb_true_iff in H. exact H.
Qed.

Lemma variant_not_space c : variant_nibble c = true -> is_space c = false.
Proof.
  revert c.
  assert (H : forall c, implb (variant_nibble c) (negb (is_space c)) = true)
    by (apply ascii_all; vm_compute; reflexivity).
  intros c Hc. specialize (H c). rewrite Hc in H. apply negb_true_iff in H. exact H.
Qed.

Lemma hex_group_no_space n g : hex_group n g -> no_space g = true.
Proof.
  intros [_ H]. induction g as [|c g IH]; [reflexivity|].
  cbn [list_ascii_of_string forallb] in H. apply andb_true_iff in H as [Hc Hg].
  cbn [no_space]. rewrite (hex_not_space c Hc), (IH Hg). reflexivity.
Qed.

Lemma uuid_shape_no_space s : canonical_uuid_shape s -> no_space s = true.
Proof.
  intros (g1 & g2 & v & g3 & w & g4 & g5 & -> & G1 & G2 & Hv & G3 & Hw & G4 & G5).
  apply hex_group_no_space in G1, G2, G3, G4, G5.
  apply no_space_app; [exact G1|]. rewrite hyphen_app. cbn [no_space].
  apply no_space_app; [exact G2|]. rewrite hyphen_app. cbn [no_space].
  rewrite app_cons. cbn [no_space]. rewrite (version_not_space v Hv).
  apply no_space_app; [exact G3|]. rewrite hyphen_app. cbn [no_space].
  rewrite app_cons. cbn [no_space]. rewrite (variant_not_space w Hw).
  apply no_space_app; [exact G4|]. rewrite hyphen_app. cbn [no_space].
  exact G5.
Qed.

Lemma uuid_not_empty s : isUuid s = true -> s <> EmptyString.
Proof. intros H ->. discriminate. Qed.

Lemma resolveSpaceId_Ok explicit config r :
  resolveSpaceId explicit config = Ok r ->
  r = winning_candidate explicit config /\ isUuid r = true.
Proof.
  rewrite resolveSpaceId_by_winner.
  destruct (winning_candidate explicit config) as [|c s]; [discriminate|].
  destruct (isUuid (String c s)) eqn:U; cbn [negb]; [|discriminate].
  intros H. injection H as <-. split; [reflexivity | exact U].
Qed.

Lemma resolveSpaceId_of_uuid r config : isUuid r = true -> resolveSpaceId (Some r) config = Ok r.
Proof.
  intros U. rewrite resolveSpaceId_by_winner.
  assert (T : trim r = r).
  { apply trim_no_space, uuid_shape_no_space, isUuid_iff, U. }
  assert (W : winning_candidate (Some r) config = r).
  { unfold winning_candidate. rewrite T.
    destruct r; [discriminate | reflexivity]. }
  rewrite W. destruct r as [|c s]; [discriminate|]. rewrite U. reflexivity.
Qed.

(** X4.  A resolved space identifier is a UUID of the canonical shape, is its
    own trimmed form, and resolves to itself as an explicit value under
    any configuration: resolving twice, as the handlers and the client
    do, changes nothing. *)
Theorem resolveSpaceId_stable
        (explicit : option string) (config : CapacitiesConfig) (r : string) :
  resolveSpaceId explicit config = Ok r ->
  canonical_uuid_shape r /\ trim r = r /\
  forall config', resolveSpaceId (Some r) config' = Ok r.
Proof.
  intros H. apply resolveSpaceId_Ok in H as [_ U].
  split; [apply isUuid_iff, U|].
  split; [apply trim_no_space, uuid_shape_no_space, isUuid_iff, U|].
  intros config'. apply resolveSpaceId_of_uuid, U.
Qed.
End ResolvedSpace.

Lemma resolveSpaceId_stable_witness :
  resolveSpaceId (Some sample_space) bare_config = Ok sample_space.
Proof.
  apply (proj2 (proj2 (resolveSpaceId_stable None sample_config sample_space eq_refl))).
Defined.

Section SpaceScoped.
Import JsString.
Variable host : Host.
Variable config : CapacitiesConfig.

Lemma getSpaceInfo_unfold spaceId log :
  getSpaceInfo host config spaceId log =
    match resolveSpaceId spaceId config with
    | Ok r =>
        requestJson host GET "/space-info" [("spaceid", r)] None
                    (parse_space_info host) log
    | Throw t => (log, Throw t)
    end.
Proof. unfold getSpaceInfo. rewrite lift_bind. reflexivity. Qed.

Lemma lookup_unfold term spaceId log :
  lookup host config term spaceId log =
    match trim term with
    | EmptyString =>
        (log, throw (createValidationError
                       "lookup searchTerm must be a non-empty string."))
    | String c s =>
        match resolveSpaceId spaceId config with
        | Ok r =>
            requestJson host POST "/lookup" []
                        (Some [("searchTerm", JStr (String c s)); ("spaceId", JStr r)])
                        (parse_lookup host) log
        | Throw t => (log, Throw t)
        end
    end.
Proof.
  unfold lookup. cbv zeta. destruct (trim term) as [|c s]; cbn [truthy negb].
  - reflexivity.
  - rewrite lift_bind. reflexivity.
Qed.

(** X5.  A lookup whose search term is blank fails with validation_error
    before the space identifier is looked at and before any request. *)
Theorem lookup_blank_term (term : string) (spaceId : option string)
        (log : list request) :
  trim term = EmptyString ->
  exists e,
    lookup host config term spaceId log = (log, throw e) /\
    code e = validation_error.
Proof.
  intros H. rewrite lookup_unfold, H. eexists. split; reflexivity.
Qed.

(** X6.  The operations scoped to a space issue a request only for a resolved
    space identifier.  When none resolves, getSpaceInfo and lookup throw
    what the resolution threw and leave the requests as they were; when
    one resolves it is a UUID and each issues exactly one request that
    carries it: GET /space-info with it as the spaceid parameter, POST
    /lookup with the trimmed search term and it in the body. *)
Theorem read_operations_need_a_space (spaceId : option string) (log : list request) :
  (forall t,
     resolveSpaceId spaceId config = Throw t ->
     getSpaceInfo host config spaceId log = (log, Throw t) /\
     forall term, trim term <> EmptyString ->
                  lookup host config term spaceId log = (log, Throw t)) /\
  (forall r,
     resolveSpaceId spaceId config = Ok r ->
     isUuid r = true /\
     fst (getSpaceInfo host config spaceId log)
     = (log ++ [space_info_request r])%list /\
     forall term, trim term <> EmptyString ->
                  fst (lookup host config term spaceId log)
                  = (log ++ [lookup_request (trim term) r])%list).
Proof.
  split.
  - intros t R. rewrite getSpaceInfo_unfold, R. split; [reflexivity|].
    intros term Ht. rewrite lookup_unfold, R.
    destruct (trim term); [congruence | reflexivity].
  - intros r R. split; [apply (resolveSpaceId_Ok _ _ _ R)|].
    rewrite getSpaceInfo_unfold, R. split; [reflexivity|].
    intros term Ht. rewrite lookup_unfold, R.
    destruct (trim term); [congruence | reflexivity].
Qed.

Variable parse_record : string -> option (list (string * json)).

Lemma set_prop_same key v props : assoc key (set_prop key v props) = Some v.
Proof.
  induction props as [|[k x] rest IH]; cbn [set_prop assoc].
  - rewrite String.eqb_refl. reflexivity.
  - destruct (String.eqb k key) eqn:E; cbn [assoc]; rewrite E; [reflexivity | exact IH].
Qed.

Lemma set_prop_other key v props k :
  k <> key -> assoc k (set_prop key v props) = assoc k props.
Proof.
  intros N. induction props as [|[k' x] rest IH]; cbn [set_prop assoc].
  - destruct (String.eqb key k) eqn:E; [|reflexivity].
    apply String.eqb_eq in E. congruence.
  - destruct (String.eqb k' key) eqn:E; cbn [assoc].
    + apply String.eqb_eq in E. subst k'.
      destruct (String.eqb key k) eqn:E'; [|reflexivity].
      apply String.eqb_eq in E'. congruence.
    + rewrite IH. reflexivity.
Qed.

(** X7.  saveWeblink and saveToDailyNote issue no request unless the space
    identifier of the payload, or the default, resolves.  When it does
    each issues exactly one POST whose body has the resolved identifier
    as spaceId and every other property of the payload as it was. *)
Theorem save_operations_need_a_space (payload : list (string * json))
        (log : list request) :
  (forall t,
     resolveSpaceId (payload_spaceId payload) config = Throw t ->
     saveWeblink host config parse_record payload log = (log, Throw t) /\
     saveToDailyNote host config parse_record payload log = (log, Throw t)) /\
  (forall r,
     resolveSpaceId (payload_spaceId payload) config = Ok r ->
     exists body,
       fst (saveWeblink host config parse_record payload log)
       = (log ++ [mkRequest POST "/save-weblink" [] (Some body)])%list /\
       fst (saveToDailyNote host config parse_record payload log)
       = (log ++ [mkRequest POST "/save-to-daily-note" [] (Some body)])%list /\
       assoc "spaceId" body = Some (JStr r) /\
       forall k, k <> "spaceId" -> assoc k body = assoc k payload).
Proof.
  unfold saveWeblink, saveToDailyNote. split.
  - intros t R. rewrite !lift_bind, R. split; reflexivity.
  - intros r R. rewrite !lift_bind, R.
    exists (set_prop "spaceId" (JStr r) payload).
    split; [reflexivity|]. split; [reflexivity|].
    split; [apply set_prop_same|]. intros k Hk. apply set_prop_other, Hk.
Qed.
End SpaceScoped.

Lemma read_operations_need_a_space_witness :
  fst (lookup sample_host sample_config " note " None [])
  = [lookup_request "note" sample_space] /\
  getSpaceInfo sample_host bare_config None []
  = ([], throw (createConfigError
                  "Missing space ID. Provide a space ID in the request or set CAPACITIES_SPACE_ID.")).
Proof.
  split.
  - apply (proj2 (proj2 (proj2 (read_operations_need_a_space
                                  sample_host sample_config None [])
                               sample_space eq_refl))).
    discriminate.
  - apply (proj1 (proj1 (read_operations_need_a_space sample_host bare_config None [])
                        _ eq_refl)).
Defined.

Lemma lookup_blank_term_witness :
  exists e,
    lookup sample_host sample_config "   " None [] = ([], throw e) /\
    code e = validation_error.
Proof. apply lookup_blank_term. reflexivity. Defined.

Lemma save_operations_need_a_space_witness :
  exists body,
    fst (saveWeblink sample_host sample_config (fun _ => None)
                     [("url", JStr "https://example.org")] [])
    = [mkRequest POST "/save-weblink" [] (Some body)] /\
    assoc "spaceId" body = Some (JStr sample_space) /\
    assoc "url" body = Some (JStr "https://example.org").
Proof.
  destruct (proj2 (save_operations_need_a_space
                     sample_host sample_config (fun _ => None)
                     [("url", JStr "https://example.org")] [])
                  sample_space eq_refl) as (body & W & _ & S & O).
  exists body. split; [exact W|]. split; [exact S|].
  rewrite O; [reflexivity | discriminate].
Defined.
(** ** config.ts: loadCapacitiesConfig *)

Section LoadConfig.
Import JsString.

Lemma getOptionalTrimmedEnv_value env name :
  getOptionalTrimmedEnv env name =
    match env_value env name with
    | EmptyString => None
    | String c s => Some (String c s)
    end.
Proof.
  unfold getOptionalTrimmedEnv, env_value. destruct (env name) as [raw|]; [|reflexivity].
  cbv zeta. destruct (trim raw); reflexivity.
Qed.

Lemma loadCapacitiesConfig_by_values env :
  loadCapacitiesConfig env =
    match env_value env CAPACITIES_API_TOKEN_ENV with
    | EmptyString =>
        throw (createConfigError
                 (CAPACITIES_API_TOKEN_ENV
                  +:+ " is required and must be a non-empty string."))
    | String c token =>
        match env_value env CAPACITIES_SPACE_ID_ENV with
        | EmptyString =>
            Ok (mkConfig CAPACITIES_API_BASE_URL (String c token) None)
        | String c' space =>
            if isUuid (String c' space)
            then Ok (mkConfig CAPACITIES_API_BASE_URL (String c token)
                              (Some (String c' space)))
            else throw (createValidationError
                          (CAPACITIES_SPACE_ID_ENV
                           +:+ " must be a UUID when provided. Received: "
                           +:+ quoted (String c' space) +:+ "."))
        end
    end.
Proof.
  unfold loadCapacitiesConfig, getRequiredTrimmedEnv.
  rewrite !getOptionalTrimmedEnv_value.
  destruct (env_value env CAPACITIES_API_TOKEN_ENV) as [|c token]; [reflexivity|].
  cbn [mbind result_bind]. cbv zeta.
  destruct (env_value env CAPACITIES_SPACE_ID_ENV) as [|c' space]; [reflexivity|].
  destruct (isUuid (String c' space)); reflexivity.
Qed.

(** X8.  Loading the configuration, by the trimmed values of the two
    variables: without a token it fails with config_error, whatever the
    space variable holds; with a token and no space value the default
    space is absent; a space value that is no UUID fails with
    validation_error and a message that quotes it; a UUID becomes the
    default space.  The token is stored trimmed and the base URL is
    fixed. *)
Theorem loadCapacitiesConfig_spec (env : EnvSource) :
  let token := env_value env CAPACITIES_API_TOKEN_ENV in
  let space := env_value env CAPACITIES_SPACE_ID_ENV in
  (token = EmptyString ->
   exists e, loadCapacitiesConfig env = throw e /\ code e = config_error) /\
  (token <> EmptyString -> space = EmptyString ->
   loadCapacitiesConfig env = Ok (mkConfig CAPACITIES_API_BASE_URL token None)) /\
  (token <> EmptyString -> space <> EmptyString -> isUuid space = false ->
   exists e,
     loadCapacitiesConfig env = throw e /\ code e = validation_error /\
     includes (message e) (quoted space) = true) /\
  (token <> EmptyString -> isUuid space = true ->
   loadCapacitiesConfig env
   = Ok (mkConfig CAPACITIES_API_BASE_URL token (Some space))).
Proof.
  cbv zeta. rewrite loadCapacitiesConfig_by_values.
  destruct (env_value env CAPACITIES_API_TOKEN_ENV) as [|c token].
  - split; [intros _; eexists; split; reflexivity|].
    split; [congruence|]. split; congruence.
  - split; [discriminate|].
    destruct (env_value env CAPACITIES_SPACE_ID_ENV) as [|c' space].
    + split; [reflexivity|]. split; [congruence|]. intros _ U. discriminate.
    + split; [discriminate|]. split.
      * intros _ _ U. rewrite U. eexists. split; [reflexivity|].
        split; [reflexivity|]. cbn [message createValidationError].
        apply includes_app_r, includes_app_r, includes_app_l, includes_self.
      * intros _ U. rewrite U. reflexivity.
Qed.

(** X9.  A loaded configuration has the fixed base URL, a trimmed token that
    is not empty, and a default space that is absent or a UUID.  So
    resolving without an explicit space identifier never fails with
    validation_error: it returns the default, or fails with config_error
    when there is none. *)
Theorem loaded_config_resolves (env : EnvSource) (config : CapacitiesConfig) :
  loadCapacitiesConfig env = Ok config ->
  baseUrl config = CAPACITIES_API_BASE_URL /\
  apiToken config <> EmptyString /\ trim (apiToken config) = apiToken config /\
  match defaultSpaceId config with
  | Some d => isUuid d = true /\ resolveSpaceId None config = Ok d
  | None => exists e, resolveSpaceId None config = throw e /\ code e = config_error
  end.
Proof.
  rewrite loadCapacitiesConfig_by_values. unfold env_value.
  destruct (env CAPACITIES_API_TOKEN_ENV) as [raw|]; [|discriminate].
  destruct (trim raw) as [|c token] eqn:T; [discriminate|].
  assert (Tt : trim (String c token) = String c token)
    by (rewrite <- T; apply trim_idem).
  destruct (match env CAPACITIES_SPACE_ID_ENV with
            | Some raw0 => trim raw0
            | None => EmptyString
            end) as [|c' space].
  - intros H. injection H as <-. cbn [baseUrl apiToken defaultSpaceId].
    split; [reflexivity|]. split; [discriminate|]. split; [exact Tt|].
    eexists. split; reflexivity.
  - destruct (isUuid (String c' space)) eqn:U; [|discriminate].
    intros H. injection H as <-. cbn [baseUrl apiToken defaultSpaceId].
    split; [reflexivity|]. split; [discriminate|]. split; [exact Tt|].
    split; [exact U|].
    rewrite resolveSpaceId_by_winner. unfold winning_candidate.
    cbn [truthy defaultSpaceId]. rewrite U. reflexivity.
Qed.
End LoadConfig.

Lemma loadCapacitiesConfig_spec_witness :
  loadCapacitiesConfig (sample_env (Some " token ") (Some sample_space))
  = Ok (mkConfig CAPACITIES_API_BASE_URL "token" (Some sample_space)) /\
  exists e,
    loadCapacitiesConfig (sample_env None (Some "home")) = throw e /\
    code e = config_error.
Proof.
  split.
  - apply (proj2 (proj2 (proj2 (loadCapacitiesConfig_spec
                                  (sample_env (Some " token ") (Some sample_space)))))).
    + discriminate.
    + reflexivity.
  - apply (proj1 (loadCapacitiesConfig_spec (sample_env None (Some "home")))).
    reflexivity.
Defined.

Lemma loaded_config_resolves_witness :
  resolveSpaceId None (mkConfig CAPACITIES_API_BASE_URL "token" (Some sample_space))
  = Ok sample_space.
Proof.
  apply (loaded_config_resolves
           (sample_env (Some " token ") (Some sample_space))
           (mkConfig CAPACITIES_API_BASE_URL "token" (Some sample_space)) eq_refl).
Defined.

(** ** read-query-tools.ts: validateDateInputs *)

Section DateFilters.
Variable host : Host.

Lemma validateDateInputs_accepts vd vf vt d f t :
  normalizeDateField host vd = Ok d ->
  normalizeDateField host vf = Ok f ->
  normalizeDateField host vt = Ok t ->
  ~ date_conflict d f t ->
  validateDateInputs d f t = Ok tt.
Proof.
  intros Hd Hf Ht C. unfold validateDateInputs.
  rewrite (normalizeDateField_present _ _ _ Hd), (normalizeDateField_present _ _ _ Hf),
    (normalizeDateField_present _ _ _ Ht).
  destruct d as [d|], f as [f|], t as [t|]; cbn [andb orb negb]; try reflexivity;
    try (elim C; unfold date_conflict;
         solve [ left; split; [discriminate|]; (left + right); discriminate
               | right; left; split; [discriminate | reflexivity]
               | right; right; left; split; [reflexivity | discriminate] ]).
  destruct (JsString.gtb f t) eqn:G; [|reflexivity].
  elim C. right. right. right. exists f, t. repeat split. exact G.
Qed.

(** X10.  The normalised date filters pass exactly when they do not conflict:
    no filter at all, a single date alone, or a full range whose start
    is not lexicographically after its end. *)
Theorem validateDateInputs_iff (vd vf vt d f t : option string) :
  normalizeDateField host vd = Ok d ->
  normalizeDateField host vf = Ok f ->
  normalizeDateField host vt = Ok t ->
  (validateDateInputs d f t = Ok tt <-> ~ date_conflict d f t) /\
  (~ date_conflict d f t <->
   (f = None /\ t = None) \/
   (d = None /\ exists from to, f = Some from /\ t = Some to /\
                                JsString.gtb from to = false)).
Proof.
  intros Hd Hf Ht. split.
  - split.
    + intros V C.
      destruct (validateDateInputs_conflict host _ _ _ _ _ _ Hd Hf Ht C) as (x & E & _).
      congruence.
    + apply (validateDateInputs_accepts _ _ _ _ _ _ Hd Hf Ht).
  - unfold date_conflict. split.
    + intros C. destruct f as [from|], t as [to|].
      * right. destruct d as [d|].
        -- elim C. left. split; [discriminate | left; discriminate].
        -- split; [reflexivity|]. exists from, to.
           split; [reflexivity|]. split; [reflexivity|].
           destruct (JsString.gtb from to) eqn:G; [|reflexivity].
           elim C. right. right. right. exists from, to. repeat split. exact G.
      * elim C. right. left. split; [discriminate | reflexivity].
      * elim C. right. right. left. split; [reflexivity | discriminate].
      * left. split; reflexivity.
    + intros [[-> ->] | (-> & from & to & -> & -> & G)].
      * intros [[_ [H | H]] | [[H _] | [[_ H] | (a & b & H & _)]]]; congruence.
      * intros [[H _] | [[_ H] | [[H _] | (a & b & Ha & Hb & G')]]]; congruence.
Qed.
End DateFilters.

Lemma validateDateInputs_iff_witness :
  validateDateInputs None (Some "2026-02-18") (Some "2026-02-19") = Ok tt.
Proof.
  apply (proj1 (validateDateInputs_iff
                  sample_host None (Some "yesterday") (Some "2026-02-19")
                  None (Some "2026-02-18") (Some "2026-02-19")
                  eq_refl eq_refl eq_refl)).
  intros [[H _] | [[_ H] | [[H _] | (a & b & Ha & Hb & G)]]];
    [elim H; reflexivity | discriminate | discriminate |].
  injection Ha as <-. injection Hb as <-. vm_compute in G. discriminate.
Defined.
(** ** read-query-tools.ts: get_space_info *)

Section SpaceInfoTool.
Import JsString.
Variable host : Host.
Variable config : CapacitiesConfig.

Lemma get_space_info_unfold spaceId :
  invoke host config (call_get_space_info spaceId) =
    match resolveSpaceId spaceId config with
    | Throw t => ([], Ok (errorResult "get_space_info" t))
    | Ok r =>
        let out1 := getSpaces host [] in
        let out2 := getSpaceInfo host config (Some r) (fst out1) in
        (fst out2,
         Ok match snd out1, snd out2 with
            | Ok sp, Ok si => space_info_success r sp si
            | Throw t, Ok _ => errorResult "get_space_info" t
            | Ok _, Throw t => errorResult "get_space_info" t
            | Throw ta, Throw tb =>
                errorResult "get_space_info"
                            (if first_settles_first host then ta else tb)
            end)
    end.
Proof.
  unfold invoke. cbn [handler]. unfold get_space_info.
  rewrite catch_cases, lift_bind.
  destruct (resolveSpaceId spaceId config) as [r|t]; [|reflexivity].
  unfold mbind at 1. unfold io_bind at 1. unfold all2. cbv zeta.
  destruct (getSpaces host []) as [l1 ra].
  cbn [fst snd].
  destruct (getSpaceInfo host config (Some r) l1) as [l2 rb].
  cbn [fst snd].
  destruct ra as [sp|ta], rb as [si|tb]; reflexivity.
Qed.

(** X11.  get_space_info issues no request when no space identifier resolves,
    and returns the error of the resolution.  When one resolves it
    issues both requests, GET /spaces then GET /space-info for the
    resolved identifier, whatever the first one gives; with both
    responses it returns the success shape with the resolved identifier,
    the number of spaces, the title of the first listed space with that
    identifier (null when none has it) and the structures as they came;
    when either fails it returns the error shape and no part of the
    other response. *)
Theorem get_space_info_spec (spaceId : option string) :
  (forall t,
     resolveSpaceId spaceId config = Throw t ->
     invoke host config (call_get_space_info spaceId)
     = ([], Ok (errorResult "get_space_info" t))) /\
  (forall r,
     resolveSpaceId spaceId config = Ok r ->
     fst (invoke host config (call_get_space_info spaceId))
     = [spaces_request; space_info_request r] /\
     (forall sp si,
        snd (getSpaces host []) = Ok sp ->
        snd (getSpaceInfo host config (Some r) [spaces_request]) = Ok si ->
        exists res,
          snd (invoke host config (call_get_space_info spaceId)) = Ok res /\
          success_shape res /\
          assoc "spaceId" (structuredContent res) = Some (JStr r) /\
          payload_number "spacesCount" res = Some (length_number (spaces sp)) /\
          assoc "spaceTitle" (structuredContent res)
          = Some match find (fun s => String.eqb (space_id s) r) (spaces sp) with
                 | Some s => JStr (space_title s)
                 | None => JNull
                 end /\
          payload_items "structures" res
          = Some (map json_of_structure (structures si))) /\
     ((exists t, snd (getSpaces host []) = Throw t) \/
      (exists t, snd (getSpaceInfo host config (Some r) [spaces_request]) = Throw t) ->
      exists t,
        snd (invoke host config (call_get_space_info spaceId))
        = Ok (errorResult "get_space_info" t))).
Proof.
  split.
  - intros t R. rewrite get_space_info_unfold, R. reflexivity.
  - intros r R. rewrite get_space_info_unfold, R. cbv zeta.
    assert (L1 : fst (getSpaces host []) = [spaces_request]) by reflexivity.
    rewrite L1.
    assert (L2 : fst (getSpaceInfo host config (Some r) [spaces_request])
                 = [spaces_request; space_info_request r]).
    { rewrite getSpaceInfo_unfold.
      rewrite (resolveSpaceId_of_uuid r config (proj2 (resolveSpaceId_Ok _ _ _ R))).
      reflexivity. }
    cbn [fst snd]. split; [exact L2|]. split.
    + intros sp si -> ->. eexists. split; [reflexivity|].
      split; [repeat split|]. repeat split.
    + intros [[t E] | [t E]]; rewrite E.
      * destruct (snd (getSpaceInfo host config (Some r) [spaces_request]));
          eexists; reflexivity.
      * destruct (snd (getSpaces host [])); eexists; reflexivity.
Qed.
End SpaceInfoTool.

Lemma get_space_info_spec_witness :
  exists res,
    invoke sample_host sample_config (call_get_space_info None)
    = ([spaces_request; space_info_request sample_space], Ok res) /\
    assoc "spaceTitle" (structuredContent res) = Some (JStr "Home") /\
    payload_number "spacesCount" res = Some 1.
Proof.
  destruct (proj2 (get_space_info_spec sample_host sample_config None)
                  sample_space eq_refl) as (L & S & _).
  destruct (S {| spaces := [mkSpace sample_space "Home" None] |}
              {| structures :=
                   [mkStructure "RootPage" "Page" [("pluralName", JStr "Pages")];
                    mkStructure "DailyNote" "Daily Note" []] |}
              eq_refl eq_refl) as (res & E & _ & _ & C & T & _).
  exists res. split; [|split; [exact T | exact C]].
  rewrite (surjective_pairing (invoke sample_host sample_config (call_get_space_info None))).
  rewrite L, E. reflexivity.
Defined.
(** ** read-query-tools.ts: search_entities *)

Section SearchTool.
Import JsString.
Variable host : Host.
Variable config : CapacitiesConfig.

(** The handler, stage by stage. *)
Lemma search_entities_unfold input :
  invoke host config (call_search_entities input) =
    match normalizeSearchEntitiesFilters host input with
    | Throw t => ([], Ok (errorResult "search_entities" t))
    | Ok filters =>
        match resolveSpaceId (sf_spaceId filters) config with
        | Throw t => ([], Ok (errorResult "search_entities" t))
        | Ok r =>
            match sf_text filters with
            | Some (String c text) =>
                let out1 := lookup host config (String c text) (Some r) [] in
                match snd out1 with
                | Throw t => (fst out1, Ok (errorResult "search_entities" t))
                | Ok L =>
                    match sf_type filters with
                    | Some (String c' ty) =>
                        let out2 := getSpaceInfo host config (Some r) (fst out1) in
                        match snd out2 with
                        | Throw t => (fst out2, Ok (errorResult "search_entities" t))
                        | Ok info =>
                            let kept :=
                              List.filter
                                (fun x =>
                                   matchesTypeFilter
                                     x (String c' ty)
                                     (resolveStructureIdsByType (String c' ty)
                                                                (structures info)))
                                (results L) in
                            (fst out2,
                             Ok (search_success
                                   filters kept
                                   match kept with
                                   | [] => [type_note (String c' ty)]
                                   | _ => []
                                   end))
                        end
                    | _ => (fst out1, Ok (search_success filters (results L) []))
                    end
                end
            | _ =>
                ([], Ok (unsupportedResult
                           host "search_entities" text_required_message
                           [("requestedFilters", json_of_search_filters filters);
                            ("supported", honored_dimensions)]))
            end
        end
    end.
Proof.
  unfold invoke. cbn [handler]. unfold search_entities.
  rewrite catch_cases, lift_bind.
  destruct (normalizeSearchEntitiesFilters host input) as [filters|t]; [|reflexivity].
  rewrite lift_bind.
  destruct (resolveSpaceId (sf_spaceId filters) config) as [r|t]; [|reflexivity].
  destruct (sf_text filters) as [[|c text]|]; try reflexivity.
  unfold mbind at 1. unfold io_bind at 1. cbv zeta.
  destruct (lookup host config (String c text) (Some r) []) as [l1 [L|t]];
    cbn [fst snd]; [|reflexivity].
  destruct (sf_type filters) as [[|c' ty]|]; try reflexivity.
  unfold mbind at 1. unfold io_bind at 1.
  unfold mbind at 1. unfold io_bind at 1.
  destruct (getSpaceInfo host config (Some r) l1) as [l2 [info|t]];
    cbn [fst snd]; [|reflexivity].
  unfold mret, io_ret, search_success.
  destruct (List.filter _ (results L)); reflexivity.
Qed.

Lemma trimToUndefined_trimmed v s : trimToUndefined v = Some s -> trim s = s.
Proof.
  unfold trimToUndefined. destruct v as [[|c v]|]; try discriminate.
  cbv zeta. destruct (trim (String c v)) eqn:E; [discriminate|].
  intros H. injection H as <-. rewrite <- E. apply trim_idem.
Qed.

Lemma search_success_shape filters kept notes :
  success_shape (search_success filters kept notes).
Proof. repeat split. Qed.

(** Every success result of search_entities is built from some kept
    results. *)
Lemma search_entities_success input requests res :
  invoke host config (call_search_entities input) = (requests, Ok res) ->
  success_shape res ->
  exists filters kept notes,
    normalizeSearchEntitiesFilters host input = Ok filters /\
    res = search_success filters kept notes.
Proof.
  rewrite search_entities_unfold.
  destruct (normalizeSearchEntitiesFilters host input) as [filters|t].
  2:{ intros H (_ & S & _). injection H as _ <-. discriminate. }
  destruct (resolveSpaceId (sf_spaceId filters) config) as [r|t].
  2:{ intros H (_ & S & _). injection H as _ <-. discriminate. }
  destruct (sf_text filters) as [[|c text]|];
    try (intros H (S & _); injection H as _ <-; discriminate).
  cbv zeta. destruct (snd (lookup host config (String c text) (Some r) [])) as [L|t].
  2:{ intros H (_ & S & _). injection H as _ <-. discriminate. }
  destruct (sf_type filters) as [[|c' ty]|];
    try (intros H _; injection H as _ <-; do 3 eexists; split; reflexivity).
  destruct (snd (getSpaceInfo host config (Some r) _)) as [info|t].
  2:{ intros H (_ & S & _). injection H as _ <-. discriminate. }
  intros H _. injection H as _ <-. do 3 eexists. split; reflexivity.
Qed.

(** X12.  In every success result of search_entities the counts agree with
    the results: the number of returned results is the one reported, is
    never above the number before the limit, and is the smaller of that
    number and the limit (20 when the input has none) when the limit is
    not negative. *)
Theorem search_entities_limit (input : SearchEntitiesInput)
        (requests : list request) (res : tool_result) :
  invoke host config (call_search_entities input) = (requests, Ok res) ->
  success_shape res ->
  exists total returned items,
    payload_number "totalResultsBeforeLimit" res = Some total /\
    payload_number "returnedResults" res = Some returned /\
    payload_items "results" res = Some items /\
    length_number items = returned /\
    returned <= total /\
    (0 <= limit_of input -> returned = Z.min (limit_of input) total).
Proof.
  intros H S.
  destruct (search_entities_success _ _ _ H S) as (filters & kept & notes & N & ->).
  destruct (normalizeSearchEntitiesFilters_Ok host _ _ N) as (d & f & t & _ & _ & _ & _ & E).
  assert (Hl : sf_limit filters = limit_of input) by (rewrite E; reflexivity).
  destruct (slice0_length kept (sf_limit filters)) as (A & B & _).
  do 3 eexists. split; [reflexivity|]. split; [reflexivity|]. split; [reflexivity|].
  split; [unfold length_number; rewrite length_map; reflexivity|].
  split; [exact A|]. rewrite <- Hl. exact B.
Qed.



(** X15.  The date filters never change what is searched or found: two inputs
    with the same space, text, type and limit whose date filters both
    pass issue the same requests and return the same results and the
    same counts. *)
Theorem search_entities_dates_do_not_filter (a b : SearchEntitiesInput)
        (fa fb : SearchEntitiesFilters) :
  si_spaceId a = si_spaceId b -> si_text a = si_text b ->
  si_type a = si_type b -> si_limit a = si_limit b ->
  normalizeSearchEntitiesFilters host a = Ok fa ->
  normalizeSearchEntitiesFilters host b = Ok fb ->
  fst (invoke host config (call_search_entities a))
  = fst (invoke host config (call_search_entities b)) /\
  forall ra rb,
    snd (invoke host config (call_search_entities a)) = Ok ra ->
    snd (invoke host config (call_search_entities b)) = Ok rb ->
    payload_items "results" ra = payload_items "results" rb /\
    payload_number "totalResultsBeforeLimit" ra
    = payload_number "totalResultsBeforeLimit" rb /\
    payload_number "returnedResults" ra = payload_number "returnedResults" rb.
Proof.
  intros Hs Ht Hty Hl Na Nb.
  destruct (normalizeSearchEntitiesFilters_Ok host _ _ Na)
    as (da & fa' & ta & _ & _ & _ & _ & Ea).
  destruct (normalizeSearchEntitiesFilters_Ok host _ _ Nb)
    as (db & fb' & tb & _ & _ & _ & _ & Eb).
  assert (S : sf_spaceId fa = sf_spaceId fb) by (rewrite Ea, Eb, Hs; reflexivity).
  assert (T : sf_text fa = sf_text fb) by (rewrite Ea, Eb, Ht; reflexivity).
  assert (Ty : sf_type fa = sf_type fb) by (rewrite Ea, Eb, Hty; reflexivity).
  assert (Li : sf_limit fa = sf_limit fb) by (rewrite Ea, Eb, Hl; reflexivity).
  rewrite !search_entities_unfold, Na, Nb, S, T, Ty.
  destruct (resolveSpaceId (sf_spaceId fb) config) as [r|t].
  2:{ split; [reflexivity|]. intros ra rb Ha Hb.
      injection Ha as <-. injection Hb as <-. repeat split. }
  destruct (sf_text fb) as [[|c text]|];
    try (split; [reflexivity|]; intros ra rb Ha Hb;
         injection Ha as <-; injection Hb as <-; repeat split).
  cbv zeta.
  destruct (snd (lookup host config (String c text) (Some r) [])) as [L|t].
  2:{ split; [reflexivity|]. intros ra rb Ha Hb.
      injection Ha as <-. injection Hb as <-. repeat split. }
  destruct (sf_type fb) as [[|c' ty]|];
    try (split; [reflexivity|]; intros ra rb Ha Hb;
         injection Ha as <-; injection Hb as <-;
         unfold payload_items, payload_number, search_success;
         cbn [structuredContent assoc String.eqb Ascii.eqb Bool.eqb];
         rewrite Li; repeat split).
  destruct (snd (getSpaceInfo host config (Some r) _)) as [Sx|t].
  2:{ split; [reflexivity|]. intros ra rb Ha Hb.
      injection Ha as <-. injection Hb as <-. repeat split. }
  split; [reflexivity|]. intros ra rb Ha Hb.
  injection Ha as <-. injection Hb as <-.
  unfold payload_items, payload_number, search_success.
  cbn [structuredContent assoc String.eqb Ascii.eqb Bool.eqb].
  rewrite Li. repeat split.
Qed.
End SearchTool.

Lemma search_entities_limit_witness :
  exists requests res,
    invoke sample_host sample_config (call_search_entities (note_search None None (Some 2)))
    = (requests, Ok res) /\
    payload_number "totalResultsBeforeLimit" res = Some 3 /\
    payload_number "returnedResults" res = Some 2.
Proof.
  destruct (invoke sample_host sample_config
                   (call_search_entities (note_search None None (Some 2))))
    as [requests [res|t]] eqn:E; [|vm_compute in E; discriminate].
  exists requests, res. split; [reflexivity|].
  assert (S : success_shape res).
  { vm_compute in E. injection E as _ <-. repeat split. }
  destruct (search_entities_limit sample_host sample_config _ _ _ E S)
    as (total & returned & items & Ht & Hr & _ & _ & _ & Hmin).
  assert (T3 : payload_number "totalResultsBeforeLimit" res = Some 3).
  { vm_compute in E. injection E as _ <-. reflexivity. }
  split; [exact T3|].
  rewrite Hr. f_equal. rewrite Ht in T3. injection T3 as ->.
  apply Hmin. discriminate.
Defined.



Lemma search_entities_dates_do_not_filter_witness :
  fst (invoke sample_host sample_config
              (call_search_entities (note_search None (Some "yesterday") None)))
  = fst (invoke sample_host sample_config
                (call_search_entities (note_search None None None))).
Proof.
  apply (proj1 (search_entities_dates_do_not_filter
                  sample_host sample_config
                  (note_search None (Some "yesterday") None)
                  (note_search None None None)
                  (mkSearchFilters None (Some "note") None (Some "2026-02-18")
                                   None None 20)
                  (mkSearchFilters None (Some "note") None None None None 20)
                  eq_refl eq_refl eq_refl eq_refl eq_refl eq_refl)).
Defined.
(** ** read-query-tools.ts: list_tasks *)

Section ListTasks.
Import JsString.
Variable host : Host.
Variable config : CapacitiesConfig.

Lemma list_tasks_unfold input :
  invoke host config (call_list_tasks input) =
    match normalizeListTasksFilters host input with
    | Ok filters =>
        ([], Ok (unsupportedResult host "list_tasks" list_unsupported_message
                   [("requestedFilters", json_of_list_filters filters);
                    ("availableEndpoints", AVAILABLE_ENDPOINTS)]))
    | Throw t => ([], Ok (errorResult "list_tasks" t))
    end.
Proof.
  unfold invoke. cbn [handler]. unfold list_tasks.
  rewrite catch_cases, lift_bind.
  destruct (normalizeListTasksFilters host input); reflexivity.
Qed.

(** X16.  list_tasks never issues a request and never looks at the
    configuration: its spaceId is only trimmed, not resolved or checked.
    When the date filters normalise and do not conflict it returns the
    explicit-unsupported shape that echoes the trimmed spaceId, the
    requested status (all when none is given) and the normalised dates;
    otherwise it returns the error shape of a validation_error. *)
Theorem list_tasks_spec (input : ListTasksInput) (d f t : option string) :
  normalizeDateField host (li_date input) = Ok d ->
  normalizeDateField host (li_dateFrom input) = Ok f ->
  normalizeDateField host (li_dateTo input) = Ok t ->
  (~ date_conflict d f t ->
   invoke host config (call_list_tasks input)
   = ([], Ok (unsupportedResult
                host "list_tasks" list_unsupported_message
                [("requestedFilters",
                  JObj [("spaceId", json_opt (trimToUndefined (li_spaceId input)));
                        ("status", JStr (status_name (status_of input)));
                        ("date", json_opt d);
                        ("dateFrom", json_opt f);
                        ("dateTo", json_opt t)]);
                 ("availableEndpoints", AVAILABLE_ENDPOINTS)]))) /\
  (date_conflict d f t ->
   exists e,
     invoke host config (call_list_tasks input)
     = ([], Ok (errorResult "list_tasks" (ThrownCapacities e))) /\
     code e = validation_error).
Proof.
  intros Hd Hf Ht. split.
  - intros C. rewrite list_tasks_unfold. unfold normalizeListTasksFilters.
    rewrite Hd, Hf, Ht. cbn [mbind result_bind].
    rewrite (validateDateInputs_accepts host _ _ _ _ _ _ Hd Hf Ht C).
    reflexivity.
  - intros C. apply (list_tasks_conflict host config input d f t Hd Hf Ht C).
Qed.
End ListTasks.

Lemma list_tasks_spec_witness :
  exists r,
    invoke sample_host bare_config
           (call_list_tasks (mkListInput (Some " home ") None None None None))
    = ([], Ok r) /\
    unsupported_shape r.
Proof.
  eexists. split.
  - apply (proj1 (list_tasks_spec
                    sample_host bare_config
                    (mkListInput (Some " home ") None None None None)
                    None None None eq_refl eq_refl eq_refl)).
    intros [[H _] | [[H _] | [[_ H] | (a & b & H & _)]]];
      solve [elim H; reflexivity | discriminate].
  - apply unsupportedResult_shape.
Defined.

(** ** mutation-tools.ts: create_task and complete_task *)

Section CreateComplete.
Import JsString.
Variable host : Host.
Variable config : CapacitiesConfig.

Lemma trimToUndefined_blank s : trim s = EmptyString -> trimToUndefined (Some s) = None.
Proof.
  intros H. unfold trimToUndefined. destruct s as [|c s]; [reflexivity|].
  cbv zeta. rewrite H. reflexivity.
Qed.

Lemma trimToUndefined_value s :
  trim s <> EmptyString -> trimToUndefined (Some s) = Some (trim s).
Proof.
  intros H. destruct (trimToUndefined_Some s H) as (c & r & E & ->).
  rewrite E. reflexivity.
Qed.

Lemma create_task_unfold input :
  invoke host config (call_create_task input) =
    match normalizeCreateTaskInput host config input with
    | Ok payload =>
        ([], Ok (unsupportedResult host "create_task" create_unsupported_message
                   [("requestedTask", json_of_create payload);
                    ("availableEndpoints", AVAILABLE_ENDPOINTS)]))
    | Throw t => ([], Ok (errorResult "create_task" t))
    end.
Proof.
  unfold invoke. cbn [handler]. unfold create_task.
  rewrite catch_cases, lift_bind.
  destruct (normalizeCreateTaskInput host config input); reflexivity.
Qed.

Lemma complete_task_unfold input :
  invoke host config (call_complete_task input) =
    match normalizeCompleteTaskInput config input with
    | Ok payload =>
        ([], Ok (unsupportedResult host "complete_task" complete_unsupported_message
                   [("requestedAction", json_of_complete payload);
                    ("availableEndpoints", AVAILABLE_ENDPOINTS)]))
    | Throw t => ([], Ok (errorResult "complete_task" t))
    end.
Proof.
  unfold invoke. cbn [handler]. unfold complete_task.
  rewrite catch_cases, lift_bind.
  destruct (normalizeCompleteTaskInput config input); reflexivity.
Qed.

Lemma normalizeCreateTaskInput_title input c t :
  trim (cr_title input) = String c t ->
  normalizeCreateTaskInput host config input =
    spaceId ← resolveSpaceId (cr_spaceId input) config;
    dueDate ← normalizeOptionalDate host (cr_dueDate input);
    Ok {| ct_spaceId := Some spaceId;
          ct_title := String c t;
          ct_description := trimToUndefined (cr_description input);
          ct_dueDate := dueDate |}.
Proof.
  intros H. unfold normalizeCreateTaskInput.
  rewrite trimToUndefined_value by congruence. rewrite H. reflexivity.
Qed.

(** X17.  create_task issues no request.  A title that trims to empty fails
    with validation_error whatever else the input holds.  With a title
    and a space identifier that resolves: a due date that is given but
    blank fails with validation_error; a due date that does not
    normalise fails with the error of the normaliser; otherwise the
    call returns the explicit-unsupported shape that echoes the resolved
    space, the trimmed title, the trimmed description (absent when
    blank) and the normalised due date. *)
Theorem create_task_spec (input : CreateTaskRaw) :
  (trim (cr_title input) = EmptyString ->
   exists e,
     invoke host config (call_create_task input)
     = ([], Ok (errorResult "create_task" (ThrownCapacities e))) /\
     code e = validation_error) /\
  (trim (cr_title input) <> EmptyString ->
   forall r,
     resolveSpaceId (cr_spaceId input) config = Ok r ->
     (forall v, cr_dueDate input = Some v -> trim v = EmptyString ->
        exists e,
          invoke host config (call_create_task input)
          = ([], Ok (errorResult "create_task" (ThrownCapacities e))) /\
          code e = validation_error) /\
     (forall v t, cr_dueDate input = Some v -> trim v <> EmptyString ->
        normalizeDateInput (tza host) (trim v) (now host) = Throw t ->
        invoke host config (call_create_task input)
        = ([], Ok (errorResult "create_task" t))) /\
     (forall due,
        (cr_dueDate input = None /\ due = None) \/
        (exists v d, cr_dueDate input = Some v /\ trim v <> EmptyString /\
                     normalizeDateInput (tza host) (trim v) (now host) = Ok d /\
                     due = Some d) ->
        invoke host config (call_create_task input)
        = ([], Ok (unsupportedResult
                     host "create_task" create_unsupported_message
                     [("requestedTask",
                       JObj [("spaceId", JStr r);
                             ("title", JStr (trim (cr_title input)));
                             ("description",
                              json_opt (trimToUndefined (cr_description input)));
                             ("dueDate", json_opt due)]);
                      ("availableEndpoints", AVAILABLE_ENDPOINTS)])))).
Proof.
  split.
  - intros H. rewrite create_task_unfold. unfold normalizeCreateTaskInput.
    rewrite (trimToUndefined_blank _ H). eexists. split; reflexivity.
  - intros H r R. rewrite create_task_unfold.
    destruct (trim (cr_title input)) as [|c t] eqn:E; [congruence|].
    rewrite (normalizeCreateTaskInput_title input c t E), R.
    cbn [mbind result_bind]. unfold normalizeOptionalDate.
    split; [|split].
    + intros v -> B. rewrite (trimToUndefined_blank _ B).
      eexists. split; reflexivity.
    + intros v t' -> B N. rewrite (trimToUndefined_value _ B).
      destruct (trim v) as [|c' s']; [congruence|]. rewrite N. reflexivity.
    + intros due [[-> ->] | (v & d & -> & B & N & ->)]; [reflexivity|].
      rewrite (trimToUndefined_value _ B).
      destruct (trim v) as [|c' s']; [congruence|]. rewrite N. reflexivity.
Qed.

(** X18.  complete_task issues no request.  A taskId that trims to empty fails
    with validation_error; otherwise, when the space identifier
    resolves, the call returns the explicit-unsupported shape that
    echoes the trimmed taskId, the resolved space and the completion
    flag, true when the input has none. *)
Theorem complete_task_spec (input : CompleteTaskRaw) :
  (trim (kr_taskId input) = EmptyString ->
   exists e,
     invoke host config (call_complete_task input)
     = ([], Ok (errorResult "complete_task" (ThrownCapacities e))) /\
     code e = validation_error) /\
  (trim (kr_taskId input) <> EmptyString ->
   forall r,
     resolveSpaceId (kr_spaceId input) config = Ok r ->
     invoke host config (call_complete_task input)
     = ([], Ok (unsupportedResult
                  host "complete_task" complete_unsupported_message
                  [("requestedAction",
                    JObj [("taskId", JStr (trim (kr_taskId input)));
                          ("spaceId", JStr r);
                          ("completed",
                           JBool match kr_completed input with
                                 | Some b => b
                                 | None => true
                                 end)]);
                   ("availableEndpoints", AVAILABLE_ENDPOINTS)]))).
Proof.
  split.
  - intros H. rewrite complete_task_unfold. unfold normalizeCompleteTaskInput.
    rewrite (trimToUndefined_blank _ H). eexists. split; reflexivity.
  - intros H r R. rewrite complete_task_unfold. unfold normalizeCompleteTaskInput.
    rewrite (trimToUndefined_value _ H).
    destruct (trim (kr_taskId input)) as [|c t]; [congruence|].
    rewrite R. reflexivity.
Qed.
End CreateComplete.

Lemma create_task_spec_witness :
  (exists e,
     invoke sample_host sample_config
            (call_create_task (mkCreateRaw None "   " None None))
     = ([], Ok (errorResult "create_task" (ThrownCapacities e))) /\
     code e = validation_error) /\
  exists r,
    invoke sample_host sample_config
           (call_create_task (mkCreateRaw None "  x  " (Some "  ") (Some "yesterday")))
    = ([], Ok r) /\
    match assoc "details" (structuredContent r) with
    | Some (JObj details) => assoc "requestedTask" details
    | _ => None
    end
    = Some (JObj [("spaceId", JStr sample_space); ("title", JStr "x");
                  ("description", JUndefined); ("dueDate", JStr "2026-02-18")]).
Proof.
  split.
  - apply (proj1 (create_task_spec sample_host sample_config
                                   (mkCreateRaw None "   " None None))).
    reflexivity.
  - eexists. split.
    + apply (proj2 (proj2 (proj2 (create_task_spec
                                    sample_host sample_config
                                    (mkCreateRaw None "  x  " (Some "  ")
                                                 (Some "yesterday")))
                                 ltac:(discriminate) sample_space eq_refl))
                   (Some "2026-02-18")).
      right. exists "yesterday", "2026-02-18".
      split; [reflexivity|]. split; [discriminate|]. split; reflexivity.
    + reflexivity.
Defined.

Lemma complete_task_spec_witness :
  exists r,
    invoke sample_host sample_config
           (call_complete_task (mkCompleteRaw " t1 " None None))
    = ([], Ok r) /\
    match assoc "details" (structuredContent r) with
    | Some (JObj details) => assoc "requestedAction" details
    | _ => None
    end
    = Some (JObj [("taskId", JStr "t1"); ("spaceId", JStr sample_space);
                  ("completed", JBool true)]).
Proof.
  eexists. split.
  - apply (proj2 (complete_task_spec sample_host sample_config
                                     (mkCompleteRaw " t1 " None None))
                 ltac:(discriminate) sample_space eq_refl).
  - reflexivity.
Defined.
(** ** date.ts and validateDateInputs: the order of normalised dates *)

Section DateOrder.
Import JsString JsDate.

Lemma compare_code c1 c2 :
  Ascii.compare c1 c2 = (code_unit c1 ?= code_unit c2).
Proof. unfold Ascii.compare, code_unit. symmetry. apply N2Z.inj_compare. Qed.

Lemma list_length_string s :
  List.length (list_ascii_of_string s) = String.length s.
Proof. induction s as [|c s IH]; [reflexivity|]. simpl. rewrite IH. reflexivity. Qed.

Lemma digit_code c : is_digit c = true -> 48 <= code_unit c <= 57.
Proof.
  unfold is_digit, between. intros H. apply andb_true_iff in H as [H1 H2].
  apply Z.leb_le in H1, H2. lia.
Qed.

Lemma code_unit_inj c1 c2 : code_unit c1 = code_unit c2 -> c1 = c2.
Proof.
  unfold code_unit. intros H. apply N2Z.inj in H.
  rewrite <- (ascii_N_embedding c1), <- (ascii_N_embedding c2), H. reflexivity.
Qed.

(** Two runs of digits of one length compare as their numbers do. *)
Lemma compare_digits m1 : forall m2 r1 r2,
  String.length m1 = String.length m2 ->
  forallb is_digit (list_ascii_of_string m1) = true ->
  forallb is_digit (list_ascii_of_string m2) = true ->
  String.compare (m1 +:+ r1) (m2 +:+ r2)
  = match Number_of_digits m1 ?= Number_of_digits m2 with
    | Eq => String.compare r1 r2
    | c => c
    end.
Proof.
  induction m1 as [|c1 m1 IH]; intros [|c2 m2] r1 r2 Hl H1 H2;
    try discriminate.
  - reflexivity.
  - cbn [String.length] in Hl. injection Hl as Hl.
    cbn [list_ascii_of_string forallb] in H1, H2.
    apply andb_true_iff in H1 as [D1 H1]. apply andb_true_iff in H2 as [D2 H2].
    rewrite !app_cons. cbn [String.compare]. rewrite compare_code.
    unfold Number_of_digits in *. cbn [list_ascii_of_string fold_left].
    rewrite (number_acc _ (digit_step 0 c1)), (number_acc _ (digit_step 0 c2)).
    rewrite !list_length_string, Hl.
    pose proof (digits_bound _ H1) as B1. pose proof (digits_bound _ H2) as B2.
    rewrite list_length_string in B1, B2. rewrite Hl in B1.
    apply digit_code in D1, D2.
    specialize (IH m2 r1 r2 Hl H1 H2).
    revert IH B1 B2.
    generalize (fold_left digit_step (list_ascii_of_string m1) 0).
    generalize (fold_left digit_step (list_ascii_of_string m2) 0).
    generalize (10 ^ Z.of_nat (String.length m2)).
    intros P n2 n1 IH B1 B2.
    unfold digit_step.
    destruct (Z.compare_spec (code_unit c1) (code_unit c2)) as [E | L | G].
    + rewrite E.
      replace ((10 * 0 + (code_unit c2 - 48)) * P + n1
               ?= (10 * 0 + (code_unit c2 - 48)) * P + n2)
        with (n1 ?= n2); [exact IH|].
      symmetry. apply Z.add_compare_mono_l.
    + replace (_ ?= _) with Lt; [reflexivity|].
      symmetry. apply Z.compare_lt_iff. nia.
    + replace (_ ?= _) with Gt; [reflexivity|].
      symmetry. apply Z.compare_gt_iff. nia.
Qed.

Lemma compare_digits_end m1 m2 :
  String.length m1 = String.length m2 ->
  forallb is_digit (list_ascii_of_string m1) = true ->
  forallb is_digit (list_ascii_of_string m2) = true ->
  String.compare m1 m2 = (Number_of_digits m1 ?= Number_of_digits m2).
Proof.
  intros Hl H1 H2.
  pose proof (compare_digits m1 m2 EmptyString EmptyString Hl H1 H2) as C.
  rewrite !app_empty_r in C. rewrite C.
  destruct (Number_of_digits m1 ?= Number_of_digits m2); reflexivity.
Qed.

Lemma class_plain_hyphen c :
  Regex.class_match false Regex.hyphen c = Ascii.eqb c "-".
Proof. revert c. apply ascii_same. vm_compute. reflexivity. Qed.

(** The strings the date pattern accepts. *)
Lemma parse_iso_shape s y m d :
  parse_iso s = Some (y, m, d) ->
  exists sy sm sd,
    s = sy +:+ "-" +:+ sm +:+ "-" +:+ sd /\
    prints_as_digits 4 sy y = true /\
    prints_as_digits 2 sm m = true /\
    prints_as_digits 2 sd d = true.
Proof.
  unfold parse_iso, ABSOLUTE_DATE_PATTERN. cbn [Regex.exec]. intros H.
  destruct (Regex.take false Regex.digit 4 s) as [[m1 r1]|] eqn:T1; [|discriminate].
  destruct (Regex.take false Regex.hyphen 1 r1) as [[h1 r2]|] eqn:T2; [|discriminate].
  destruct (Regex.take false Regex.digit 2 r2) as [[m2 r3]|] eqn:T3; [|discriminate].
  destruct (Regex.take false Regex.hyphen 1 r3) as [[h2 r4]|] eqn:T4; [|discriminate].
  destruct (Regex.take false Regex.digit 2 r4) as [[m3 r5]|] eqn:T5; [|discriminate].
  destruct r5; [|discriminate].
  cbn [option_map] in H. injection H as <- <- <-.
  apply take_split in T1 as (-> & L1 & D1), T3 as (-> & L3 & D3),
      T5 as (-> & L5 & D5).
  apply take_one in T2 as (c2 & -> & C2), T4 as (c4 & -> & C4).
  rewrite class_plain_hyphen in C2, C4. apply Ascii.eqb_eq in C2, C4. subst c2 c4.
  rewrite (forallb_same _ _ _ class_digit) in D1.
  rewrite (forallb_same _ _ _ class_digit) in D3.
  rewrite (forallb_same _ _ _ class_digit) in D5.
  rewrite app_empty_r.
  exists m1, m2, m3. split; [reflexivity|].
  unfold prints_as_digits. rewrite L1, L3, L5, D1, D3, D5, !Z.eqb_refl.
  repeat split; reflexivity.
Qed.

Lemma prints_parts n s z :
  prints_as_digits n s z = true ->
  String.length s = n /\ forallb is_digit (list_ascii_of_string s) = true /\
  Number_of_digits s = z.
Proof.
  unfold prints_as_digits. intros H.
  apply andb_true_iff in H as [H Hz]. apply andb_true_iff in H as [Hl Hd].
  apply Nat.eqb_eq in Hl. apply Z.eqb_eq in Hz. auto.
Qed.

(** Accepted date strings compare as their components do. *)
Lemma compare_dates a b ya ma da yb mb db :
  parse_iso a = Some (ya, ma, da) ->
  parse_iso b = Some (yb, mb, db) ->
  String.compare a b = lexicographic (ya, ma, da) (yb, mb, db).
Proof.
  intros Ha Hb.
  apply parse_iso_shape in Ha as (sy1 & sm1 & sd1 & -> & Y1 & M1 & D1).
  apply parse_iso_shape in Hb as (sy2 & sm2 & sd2 & -> & Y2 & M2 & D2).
  apply prints_parts in Y1 as (Ly1 & Dy1 & <-), M1 as (Lm1 & Dm1 & <-),
      D1 as (Ld1 & Dd1 & <-).
  apply prints_parts in Y2 as (Ly2 & Dy2 & <-), M2 as (Lm2 & Dm2 & <-),
      D2 as (Ld2 & Dd2 & <-).
  unfold lexicographic.
  rewrite (compare_digits sy1 sy2) by congruence.
  destruct (Number_of_digits sy1 ?= Number_of_digits sy2); try reflexivity.
  change ("-" +:+ sm1 +:+ "-" +:+ sd1) with (String "-" (sm1 +:+ "-" +:+ sd1)).
  change ("-" +:+ sm2 +:+ "-" +:+ sd2) with (String "-" (sm2 +:+ "-" +:+ sd2)).
  cbn [String.compare]. change (Ascii.compare "-" "-") with Eq. cbv iota.
  rewrite (compare_digits sm1 sm2) by congruence.
  destruct (Number_of_digits sm1 ?= Number_of_digits sm2); try reflexivity.
  change ("-" +:+ sd1) with (String "-" sd1).
  change ("-" +:+ sd2) with (String "-" sd2).
  cbn [String.compare]. change (Ascii.compare "-" "-") with Eq. cbv iota.
  apply compare_digits_end; congruence.
Qed.

Lemma day_number_real y m d :
  real_calendar_date y m d ->
  day_number y m d = DayFromYear y + month_start (m - 1) (leap_day y) + d - 1.
Proof.
  intros [Hm _]. unfold day_number, MakeDay.
  replace ((m - 1) / 12) with 0 by (Z.div_mod_to_equations; lia).
  replace ((m - 1) mod 12) with (m - 1) by (Z.div_mod_to_equations; lia).
  rewrite Z.add_0_r. reflexivity.
Qed.

Lemma month_cases_1 m : 1 <= m <= 12 ->
  m = 1 \/ m = 2 \/ m = 3 \/ m = 4 \/ m = 5 \/ m = 6 \/
  m = 7 \/ m = 8 \/ m = 9 \/ m = 10 \/ m = 11 \/ m = 12.
Proof. lia. Qed.

(** The last day of a month comes before the first day of every later
    month of the year. *)
Lemma month_start_order y m1 d1 m2 :
  real_calendar_date y m1 d1 -> 1 <= m2 <= 12 -> m1 < m2 ->
  month_start (m1 - 1) (leap_day y) + d1 <= month_start (m2 - 1) (leap_day y).
Proof.
  intros [Hm Hd] H2 L. unfold days_in_month in Hd.
  destruct (leap_day_cases y) as [E | E]; rewrite E in *;
    apply month_cases_1 in Hm; apply month_cases_1 in H2;
    repeat (destruct Hm as [Hm | Hm]; [subst m1|]); try subst m1;
    repeat (destruct H2 as [H2 | H2]; [subst m2|]); try subst m2;
    try lia; simpl in *; lia.
Qed.

Lemma day_number_in_year y m d :
  real_calendar_date y m d ->
  DayFromYear y <= day_number y m d < DayFromYear (y + 1).
Proof.
  intros R. pose proof (MakeDay_real y m d R) as (E & _ & _).
  pose proof (YearFromDay_spec (MakeDay y (m - 1) d)) as S.
  rewrite E in S. exact S.
Qed.

(** Real dates are in the order of their day numbers. *)
Lemma lexicographic_days ya ma da yb mb db :
  real_calendar_date ya ma da -> real_calendar_date yb mb db ->
  lexicographic (ya, ma, da) (yb, mb, db)
  = (day_number ya ma da ?= day_number yb mb db).
Proof.
  intros Ra Rb. unfold lexicographic.
  pose proof (day_number_in_year _ _ _ Ra) as Ia.
  pose proof (day_number_in_year _ _ _ Rb) as Ib.
  destruct (Z.compare_spec ya yb) as [E | L | G].
  - subst yb.
    rewrite (day_number_real _ _ _ Ra), (day_number_real _ _ _ Rb).
    destruct (Z.compare_spec ma mb) as [E | L | G].
    + subst mb. rewrite !Z.add_simpl_r || idtac.
      destruct (Z.compare_spec da db) as [E | L | G]; symmetry.
      * apply Z.compare_eq_iff. lia.
      * apply Z.compare_lt_iff. lia.
      * apply Z.compare_gt_iff. lia.
    + pose proof (month_start_order ya ma da mb Ra (proj1 Rb) L).
      symmetry. apply Z.compare_lt_iff. destruct Rb as [_ ?]. lia.
    + pose proof (month_start_order ya mb db ma Rb (proj1 Ra) G).
      symmetry. apply Z.compare_gt_iff. destruct Ra as [_ ?]. lia.
  - assert (DayFromYear (ya + 1) <= DayFromYear yb) by (apply DayFromYear_mono; lia).
    symmetry. apply Z.compare_lt_iff. lia.
  - assert (DayFromYear (yb + 1) <= DayFromYear ya) by (apply DayFromYear_mono; lia).
    symmetry. apply Z.compare_gt_iff. lia.
Qed.

Lemma parse_iso_not_yesterday s y m d :
  parse_iso s = Some (y, m, d) ->
  String.eqb (toLowerCase s) "yesterday" = false.
Proof.
  intros H. apply parse_iso_shape in H as (sy & sm & sd & -> & Hy & _).
  apply (printed_not_yesterday sy _ y Hy).
Qed.

Lemma parse_iso_truthy s y m d : parse_iso s = Some (y, m, d) -> truthy s = true.
Proof. destruct s; [discriminate | reflexivity]. Qed.

Variable tza : Z -> bool -> Z.

(** What the absolute branch accepts. *)
Lemma normalize_absolute_Ok input now out :
  String.eqb (toLowerCase (trim input)) "yesterday" = false ->
  normalizeDateInput tza input now = Ok out ->
  out = trim input /\
  exists y m d, parse_iso out = Some (y, m, d) /\ 100 <= y /\
                real_calendar_date y m d.
Proof.
  intros Hn H.
  destruct (parse_iso (trim input)) as [[[y m] d]|] eqn:P.
  - rewrite (normalize_absolute tza input now y m d Hn P) in H.
    destruct (round_trips y m d) eqn:R; [|discriminate].
    injection H as <-. split; [reflexivity|].
    exists y, m, d. split; [exact P|]. split; [|apply round_trips_real, R].
    destruct (Z_lt_le_dec y 100) as [L|L]; [|exact L].
    pose proof (parse_iso_bounds _ _ _ _ P) as (By & _).
    rewrite round_trips_first_century in R by lia. discriminate.
  - rewrite (normalize_no_match tza input now Hn P) in H. discriminate.
Qed.

(** X19.  For two inputs given as absolute dates, the range check of
    [validateDateInputs] on the normalised strings, a comparison of
    code units, is the comparison of the calendar days: the range
    passes exactly when its start is not a later day than its end. *)
Theorem date_range_is_chronological (now : Date) (vf vt f t : string) :
  String.eqb (toLowerCase (trim vf)) "yesterday" = false ->
  String.eqb (toLowerCase (trim vt)) "yesterday" = false ->
  normalizeDateInput tza vf now = Ok f ->
  normalizeDateInput tza vt now = Ok t ->
  exists yf mf df yt mt dt,
    parse_iso f = Some (yf, mf, df) /\
    parse_iso t = Some (yt, mt, dt) /\
    real_calendar_date yf mf df /\
    real_calendar_date yt mt dt /\
    (validateDateInputs None (Some f) (Some t) = Ok tt <->
     day_number yf mf df <= day_number yt mt dt).
Proof.
  intros Nf Nt Hf Ht.
  apply (normalize_absolute_Ok _ _ _ Nf) in Hf as (_ & yf & mf & df & Pf & _ & Rf).
  apply (normalize_absolute_Ok _ _ _ Nt) in Ht as (_ & yt & mt & dt & Pt & _ & Rt).
  exists yf, mf, df, yt, mt, dt. repeat (split; [assumption|]).
  unfold validateDateInputs. cbn [present andb orb negb].
  rewrite (parse_iso_truthy _ _ _ _ Pf), (parse_iso_truthy _ _ _ _ Pt).
  cbn [andb orb negb]. unfold gtb, String.ltb.
  rewrite (compare_dates _ _ _ _ _ _ _ _ Pt Pf), (lexicographic_days _ _ _ _ _ _ Rt Rf).
  destruct (Z.compare_spec (day_number yt mt dt) (day_number yf mf df)) as [E | L | G].
  - split; [lia | reflexivity].
  - split; [discriminate | lia].
  - split; [lia | reflexivity].
Qed.

(** X20.  A date whose year is below 100 is refused as not a real calendar
    date, whatever its month and day: [Date.UTC] reads such a year as a
    year from 1900 to 1999, and the comparison of the year fails. *)
Theorem normalizeDateInput_first_century (now : Date) (input : string) (y m d : Z) :
  parse_iso (trim input) = Some (y, m, d) ->
  y <= 99 ->
  normalizeDateInput tza input now
  = throw (createValidationError
             ("Invalid date " +:+ quoted input +:+
              ". Use a real calendar date in YYYY-MM-DD format.")).
Proof.
  intros P Hy.
  rewrite (normalize_absolute tza input now y m d (parse_iso_not_yesterday _ _ _ _ P) P).
  pose proof (parse_iso_bounds _ _ _ _ P) as (By & _).
  rewrite round_trips_first_century by lia. reflexivity.
Qed.
End DateOrder.

Lemma date_range_is_chronological_witness :
  validateDateInputs None (Some "2024-02-29") (Some "2024-03-01") = Ok tt.
Proof.
  destruct (date_range_is_chronological
              (JsDate.fixed_offset 0) (Some 0) " 2024-02-29" "2024-03-01 " "2024-02-29" "2024-03-01"
              eq_refl eq_refl eq_refl eq_refl)
    as (yf & mf & df & yt & mt & dt & Pf & Pt & _ & _ & H).
  apply H. vm_compute in Pf, Pt.
  injection Pf as <- <- <-. injection Pt as <- <- <-.
  vm_compute. discriminate.
Defined.

Lemma normalizeDateInput_first_century_witness :
  exists e,
    normalizeDateInput (JsDate.fixed_offset 0) " 0099-12-31 " (Some 0) = throw e /\
    code e = validation_error.
Proof.
  eexists. split.
  - apply (normalizeDateInput_first_century (JsDate.fixed_offset 0) (Some 0) " 0099-12-31 " 99 12 31).
    + reflexivity.
    + lia.
  - reflexivity.
Defined.
(** ** The requests of a tool invocation *)

Section Requests.
Import JsString.
Variable host : Host.
Variable config : CapacitiesConfig.

Lemma getSpaces_log log :
  fst (getSpaces host log) = (log ++ [spaces_request])%list.
Proof. reflexivity. Qed.

Lemma getSpaceInfo_log spaceId log :
  fst (getSpaceInfo host config spaceId log) = log \/
  exists r, fst (getSpaceInfo host config spaceId log)
            = (log ++ [space_info_request r])%list.
Proof.
  rewrite getSpaceInfo_unfold.
  destruct (resolveSpaceId spaceId config) as [r|t]; [right; exists r|left];
    reflexivity.
Qed.

Lemma lookup_log term spaceId log :
  fst (lookup host config term spaceId log) = log \/
  exists r, fst (lookup host config term spaceId log)
            = (log ++ [lookup_request (trim term) r])%list.
Proof.
  rewrite lookup_unfold.
  destruct (trim term) as [|c s]; [left; reflexivity|].
  destruct (resolveSpaceId spaceId config) as [r|t]; [right; exists r|left];
    reflexivity.
Qed.

Lemma get_space_info_requests spaceId :
  let log := fst (invoke host config (call_get_space_info spaceId)) in
  (List.length log <= 2)%nat /\ forallb read_request log = true.
Proof.
  cbv zeta. rewrite get_space_info_unfold.
  destruct (resolveSpaceId spaceId config) as [r|t]; [|split; [cbn; lia | reflexivity]].
  cbv zeta. cbn [fst].
  destruct (getSpaceInfo_log (Some r) (fst (getSpaces host [])))
    as [E | (r' & E)]; rewrite E, getSpaces_log;
    split; solve [cbn; lia | reflexivity].
Qed.

Lemma search_entities_requests input :
  let log := fst (invoke host config (call_search_entities input)) in
  (List.length log <= 2)%nat /\ forallb read_request log = true.
Proof.
  cbv zeta. rewrite search_entities_unfold.
  destruct (normalizeSearchEntitiesFilters host input) as [filters|t];
    [|split; [cbn; lia | reflexivity]].
  destruct (resolveSpaceId (sf_spaceId filters) config) as [r|t];
    [|split; [cbn; lia | reflexivity]].
  destruct (sf_text filters) as [[|c text]|];
    try (split; [cbn; lia | reflexivity]).
  cbv zeta.
  assert (L : (List.length (fst (lookup host config (String c text) (Some r) [])) <= 1)%nat
              /\ forallb read_request (fst (lookup host config (String c text) (Some r) []))
                 = true).
  { destruct (lookup_log (String c text) (Some r) []) as [E | (r' & E)]; rewrite E;
      split; solve [cbn; lia | reflexivity]. }
  destruct (lookup host config (String c text) (Some r) []) as [l1 [found|t]];
    cbn [fst snd] in *; destruct L as [L1 L2]; [|split; [lia | exact L2]].
  destruct (sf_type filters) as [[|c' ty]|]; cbn [fst];
    [split; [lia | exact L2] | | split; [lia | exact L2]].
  cbv zeta.
  assert (G : (List.length (fst (getSpaceInfo host config (Some r) l1)) <= 2)%nat
              /\ forallb read_request (fst (getSpaceInfo host config (Some r) l1)) = true).
  { destruct (getSpaceInfo_log (Some r) l1) as [E | (r' & E)]; rewrite E.
    - split; [lia | exact L2].
    - rewrite length_app, forallb_app. cbn [List.length]. split; [lia|].
      rewrite L2. reflexivity. }
  destruct (getSpaceInfo host config (Some r) l1) as [l2 [info|t]];
    cbn [fst snd] in *; exact G.
Qed.

(** X21.  No tool writes to the remote service.  One invocation issues at most
    two requests, each of them GET /spaces, GET /space-info or
    POST /lookup, and the five tools without a remote endpoint
    (get_entity_by_id, list_tasks, create_task, update_task and
    complete_task) issue none, whatever their input. *)
Theorem tools_only_read (c : tool_call) :
  (List.length (fst (invoke host config c)) <= 2)%nat /\
  forallb read_request (fst (invoke host config c)) = true /\
  (is_remote_tool c = false -> fst (invoke host config c) = []).
Proof.
  assert (Z : fst (invoke host config c) = [] ->
              (List.length (fst (invoke host config c)) <= 2)%nat /\
              forallb read_request (fst (invoke host config c)) = true /\
              (is_remote_tool c = false -> fst (invoke host config c) = [])).
  { intros ->. split; [cbn; lia|]. split; reflexivity. }
  destruct c as [spaceId | input | input | input | input | input | input].
  - destruct (get_space_info_requests spaceId) as [A B].
    split; [exact A|]. split; [exact B | discriminate].
  - destruct (search_entities_requests input) as [A B].
    split; [exact A|]. split; [exact B | discriminate].
  - apply Z. reflexivity.
  - apply Z. rewrite list_tasks_unfold.
    destruct (normalizeListTasksFilters host input); reflexivity.
  - apply Z. rewrite create_task_unfold.
    destruct (normalizeCreateTaskInput host config input); reflexivity.
  - apply Z. rewrite update_task_by_payload.
    destruct (normalizeUpdateTaskInput host config input); reflexivity.
  - apply Z. rewrite complete_task_unfold.
    destruct (normalizeCompleteTaskInput config input); reflexivity.
Qed.
End Requests.

Lemma tools_only_read_witness :
  fst (invoke sample_host sample_config
              (call_update_task (mkUpdateRaw "t1" None (Some "x") Null Undefined None)))
  = [].
Proof.
  apply (proj2 (proj2 (tools_only_read
                         sample_host sample_config
                         (call_update_task
                            (mkUpdateRaw "t1" None (Some "x") Null Undefined None))))).
  reflexivity.
Defined.
(** ** Tool results and input fields *)

Section Fields.
Import JsString.
Variable host : Host.
Variable config : CapacitiesConfig.

(** X22.  trimToUndefined gives nothing for an absent or blank value and the
    trimmed value otherwise; what it gives is never empty, and giving it
    back changes nothing. *)
Theorem trimToUndefined_spec (value : option string) :
  (trimToUndefined value = None <->
   value = None \/ exists v, value = Some v /\ trim v = EmptyString) /\
  (forall s, trimToUndefined value = Some s ->
     s <> EmptyString /\ trim s = s /\
     exists v, value = Some v /\ s = trim v) /\
  trimToUndefined (trimToUndefined value) = trimToUndefined value.
Proof.
  assert (A : forall v, trim v = EmptyString -> trimToUndefined (Some v) = None)
    by apply trimToUndefined_blank.
  assert (B : forall v, trim v <> EmptyString ->
                        trimToUndefined (Some v) = Some (trim v))
    by apply trimToUndefined_value.
  destruct value as [v|].
  - destruct (string_dec (trim v) EmptyString) as [E | N].
    + rewrite (A v E). split; [|split; [discriminate | reflexivity]].
      split; [|reflexivity]. intros _. right. exists v. split; [reflexivity | exact E].
    + rewrite (B v N). split; [|split].
      * split; [discriminate|].
        intros [H | (w & H & E)]; [discriminate|]. injection H as <-. contradiction.
      * intros s H. injection H as <-. split; [exact N|].
        split; [apply trim_idem|]. exists v. split; reflexivity.
      * rewrite B by (rewrite trim_idem; exact N). rewrite trim_idem. reflexivity.
  - split; [|split; [discriminate | reflexivity]].
    split; [|reflexivity]. intros _. left. reflexivity.
Qed.


(** X24.  A field of update_task that is supplied as a blank string is
    refused with validation_error, whatever the other fields, the space
    identifier and the configuration: a blank title, then a blank
    description, then a blank due date.  Clearing is done with null, not
    with an empty string. *)
Theorem update_task_blank_fields (input : UpdateTaskRaw) :
  trim (ur_taskId input) <> EmptyString ->
  (exists v, ur_title input = Some v /\ trim v = EmptyString) \/
  ((forall v, ur_title input = Some v -> trim v <> EmptyString) /\
   ((exists v, ur_description input = Value v /\ trim v = EmptyString) \/
    ((forall v, ur_description input = Value v -> trim v <> EmptyString) /\
     exists v, ur_dueDate input = Value v /\ trim v = EmptyString))) ->
  exists e,
    invoke host config (call_update_task input)
    = ([], Ok (errorResult "update_task" (ThrownCapacities e))) /\
    code e = validation_error /\
    includes (message e) "when provided." = true.
Proof.
  intros Hid H. rewrite update_task_by_payload. unfold normalizeUpdateTaskInput.
  destruct (trimToUndefined_Some _ Hid) as (c & r & _ & ->).
  destruct H as [(v & -> & B) | (T & H)].
  - rewrite (trimToUndefined_blank _ B). cbn [present andb negb].
    eexists. split; [reflexivity|]. split; reflexivity.
  - assert (Ht : (match ur_title input with Some _ => true | None => false end
                  && negb (present match ur_title input with
                                   | Some v => trimToUndefined (Some v)
                                   | None => None
                                   end)) = false).
    { destruct (ur_title input) as [v|]; [|reflexivity].
      destruct (trimToUndefined_Some v (T v eq_refl)) as (c' & r' & _ & ->).
      reflexivity. }
    rewrite Ht.
    destruct H as [(v & -> & B) | (D & v & -> & B)].
    + unfold normalizeNullableText. rewrite (trimToUndefined_blank _ B).
      eexists. split; [reflexivity|]. split; reflexivity.
    + assert (Hd : exists d, normalizeNullableText (ur_description input) "description"
                             = Ok d).
      { unfold normalizeNullableText.
        destruct (ur_description input) as [| |w]; [eexists; reflexivity ..|].
        destruct (trimToUndefined_Some w (D w eq_refl)) as (c' & r' & _ & ->).
        eexists. reflexivity. }
      destruct Hd as (d & ->). cbn [mbind result_bind].
      unfold normalizeNullableDate. rewrite (trimToUndefined_blank _ B).
      eexists. split; [reflexivity|]. split; reflexivity.
Qed.
End Fields.

Lemma update_task_blank_fields_witness :
  exists e,
    invoke sample_host bare_config
           (call_update_task (mkUpdateRaw "t1" None (Some "x") (Value "  ") Null None))
    = ([], Ok (errorResult "update_task" (ThrownCapacities e))) /\
    code e = validation_error.
Proof.
  destruct (update_task_blank_fields
              sample_host bare_config
              (mkUpdateRaw "t1" None (Some "x") (Value "  ") Null None))
    as (e & H & C & _).
  - discriminate.
  - right. split.
    + intros v H. injection H as <-. discriminate.
    + left. exists "  ". split; reflexivity.
  - exists e. split; assumption.
Defined.

Lemma trimToUndefined_spec_witness :
  "x" <> EmptyString /\ JsString.trim "x" = "x" /\
  exists v, Some " x " = Some v /\ "x" = JsString.trim v.
Proof.
  apply (proj1 (proj2 (trimToUndefined_spec (Some " x "))) "x").
  reflexivity.
Defined.
